(* ===== verification/_CoqProject ===== *)
-Q . S2P
Prelude.v
PyNum.v
Clock.v
Tags.v
Power.v
PowerReal.v
Controller.v
FloatExact.v
Display.v
Camera.v
Motor.v
MainLoop.v
CameraLoop.v
