(* ===== verification/Prelude.v ===== *)
(** * Verification of the tag-following navigation controller (src/main.py)

    The program is one Python file, [src/main.py], that drives a
    differential-drive robot towards AprilTag fiducials.  Its parts, leaf
    to root, and the file of this development that models each one:

    - Python numerics ([PyNum.v]).  The helper [rescale] (main.py 23-24),
      Python's [int()] on a float (truncation toward zero), [abs], true
      division raising [ZeroDivisionError], and [math.sqrt] followed by
      [int()].  Python floats are modelled as exact rationals [Q]; the
      truncation of a square root is computed exactly with [Z.sqrt]
      (PowerReal.v relates it to the real square root of [Reals]).
      Python's [round()] ([py_round]) rounds to the nearest integer, a
      tie going to the even neighbour.

    - The clock ([Clock.v]).  [millis()] (lines 19-20) is
      [round(time.time() * 1000)]; the reading of [time.time()] is an
      input of each iteration, a rational number of seconds.

    - Tag observations and tag selection ([Tags.v]).  The detector's
      records are a [Record tag] (id, centre, pose translation).  The three
      scans of the tag list in [main] are [fold_left]/[find] over the list,
      as the loops are written: the farthest tag (lines 96-99), the turn
      marker (114-117 and 119-123), the farthest non-turn tag (138-141).

    - Power model ([Power.v]).  [get_left_right_power_for_tag] (27-34):
      forward power from the tag distance, turning power from the
      horizontal offset, each truncated by [int()].

    - Behaviour state machine ([Controller.v]).  The loop's variables
      (lines 49-54) are the [memory] record; one iteration of the loop body
      from [now = millis()] to the snap to zero (lines 70-163, the display
      code excepted) is [tick], built from [state_machine] (105-150),
      [bookkeeping] (152-156) and [snap] (160-163).  Errors are values of
      the [result] type of this file.

    - The float abstraction of the speeds ([FloatExact.v]).  The speeds
      the loop stores are short dyadic numbers, exact doubles, and the
      snap [abs(speed) < 0.1] decides the same with the double [0.1] as
      with [1/10]: on the decay path the exact model is the float
      program.

    - The drawing overlay and the console ([Display.v]).  The overlay of
      lines 74-93 is the list of [cv2.line]/[cv2.circle]/[cv2.putText]
      calls with their arguments; the prints of lines 102-103 and
      158-159 are console lines; [tick_io] is one iteration with the
      output it writes, also when it raises.

    - The camera and the tag detector ([Camera.v]).  OpenCV's camera and
      [pupil_apriltags]' detector are libraries, here the type classes
      [Camera] and [Detector], with an instance that replays recorded
      frames.  The detector configuration (lines 39-45), the camera
      parameters and tag size (61-68), the width read once (46,
      [camera_config]) and one frame's acquisition (58-68, [acquire], a
      failed read raising in [cv2.cvtColor]) are definitions of the file.

    - Motor commands and the drive collaborator ([Motor.v]).  Lines
      165-173 issue [ForwardM1]/[BackwardM1]/[ForwardM2]/[BackwardM2] to a
      Roboclaw; the Roboclaw is an interface (a type class of drive
      objects) with a command-log instance.

    - The main loop and the shutdown path ([MainLoop.v]).  [main]'s
      [while True] loop (56-180) over a finite sequence of events (the
      frames the camera delivers with the clock reading of each, a key
      press, an exception raised by a collaborator at a given point of an
      iteration), and the [__main__] block (185-199) whose [except]
      handler ([shutdown]) stops both motors, unless a second exception
      interrupts the handler itself.

    - The loop on the camera ([CameraLoop.v]).  [camera_loop] is the same
      [while True] loop with its collaborators as interfaces: each
      iteration reads the [Camera] and runs the [Detector] ([acquire]),
      writes its output ([tick_io]) and drives the Roboclaw;
      [camera_program] adds the handler.  It computes what [main_loop]
      computes on the events the camera delivers ([camera_events]), so
      the theorems of MainLoop.v hold of it.

    What the theorems show, by file:
    - MainLoop.v: an exception at any point of an iteration, after any
      frames without the [q] key, ends the program with both motors
      stopped by the handler's two commands ([interrupt_stops_motors]);
      a second exception inside the handler leaves the drive as the loop
      left it, or stops M1 only ([handler_interrupt_leaves_motors_running]);
      over frames without [q] the loop follows [run_ticks] and leaves
      each motor at [int] of the controller's speed
      ([loop_follows_controller]); the [q] key ends [main] without the
      handler, the motors running at the last iteration's speeds
      ([quit_leaves_motors_running]); every command of every run is
      addressed to [0x80] with a non-negative magnitude
      ([program_commands_wf]), at most [2 * max_speed = 254] for frames
      in view and a clock that never goes back
      ([program_commands_bounded]).
    - Controller.v: [tick] refines an abstract navigation machine
      [nav_step] whose six rules are the spec's transitions
      ([tick_refines_nav_step]), and whole runs follow its paths
      ([run_refines_nav_path]); the behaviour of each state on each of
      its branches: driving toward the farthest tag
      ([tick_go_farthest_tracks]) or the first turn marker
      ([tick_go_turn_follows_marker]), the turn marker, the timeout, the
      centring, the decay to a stop ([tick_no_tags_decays],
      [no_tags_stops_go_farthest]); an iteration raises exactly when the
      width is 0 and it steers by a tag, with [ZeroDivisionError]
      ([tick_error]); invariants of every reachable memory, by induction
      on [reachable]: the snap invariant, and (in Section [SpeedBound])
      the bound [2 * max_speed] on the wheel speeds; the finding that
      [STATE_GO_TURN] never times out while any tag stays in view, and
      its converse ([go_turn_times_out]); the bookkeeping over a run
      ([run_bookkeeping]).  The lemma [run_ticks_equiv], with [Proper]
      instances for every operation, shows that the model respects the
      equality of the speeds as numbers.
    - Display.v: the console shows the state the iteration started in
      and exactly the speeds the state machine computed, before the snap
      ([tick_io_console]).  Lemmas: the labels of the overlay read back
      as the tag ids, and an iteration that raises has written the
      overlay and the state, not the speeds.
    - Camera.v: a camera that reports a width below one pixel gives the
      controller a width of 0, and it raises [ZeroDivisionError] on the
      first frame with a tag ([camera_width_below_one]).
    - CameraLoop.v: a camera read that fails during the run (the code
      does not test [ret]; [cv2.cvtColor] raises on the missing frame),
      before any [q] key, ends the program through the handler with both
      motors stopped ([camera_failure_stops_motors]).
    - Power.v: exact values and bounds of the powers ([-max_speed,
      2 * max_speed], reached for every even width, not clamped),
      centring on even and odd widths, monotonicity of the forward power,
      the error exactly at width 0.  PowerReal.v checks the model itself:
      the exact integer computation of the forward power equals the
      real-valued formula of the source.
    - Tags.v: the farthest-tag scan returns the first tag of least
      height, the target scan the same among the non-turn tags.
    - Motor.v: the [Forward]/[Backward] split sets each motor to
      [int(speed)] for any drive satisfying the interface's laws.
    - FloatExact.v: every stored speed of a reachable memory is
      [m / 2^e] with [|m| <= 254] and [e <= 11]
      ([reachable_speeds_dyadic]); the lemma [snap_double_agrees] checks
      the model: the snap agrees with its double version on such numbers.
    - Clock.v: [millis] is within half a millisecond of the reading and
      rounds ties to even ([millis_half_even]); lemmas: it sends a whole
      number of milliseconds back to itself and is monotone (so the
      timestamps of a clock that never goes back never go back).

    Bounds and fuel: no definition uses fuel.  The [while True] loop is a
    structural recursion over a finite list of events (in CameraLoop.v,
    of per-iteration inputs, the camera's frames being read as it goes),
    the prefix of an infinite run, so every theorem about the loop holds for every finite
    prefix; the decay of the speeds is proved to stop after a bounded
    number of tag-less frames ([decay_stops]).  Integers are [Z]: the
    values the program sends to the Roboclaw are bounded by the theorems
    of Power.v, Controller.v and MainLoop.v, not by a machine width,
    since Python integers do not wrap.

    What is not modelled: the wall clock itself (a reading of
    [time.time()] is an input; the invariants that need it assume that
    the readings never go back, which [time.time()] does not promise),
    the image processing of the camera and the detector (what a frame
    holds, AprilTag decoding and pose estimation: library code, an
    interface in Camera.v whose output is the [detection] list of
    Display.v), the rendering of the frame and the key read
    ([cv2.imshow], [cv2.waitKey], lines 176 and 179, beyond the key value
    they return), the text [repr()] gives a printed speed (whether a speed
    is a Python int or float is not tracked), the unused tag family
    (line 91), the handler's prints (191-193),
    the Roboclaw serial protocol (the [roboclaw_3] library is not part of
    the repository, so the drive is an interface here), the camera and
    window teardown after [q] (lines 182-183) and the opening of the
    serial port before the [try] (186-187), and IEEE rounding of the
    power formula and of [time.time() * 1000] (floats are exact
    rationals; FloatExact.v shows that this is exact on the stored
    speeds and the snap, but the square root and the divisions of the
    power formula are rounded by the program and not by the model).
    The loop of MainLoop.v runs [tick] on the tags of each frame; the
    output of an iteration is [tick_io] of Display.v, which computes the
    same memory ([tick_io_tick]), and the loop of CameraLoop.v, which
    writes that output, computes the loop's exit and commands
    ([camera_loop_main_loop]), so the loop's theorems hold of it.

    This file, the root of the development, holds what every component
    shares: the Python exceptions and the [result] monad with its notation,
    boolean comparisons on [Q] with their reflection lemmas, the tactics
    and the [nav] hint database. *)

From Stdlib Require Import QArith Qabs ZArith Lia Lqa Bool Morphisms List.

Declare Scope nav_scope.
Delimit Scope nav_scope with nav.
Open Scope nav_scope.

(** ** Python exceptions and the result monad *)

(** The exceptions the [except (Exception, KeyboardInterrupt, SystemExit)]
    clause of [__main__] can receive: a division by zero inside the
    controller, the keyboard interrupt, [SystemExit], and any other fault
    raised by a collaborator (camera, detector, serial link). *)
Inductive py_exn : Type :=
| ZeroDivisionError
| KeyboardInterrupt
| SystemExit
| CollaboratorFault.

Inductive result (A : Type) : Type :=
| Ok (a : A)
| Raise (e : py_exn).
Arguments Ok {A} a.
Arguments Raise {A} e.

Definition bind {A B : Type} (c : result A) (k : A -> result B) : result B :=
  match c with
  | Ok a => k a
  | Raise e => Raise e
  end.

Notation "x <- c ;; k" := (bind c (fun x => k))
  (at level 61, c at next level, right associativity) : nav_scope.
Notation "' pat <- c ;; k" := (bind c (fun x => match x with pat => k end))
  (at level 61, pat pattern, c at next level, right associativity) : nav_scope.

Definition is_ok {A} (r : result A) : bool :=
  match r with Ok _ => true | Raise _ => false end.

Lemma bind_Ok {A B} (a : A) (k : A -> result B) : bind (Ok a) k = k a.
Proof. reflexivity. Qed.

Lemma bind_Raise {A B} e (k : A -> result B) : bind (Raise e) k = Raise e.
Proof. reflexivity. Qed.

Lemma bind_eq_Ok {A B} (c : result A) (k : A -> result B) b :
  bind c k = Ok b -> exists a, c = Ok a /\ k a = Ok b.
Proof. destruct c; simpl; [eauto | discriminate]. Qed.

Lemma bind_eq_Raise {A B} (c : result A) (k : A -> result B) e :
  bind c k = Raise e -> c = Raise e \/ exists a, c = Ok a /\ k a = Raise e.
Proof. destruct c; simpl; [eauto | injection 1 as ->; auto]. Qed.

(** Two results related by [R] on their values, or the same exception. *)
Definition result_equiv {A} (R : A -> A -> Prop) (r1 r2 : result A) : Prop :=
  match r1, r2 with
  | Ok a, Ok b => R a b
  | Raise e1, Raise e2 => e1 = e2
  | _, _ => False
  end.

Lemma bind_equiv {A B} (R : A -> A -> Prop) (S : B -> B -> Prop)
      (c1 c2 : result A) (k1 k2 : A -> result B) :
  result_equiv R c1 c2 -> (forall a b, R a b -> result_equiv S (k1 a) (k2 b)) ->
  result_equiv S (bind c1 k1) (bind c2 k2).
Proof. destruct c1, c2; simpl; intros; subst; auto; contradiction. Qed.

(** ** Boolean comparisons on [Q]

    The source compares floats with [<], [>] and [abs(.) < 0.1]; the
    model decides them with these boolean tests. *)

Definition Qltb (x y : Q) : bool := negb (Qle_bool y x).

Lemma Qleb_spec (x y : Q) : reflect (x <= y) (Qle_bool x y).
Proof.
  destruct (Qle_bool x y) eqn:E; constructor.
  - now apply Qle_bool_iff.
  - intros H. apply Qle_bool_iff in H. congruence.
Qed.

Lemma Qltb_spec (x y : Q) : reflect (x < y) (Qltb x y).
Proof.
  unfold Qltb. destruct (Qleb_spec y x); constructor.
  - now apply Qle_not_lt.
  - now apply Qnot_le_lt.
Qed.

Lemma Qeqb_spec (x y : Q) : reflect (x == y) (Qeq_bool x y).
Proof.
  destruct (Qeq_bool x y) eqn:E; constructor.
  - now apply Qeq_bool_iff.
  - intros H. apply Qeq_bool_iff in H. congruence.
Qed.

#[export] Instance Qltb_Proper : Proper (Qeq ==> Qeq ==> eq) Qltb.
Proof. intros x x' Ex y y' Ey. unfold Qltb. now rewrite (Qleb_comp y y' Ey x x' Ex). Qed.

Lemma Qltb_true (x y : Q) : Qltb x y = true -> x < y.
Proof. destruct (Qltb_spec x y); [auto | discriminate]. Qed.

(** [case_q] destructs the first boolean comparison on [Q] or [Z] of the
    goal with its reflection lemma, keeping the proposition it decides. *)
Ltac case_q :=
  match goal with
  | |- context [Qltb ?x ?y] => destruct (Qltb_spec x y)
  | |- context [Qle_bool ?x ?y] => destruct (Qleb_spec x y)
  | |- context [Qeq_bool ?x ?y] => destruct (Qeqb_spec x y)
  | |- context [Z.ltb ?x ?y] => destruct (Z.ltb_spec x y)
  | |- context [Z.leb ?x ?y] => destruct (Z.leb_spec x y)
  | |- context [Z.eqb ?x ?y] => destruct (Z.eqb_spec x y)
  end.

(** [case_if] destructs the condition of the first [if] of the goal. *)
Ltac case_if :=
  match goal with
  | |- context [if ?b then _ else _] => destruct b
  end.

(** [inv_ok] turns an equation between results into the equation between
    their values, and closes the goal on a constructor clash. *)
Ltac inv_ok :=
  repeat match goal with
  | H : Ok _ = Ok _ |- _ => injection H as H
  | H : Raise _ = Raise _ |- _ => injection H as H
  | H : Ok _ = Raise _ |- _ => discriminate H
  | H : Raise _ = Ok _ |- _ => discriminate H
  end.

Lemma inject_Z_minus (a b : Z) : inject_Z (a - b) == inject_Z a - inject_Z b.
Proof. unfold Qeq. simpl. lia. Qed.

(** [push_inject_Z] distributes [inject_Z] over the ring operations in the
    goal and the hypotheses, so that [lra] sees one atom per integer. *)
Ltac push_inject_Z :=
  rewrite ?inject_Z_plus, ?inject_Z_minus, ?inject_Z_opp, ?inject_Z_mult in *;
  change (inject_Z 1) with 1%Q in *; change (inject_Z 0) with 0%Q in *.

(** ** Shared lemmas on [Q] *)

Lemma Qabs_half (q : Q) : Qabs (q / 2) == Qabs q / 2.
Proof.
  unfold Qdiv. rewrite Qabs_Qmult. reflexivity.
Qed.

Lemma Qabs_half_le (q : Q) : Qabs (q / 2) <= Qabs q.
Proof.
  rewrite Qabs_half. pose proof (Qabs_nonneg q).
  apply Qle_shift_div_r; [reflexivity | lra].
Qed.

Lemma inject_Z_nonneg (z : Z) : (0 <= z)%Z -> 0 <= inject_Z z.
Proof. intros H. change 0 with (inject_Z 0). now rewrite <- Zle_Qle. Qed.

Lemma inject_Z_pos (z : Z) : (0 < z)%Z -> 0 < inject_Z z.
Proof. intros H. change 0 with (inject_Z 0). now rewrite <- Zlt_Qlt. Qed.

Lemma Qabs_eq_cases (x y : Q) : Qabs x == y -> x == y \/ x == - y.
Proof.
  intros H. destruct (Qlt_le_dec x 0) as [L | L];
    [rewrite Qabs_neg in H by lra | rewrite Qabs_pos in H by lra]; lra.
Qed.

Lemma Qmult_self_nonneg (x : Q) : 0 <= x * x.
Proof.
  destruct (Qlt_le_dec x 0) as [L | L]; [| now apply Qmult_le_0_compat].
  setoid_replace (x * x) with (- x * - x) by ring. apply Qmult_le_0_compat; lra.
Qed.

Lemma Q_inject_Z_abs (z : Z) : Qabs (inject_Z z) = inject_Z (Z.abs z).
Proof. reflexivity. Qed.

(** ** Scans of a list *)

(** A [for] loop with [break] on the first match finds nothing exactly
    when no element matches. *)
Lemma find_None_existsb {A} (f : A -> bool) (l : list A) :
  find f l = None <-> existsb f l = false.
Proof.
  induction l as [| a l IH]; simpl; [tauto |].
  destruct (f a); simpl; [split; discriminate | exact IH].
Qed.

Lemma filter_nil_existsb {A} (f : A -> bool) (l : list A) :
  filter f l = nil <-> existsb f l = false.
Proof.
  induction l as [| a l IH]; simpl; [tauto |].
  destruct (f a); simpl; [split; discriminate | exact IH].
Qed.

Create HintDb nav.
Create Rewrite HintDb nav_rw.
#[export] Hint Resolve Qabs_half_le Qabs_nonneg inject_Z_nonneg inject_Z_pos : nav.
#[export] Hint Rewrite @bind_Ok @bind_Raise : nav_rw.
