(* ===== verification/PyNum.v ===== *)
(** * Python numerics used by src/main.py

    Python floats are exact rationals [Q] here.  This file holds [int()]
    applied to a float ([py_int], truncation toward zero), true division
    ([py_div], raising [ZeroDivisionError] on a zero divisor), the helper
    [rescale] of main.py lines 23-24, and the integer part of a square root
    of a rational ([isqrt_Q]), from which [int(math.sqrt(d) * k)] is
    computed exactly ([py_int_sqrt_mul]), and the built-in [round(x)] with
    one argument ([py_round], nearest integer, ties to even), used by
    [millis] (Clock.v).  Each comes with its specification lemmas; [py_int],
    [isqrt_Q] and [py_round] respect [Qeq]. *)

From Stdlib Require Import QArith Qabs Qround ZArith Lia Lqa Morphisms.
From S2P Require Import Prelude.

Open Scope Z_scope.

(** ** [int()] on a float: truncation toward zero *)

Definition py_int (q : Q) : Z := Z.quot (Qnum q) (Zpos (Qden q)).

(** ** True division [x / y] *)

Definition py_div (x y : Q) : result Q :=
  if Qeq_bool y 0 then Raise ZeroDivisionError else Ok (x / y)%Q.

(** ** [rescale] (main.py 23-24)

    [out_min + (val - in_min) * ((out_max - out_min) / (in_max - in_min))] *)

Definition rescale (val in_min in_max out_min out_max : Q) : result Q :=
  r <- py_div (out_max - out_min) (in_max - in_min) ;;
  Ok (out_min + (val - in_min) * r)%Q.

(** ** Integer part of a square root

    For [q = a/b >= 0], [floor (sqrt q) = floor (sqrt (a*b) / b)
    = Z.sqrt (a*b) / b]. *)

Definition isqrt_Q (q : Q) : Z :=
  Z.sqrt (Qnum q * Zpos (Qden q)) / Zpos (Qden q).

(** [int(math.sqrt(d) * k)] for [d >= 0]: [sqrt d * |k| = sqrt (d*k*k)],
    truncated toward zero with the sign of [k]. *)
Definition py_int_sqrt_mul (d k : Q) : Z :=
  if Qle_bool 0 k then isqrt_Q (d * k * k)%Q else - isqrt_Q (d * k * k)%Q.

(** ** [round(x)]: the nearest integer, a tie going to the even one

    CPython's [float.__round__] without digits rounds half to even.  With
    [f = floor x] and the fraction [r = x - f] in [[0, 1)]: below [1/2]
    the result is [f], above it [f + 1], and at [1/2] whichever is even. *)
Definition py_round (q : Q) : Z :=
  let f := Qfloor q in
  let r := (q - inject_Z f)%Q in
  if Qltb r (1 # 2) then f
  else if Qltb (1 # 2) r then f + 1
  else if Z.even f then f else f + 1.

(** ** Lemmas on [py_int] *)

Lemma py_int_inject_Z (z : Z) : py_int (inject_Z z) = z.
Proof. unfold py_int. simpl. apply Z.quot_1_r. Qed.

Lemma py_int_nonneg_spec (q : Q) :
  (0 <= q)%Q -> (inject_Z (py_int q) <= q < inject_Z (py_int q + 1))%Q.
Proof.
  destruct q as [a b]. unfold py_int, Qle, Qlt. simpl. intros H.
  rewrite Z.mul_1_r in H.
  rewrite Z.quot_div_nonneg by lia.
  pose proof (Z.div_mod a (Zpos b) ltac:(lia)).
  pose proof (Z.mod_pos_bound a (Zpos b) ltac:(lia)). nia.
Qed.

Lemma py_int_opp (q : Q) : py_int (- q) = - py_int q.
Proof. destruct q as [a b]. unfold py_int. simpl. apply Z.quot_opp_l. lia. Qed.

Lemma py_int_nonpos_spec (q : Q) :
  (q <= 0)%Q -> (inject_Z (py_int q - 1) < q <= inject_Z (py_int q))%Q.
Proof.
  intros H. assert (H' : (0 <= - q)%Q) by lra.
  pose proof (py_int_nonneg_spec _ H') as [H1 H2].
  rewrite py_int_opp in H1, H2.
  push_inject_Z. split; lra.
Qed.

(** The integer [int(q)] is characterised by these bounds, so it depends
    on the value of [q] only. *)
Lemma py_int_unique (q : Q) (n : Z) :
  ((0 <= q)%Q -> (inject_Z n <= q < inject_Z (n + 1))%Q) ->
  ((q <= 0)%Q -> (inject_Z (n - 1) < q <= inject_Z n)%Q) ->
  py_int q = n.
Proof.
  intros Hp Hn. destruct (Qlt_le_dec q 0) as [Hq | Hq].
  - destruct (py_int_nonpos_spec q ltac:(lra)) as [H1 H2].
    destruct (Hn ltac:(lra)) as [H3 H4].
    assert (inject_Z (py_int q) < inject_Z (n + 1) /\
            inject_Z n < inject_Z (py_int q + 1))%Q as [A B]
      by (push_inject_Z; split; lra).
    rewrite <- Zlt_Qlt in A, B. lia.
  - destruct (py_int_nonneg_spec q Hq) as [H1 H2].
    destruct (Hp Hq) as [H3 H4].
    assert (inject_Z (py_int q) < inject_Z (n + 1) /\
            inject_Z n < inject_Z (py_int q + 1))%Q as [A B]
      by (push_inject_Z; split; lra).
    rewrite <- Zlt_Qlt in A, B. lia.
Qed.

#[export] Instance py_int_Proper : Proper (Qeq ==> eq) py_int.
Proof.
  intros q q' E. symmetry. apply py_int_unique.
  - intros H. rewrite <- E. apply py_int_nonneg_spec. now rewrite E.
  - intros H. rewrite <- E. apply py_int_nonpos_spec. now rewrite E.
Qed.

Lemma py_int_abs_le (q : Q) (n : Z) :
  (Qabs q <= inject_Z n)%Q -> Z.abs (py_int q) <= n.
Proof.
  destruct q as [a b]. unfold py_int, Qle. simpl. rewrite Z.mul_1_r.
  intros H. rewrite <- Z.quot_abs by lia.
  rewrite Z.quot_div_nonneg by lia.
  apply Z.div_le_upper_bound; lia.
Qed.

Lemma py_int_nonneg (q : Q) : (0 <= q)%Q -> 0 <= py_int q.
Proof.
  destruct q as [a b]. unfold py_int, Qle. simpl. rewrite Z.mul_1_r. intros H.
  apply Z.quot_pos; lia.
Qed.

Lemma py_int_nonpos (q : Q) : (q <= 0)%Q -> py_int q <= 0.
Proof.
  intros H. rewrite <- (Qopp_involutive q), py_int_opp.
  assert (0 <= py_int (- q)) by (apply py_int_nonneg; lra). lia.
Qed.

(** A value strictly above [lo - 1] and at most [hi] truncates into
    [lo, hi] when [lo <= 0 <= hi]. *)
Lemma py_int_range (v : Q) (lo hi : Z) :
  lo <= 0 <= hi -> (inject_Z lo - 1 < v <= inject_Z hi)%Q -> lo <= py_int v <= hi.
Proof.
  intros Hlh [H1 H2]. destruct (Qlt_le_dec v 0) as [Hv | Hv].
  - destruct (py_int_nonpos_spec v ltac:(lra)) as [A B].
    assert (C : (inject_Z (lo - 1) < inject_Z (py_int v))%Q) by (push_inject_Z; lra).
    assert (D : (inject_Z (py_int v - 1) < inject_Z 0)%Q) by (push_inject_Z; lra).
    rewrite <- Zlt_Qlt in C, D. lia.
  - destruct (py_int_nonneg_spec v Hv) as [A B].
    assert (C : (inject_Z (py_int v) <= inject_Z hi)%Q) by lra.
    assert (D : (-1 < inject_Z (py_int v))%Q) by (push_inject_Z; lra).
    change (-1)%Q with (inject_Z (-1)) in D.
    rewrite <- Zle_Qle in C. rewrite <- Zlt_Qlt in D. lia.
Qed.

Lemma py_int_div_pos (a w : Z) : 0 < w -> py_int (inject_Z a / inject_Z w) = Z.quot a w.
Proof.
  intros Hw. rewrite (py_int_Proper _ (Qmake a (Z.to_pos w))).
  - unfold py_int. simpl. now rewrite Z2Pos.id.
  - unfold Qeq, Qdiv, Qmult, Qinv. simpl. destruct w; try lia. simpl. lia.
Qed.

(** ** Lemmas on [rescale] *)

Lemma rescale_Ok (v a b c d : Q) :
  ~ (b - a == 0)%Q ->
  rescale v a b c d = Ok (c + (v - a) * ((d - c) / (b - a)))%Q.
Proof.
  intros H. unfold rescale, py_div. case_q; [contradiction | reflexivity].
Qed.

Lemma rescale_Raise (v a b c d : Q) e :
  rescale v a b c d = Raise e <-> (b - a == 0)%Q /\ e = ZeroDivisionError.
Proof.
  unfold rescale, py_div. case_q; simpl; split.
  - intros H. inv_ok. auto.
  - intros [_ ->]. reflexivity.
  - discriminate.
  - intros [H _]. contradiction.
Qed.

(** ** Lemmas on [isqrt_Q] *)

Lemma isqrt_Q_spec (q : Q) :
  (0 <= q)%Q ->
  0 <= isqrt_Q q /\
  (inject_Z (isqrt_Q q * isqrt_Q q) <= q < inject_Z ((isqrt_Q q + 1) * (isqrt_Q q + 1)))%Q.
Proof.
  destruct q as [a b]. unfold isqrt_Q, Qle, Qlt. simpl. rewrite Z.mul_1_r.
  intros Ha. pose proof (Z.sqrt_spec (a * Zpos b) ltac:(lia)) as [S1 S2].
  pose proof (Z.sqrt_nonneg (a * Zpos b)).
  set (s := Z.sqrt (a * Zpos b)) in *.
  pose proof (Z.div_mod s (Zpos b) ltac:(lia)).
  pose proof (Z.mod_pos_bound s (Zpos b) ltac:(lia)).
  set (n := s / Zpos b) in *. set (r := s mod Zpos b) in *.
  assert (0 <= n) by nia.
  split; [assumption |]. split.
  - assert (n * Zpos b * (n * Zpos b) <= a * Zpos b) by nia. nia.
  - assert (s + 1 <= (n + 1) * Zpos b) by nia.
    assert (a * Zpos b < (n + 1) * Zpos b * ((n + 1) * Zpos b)) by nia. nia.
Qed.

Lemma isqrt_Q_unique (q : Q) (n : Z) :
  0 <= n ->
  (inject_Z (n * n) <= q < inject_Z ((n + 1) * (n + 1)))%Q ->
  isqrt_Q q = n.
Proof.
  intros Hn [H1 H2].
  assert (Hq : (0 <= q)%Q) by (eapply Qle_trans; [| exact H1];
                               change 0%Q with (inject_Z 0);
                               rewrite <- Zle_Qle; nia).
  destruct (isqrt_Q_spec q Hq) as (H0 & H3 & H4).
  set (m := isqrt_Q q) in *.
  assert (A : (inject_Z (n * n) < inject_Z ((m + 1) * (m + 1)))%Q) by lra.
  assert (B : (inject_Z (m * m) < inject_Z ((n + 1) * (n + 1)))%Q) by lra.
  rewrite <- Zlt_Qlt in A, B. nia.
Qed.

Lemma isqrt_Q_mono (q1 q2 : Q) :
  (0 <= q1)%Q -> (q1 <= q2)%Q -> isqrt_Q q1 <= isqrt_Q q2.
Proof.
  intros H1 H12.
  destruct (isqrt_Q_spec q1 H1) as (A0 & A1 & A2).
  destruct (isqrt_Q_spec q2 ltac:(lra)) as (B0 & B1 & B2).
  assert (C : (inject_Z (isqrt_Q q1 * isqrt_Q q1) <
               inject_Z ((isqrt_Q q2 + 1) * (isqrt_Q q2 + 1)))%Q) by lra.
  rewrite <- Zlt_Qlt in C. nia.
Qed.

#[export] Instance isqrt_Q_Proper : Proper (Qeq ==> eq) isqrt_Q.
Proof.
  intros q q' E. destruct (Qlt_le_dec q 0) as [Hq | Hq].
  - unfold isqrt_Q. destruct q as [a b], q' as [a' b'].
    unfold Qeq, Qlt in *. simpl in *.
    rewrite !Z.sqrt_neg by nia. rewrite !Z.div_0_l by lia. reflexivity.
  - assert (Hq' : (0 <= q')%Q) by (rewrite <- E; exact Hq).
    apply isqrt_Q_unique; [apply isqrt_Q_spec, Hq' |].
    rewrite E. apply isqrt_Q_spec, Hq'.
Qed.

(** ** Lemmas on [py_int_sqrt_mul] *)

#[export] Instance py_int_sqrt_mul_Proper : Proper (Qeq ==> Qeq ==> eq) py_int_sqrt_mul.
Proof.
  intros d d' Ed k k' Ek. unfold py_int_sqrt_mul.
  assert (E : isqrt_Q (d * k * k) = isqrt_Q (d' * k' * k'))
    by (apply isqrt_Q_Proper; now rewrite Ed, Ek).
  rewrite E, (Qleb_comp 0%Q 0%Q (Qeq_refl 0%Q) k k' Ek). reflexivity.
Qed.

(** On a perfect square [d * k * k = n * n] the result is [n] with the
    sign of [k]. *)
Lemma py_int_sqrt_mul_exact (d k : Q) (n : Z) :
  0 <= n -> (d * k * k == inject_Z (n * n))%Q ->
  py_int_sqrt_mul d k = if Qle_bool 0 k then n else - n.
Proof.
  intros Hn E. unfold py_int_sqrt_mul.
  rewrite (isqrt_Q_unique (d * k * k) n Hn); [reflexivity |].
  rewrite E. split; [apply Qle_refl |]. rewrite <- Zlt_Qlt. nia.
Qed.

Lemma py_int_sqrt_mul_nonneg (d k : Q) :
  (0 <= d)%Q -> (0 <= k)%Q -> 0 <= py_int_sqrt_mul d k.
Proof.
  intros Hd Hk. unfold py_int_sqrt_mul. case_q; [| contradiction].
  apply isqrt_Q_spec. nra.
Qed.

Lemma py_int_sqrt_mul_mono (d1 d2 k : Q) :
  (0 <= d1)%Q -> (d1 <= d2)%Q -> (0 <= k)%Q ->
  py_int_sqrt_mul d1 k <= py_int_sqrt_mul d2 k.
Proof.
  intros H1 H12 Hk. unfold py_int_sqrt_mul. case_q; [| contradiction].
  apply isqrt_Q_mono; nra.
Qed.

(** ** Lemmas on [py_round] *)

Lemma Qfloor_bounds (q : Q) : (inject_Z (Qfloor q) <= q < inject_Z (Qfloor q) + 1)%Q.
Proof.
  split; [apply Qfloor_le |]. rewrite <- (inject_Z_plus _ 1). apply Qlt_floor.
Qed.

Lemma Qfloor_unique (q : Q) (n : Z) :
  (inject_Z n <= q < inject_Z n + 1)%Q -> Qfloor q = n.
Proof.
  intros H. pose proof (Qfloor_bounds q) as B.
  assert (L : (inject_Z (Qfloor q) < inject_Z (n + 1))%Q)
    by (rewrite inject_Z_plus; change (inject_Z 1) with 1%Q; lra).
  assert (R : (inject_Z n < inject_Z (Qfloor q + 1))%Q)
    by (rewrite inject_Z_plus; change (inject_Z 1) with 1%Q; lra).
  rewrite <- Zlt_Qlt in L, R. lia.
Qed.

#[export] Instance Qfloor_Proper : Proper (Qeq ==> eq) Qfloor.
Proof.
  intros x y E. apply Z.le_antisymm; apply Qfloor_resp_le; lra.
Qed.

#[export] Instance py_round_Proper : Proper (Qeq ==> eq) py_round.
Proof.
  intros x y E. unfold py_round. cbv zeta.
  assert (F : Qfloor x = Qfloor y) by now rewrite E. now rewrite F, !E.
Qed.

(** The three branches of [py_round], with the fraction they are taken on. *)
Lemma py_round_cases (q : Q) :
  let f := Qfloor q in
  ((q - inject_Z f < 1 # 2)%Q /\ py_round q = f) \/
  ((1 # 2 < q - inject_Z f)%Q /\ py_round q = f + 1) \/
  ((q - inject_Z f == 1 # 2)%Q /\ py_round q = if Z.even f then f else f + 1).
Proof.
  unfold py_round. simpl. repeat case_q; auto.
  right; right. split; [lra | reflexivity].
Qed.

(** [round(x)] is within [1/2] of [x]. *)
Lemma py_round_spec (q : Q) : (Qabs (q - inject_Z (py_round q)) <= 1 # 2)%Q.
Proof.
  pose proof (Qfloor_bounds q) as B.
  destruct (py_round_cases q) as [[H ->] | [[H ->] | [H ->]]];
    [| | destruct (Z.even (Qfloor q))]; push_inject_Z; apply Qabs_Qle_condition; lra.
Qed.

(** An integer nearer than [1/2] to [x] is [round(x)]. *)
Lemma py_round_unique (q : Q) (n : Z) :
  (Qabs (q - inject_Z n) < 1 # 2)%Q -> py_round q = n.
Proof.
  intros H. pose proof (py_round_spec q) as S.
  apply Qabs_Qle_condition in S. apply Qabs_Qlt_condition in H.
  assert (L : (inject_Z (py_round q) - inject_Z n < 1)%Q) by lra.
  assert (R : (inject_Z n - inject_Z (py_round q) < 1)%Q) by lra.
  rewrite <- inject_Z_minus in L, R. change 1%Q with (inject_Z 1) in L, R.
  rewrite <- Zlt_Qlt in L, R. lia.
Qed.

(** At an exact tie, [round(x)] is even. *)
Lemma py_round_tie_even (q : Q) :
  (Qabs (q - inject_Z (py_round q)) == 1 # 2)%Q -> Z.even (py_round q) = true.
Proof.
  pose proof (Qfloor_bounds q) as B.
  destruct (py_round_cases q) as [[H E] | [[H E] | [H E]]]; rewrite E; intros T;
    [| | destruct (Z.even (Qfloor q)) eqn:Ev; [exact Ev |];
         rewrite Z.even_add, Ev; reflexivity];
    push_inject_Z; apply Qabs_eq_cases in T; lra.
Qed.

Lemma py_round_inject_Z (z : Z) : py_round (inject_Z z) = z.
Proof. apply py_round_unique. rewrite Qabs_Qlt_condition. lra. Qed.

(** [round] is monotone: two inputs in order round in order (ties
    included). *)
Lemma py_round_mono (q1 q2 : Q) : (q1 <= q2)%Q -> py_round q1 <= py_round q2.
Proof.
  intros H. destruct (Z.le_gt_cases (py_round q1) (py_round q2)) as [| G]; [assumption |].
  pose proof (py_round_spec q1) as S1. pose proof (py_round_spec q2) as S2.
  apply Qabs_Qle_condition in S1, S2.
  assert (G' : (inject_Z (py_round q2) + 1 <= inject_Z (py_round q1))%Q)
    by (rewrite <- (inject_Z_plus _ 1), <- Zle_Qle; lia).
  assert (E : (q1 == q2)%Q) by lra. rewrite E in G. lia.
Qed.

#[export] Hint Resolve py_int_abs_le : nav.
#[export] Hint Rewrite py_int_inject_Z py_int_opp : nav_rw.
