(* ===== verification/Clock.v ===== *)
(** * The clock: [millis()] (src/main.py 19-20)

    [millis()] returns [round(time.time() * 1000)], the wall clock in
    whole milliseconds.  A reading of [time.time()] is a rational number
    of seconds here, so the product by 1000 is exact; [round] is Python's
    (nearest integer, ties to even, [py_round] of PyNum.v).

    The lemmas: [millis] is within half a millisecond of the reading, it
    is monotone (a clock that never goes back gives timestamps that never
    go back, for a single reading and for a sorted sequence of them), it
    sends a whole number of milliseconds back to itself, and it rounds a
    half millisecond to the even neighbour. *)

From Stdlib Require Import QArith Qabs Qround ZArith Lia Lqa List Sorted Morphisms.
From S2P Require Import Prelude PyNum.
Import ListNotations.

Open Scope Q_scope.

(** Lines 19-20, for the reading [t] of [time.time()] in seconds. *)
Definition millis (t : Q) : Z := py_round (t * 1000).

#[export] Instance millis_Proper : Proper (Qeq ==> eq) millis.
Proof. intros x y E. unfold millis. now rewrite E. Qed.

Lemma millis_spec (t : Q) : Qabs (t * 1000 - inject_Z (millis t)) <= 1 # 2.
Proof. apply py_round_spec. Qed.

Lemma millis_mono (t1 t2 : Q) : t1 <= t2 -> (millis t1 <= millis t2)%Z.
Proof. intros H. apply py_round_mono. lra. Qed.

Lemma millis_zero : millis 0 = 0%Z.
Proof. reflexivity. Qed.

Lemma millis_nonneg (t : Q) : 0 <= t -> (0 <= millis t)%Z.
Proof. intros H. rewrite <- millis_zero. now apply millis_mono. Qed.

(** A sorted sequence of readings gives a sorted sequence of timestamps. *)
Lemma millis_sorted (ts : list Q) : Sorted Qle ts -> Sorted Z.le (map millis ts).
Proof.
  induction 1 as [| t ts _ IH Hd]; constructor; [exact IH |].
  destruct Hd; constructor. now apply millis_mono.
Qed.

(** The head of a sorted list is below the next element, and the tail is
    sorted. *)
Lemma Sorted_cons2 {A} (R : A -> A -> Prop) (a b : A) (l : list A) :
  Sorted R (a :: b :: l) -> R a b /\ Sorted R (b :: l).
Proof. intros S. inversion S as [| ? ? S' H]; subst. inversion H; subst. auto. Qed.

(** A whole number [ms] of milliseconds, read as [ms / 1000]
    seconds, is sent back to [ms] by [millis]: the timestamp of a clock
    reading that is already a whole millisecond is exact. *)
Lemma millis_roundtrip (ms : Z) : millis (inject_Z ms / 1000) = ms.
Proof.
  unfold millis. rewrite <- py_round_inject_Z. apply py_round_Proper. field.
Qed.

(** C27: [millis] rounds a reading to the nearest millisecond, within half
    a millisecond, and a reading of exactly [k + 1/2] milliseconds goes to
    whichever of [k] and [k + 1] is even (Python 3 rounds half to even,
    not half up). *)
Theorem millis_half_even (t : Q) (k : Z) :
  Qabs (inject_Z (millis t) / 1000 - t) <= 1 # 2000 /\
  millis ((2 * inject_Z k + 1) / 2000) = if Z.even k then k else (k + 1)%Z.
Proof.
  split.
  - pose proof (millis_spec t) as S. apply Qabs_Qle_condition in S.
    apply Qabs_Qle_condition. unfold Qdiv. change (/ 1000) with (1 # 1000). lra.
  - unfold millis.
    assert (E : (2 * inject_Z k + 1) / 2000 * 1000 == inject_Z k + (1 # 2)) by field.
    rewrite E. unfold py_round. cbv zeta.
    assert (F : Qfloor (inject_Z k + (1 # 2)) = k) by (apply Qfloor_unique; lra).
    rewrite F. assert (H : inject_Z k + (1 # 2) - inject_Z k == 1 # 2) by ring.
    now rewrite !H.
Qed.
