(* ===== verification/Tags.v ===== *)
(** * Tag observations and tag selection (src/main.py)

    A detection of [pupil_apriltags] is a [tag]: its id, its centre in
    pixels and its pose translation (the column vector [pose_t], of which
    the code reads [pose_t[i][0]]).  The corners and the tag family are
    read only by the drawing code and are not part of the record.

    The three scans of the detection list in [main] are modelled as they
    are written: [find_farthest] is the loop of lines 96-99 as a
    [fold_left], [find_target] the loop of lines 138-141, and
    [find_turn_tag] the loops with [break] of lines 114-117 and 119-123.
    The theorems characterise the farthest tag (the first tag of least
    vertical coordinate), show that the loop of [STATE_TURN_LEFT] is the
    farthest scan over the non-turn tags, and that the turn scan returns
    the first turn marker. *)

From Stdlib Require Import QArith List Lia Lqa Bool.
From S2P Require Import Prelude.
Import ListNotations.

(** Tag ids of the program (main.py 15-16). *)
Definition TAG_FORWARD : Z := 1.
Definition TAG_TURN_LEFT : Z := 2.

Record tag : Type := mk_tag {
  tag_id : Z;
  center : Q * Q;
  pose_t : Q * Q * Q
}.

(** [tag.center[0]] and [tag.center[1]]. *)
Definition cx (t : tag) : Q := fst (center t).
Definition cy (t : tag) : Q := snd (center t).

Definition is_turn_tag (t : tag) : bool := Z.eqb (tag_id t) TAG_TURN_LEFT.

(** ** Lines 96-99: the farthest tag

    [if farthest_tag is None or tag.center[1] < farthest_tag.center[1]:
       farthest_tag = tag] *)
Definition farthest_step (farthest_tag : option tag) (t : tag) : option tag :=
  match farthest_tag with
  | None => Some t
  | Some f => if Qltb (cy t) (cy f) then Some t else Some f
  end.

Definition find_farthest (tags : list tag) : option tag :=
  fold_left farthest_step tags None.

(** ** Lines 138-141: the farthest tag that is not a turn marker

    [if tag.tag_id != TAG_TURN_LEFT and
        (target_tag is None or tag.center[1] < target_tag.center[1]):
       target_tag = tag] *)
Definition target_step (target_tag : option tag) (t : tag) : option tag :=
  if negb (is_turn_tag t) &&
     match target_tag with None => true | Some g => Qltb (cy t) (cy g) end
  then Some t else target_tag.

Definition find_target (tags : list tag) : option tag :=
  fold_left target_step tags None.

(** ** Lines 114-117 and 119-123: the first turn marker (loop with [break]) *)
Definition find_turn_tag (tags : list tag) : option tag :=
  find is_turn_tag tags.

(** ** Specification of the farthest tag

    [first_min x l]: [l] is [pre ++ x :: post], every tag of [pre] has a
    vertical coordinate strictly larger than that of [x], and every tag
    of [post] one at least that of [x].  So [x] has the least vertical
    coordinate of [l] (it is the farthest tag) and is the first tag of [l]
    that has it. *)
Definition first_min (x : tag) (l : list tag) : Prop :=
  exists pre post, l = pre ++ x :: post /\
    Forall (fun t => cy x < cy t) pre /\ Forall (fun t => cy x <= cy t) post.

Lemma first_min_le x l : first_min x l -> forall t, In t l -> cy x <= cy t.
Proof.
  intros (pre & post & -> & Hpre & Hpost) t Ht.
  apply in_app_or in Ht as [Ht | [<- | Ht]].
  - rewrite Forall_forall in Hpre. apply Qlt_le_weak, Hpre, Ht.
  - apply Qle_refl.
  - rewrite Forall_forall in Hpost. apply Hpost, Ht.
Qed.

Lemma first_min_In x l : first_min x l -> In x l.
Proof.
  intros (pre & post & -> & _). apply in_or_app. simpl. auto.
Qed.

(** Adding an element in front that is strictly lower in the image. *)
Lemma first_min_cons_lt x f l :
  first_min x l -> cy x < cy f -> first_min x (f :: l).
Proof.
  intros (pre & post & -> & Hpre & Hpost) Hf.
  exists (f :: pre), post. repeat split; auto.
Qed.

(** The first tag of least vertical coordinate is unique. *)
Lemma first_min_unique x y l : first_min x l -> first_min y l -> x = y.
Proof.
  intros (p1 & q1 & -> & A1 & B1). revert A1.
  induction p1 as [| z p1 IH]; intros A1 (p2 & q2 & E & A2 & B2);
    destruct p2 as [| z' p2]; simpl in E; injection E as E1 E2.
  - exact E1.
  - subst z'. inversion A2 as [| ? ? Hx _]. rewrite Forall_forall in B1.
    assert (cy x <= cy y) by (apply B1; rewrite E2; apply in_or_app; simpl; auto). lra.
  - subst z. inversion A1 as [| ? ? Hy _]. rewrite Forall_forall in B2.
    assert (cy y <= cy x) by (apply B2; rewrite <- E2; apply in_or_app; simpl; auto). lra.
  - inversion A1. inversion A2. apply IH; [assumption |].
    exists p2, q2. auto.
Qed.

Lemma fold_farthest_Some (l : list tag) (f x : tag) :
  fold_left farthest_step l (Some f) = Some x -> first_min x (f :: l).
Proof.
  revert f. induction l as [| t l IH]; intros f H; simpl in H.
  - injection H as <-. exists [], []. repeat split; constructor.
  - destruct (Qltb_spec (cy t) (cy f)) as [Hlt | Hge].
    + apply IH in H. apply first_min_cons_lt; [exact H |].
      eapply Qle_lt_trans; [apply (first_min_le _ _ H t); now left | exact Hlt].
    + apply IH in H as ([| p pre] & post & E & Hpre & Hpost).
      * injection E as -> ->. exists [], (t :: post).
        repeat split; [constructor | constructor; [lra | exact Hpost]].
      * injection E as -> ->. inversion Hpre as [| ? ? Hp Hpre']; subst.
        exists (p :: t :: pre), post. repeat split; [| exact Hpost].
        constructor; [exact Hp | constructor; [lra | exact Hpre']].
Qed.

Lemma fold_farthest_is_Some (l : list tag) f :
  exists x, fold_left farthest_step l (Some f) = Some x.
Proof.
  revert f. induction l as [| t l IH]; intros f; simpl; [eauto |].
  case_if; apply IH.
Qed.

(** The target scan of [STATE_TURN_LEFT] skips the turn markers and is
    otherwise the farthest scan, from any accumulator. *)
Lemma fold_target_filter (l : list tag) (acc : option tag) :
  fold_left target_step l acc =
  fold_left farthest_step (filter (fun t => negb (is_turn_tag t)) l) acc.
Proof.
  revert acc. induction l as [| t l IH]; intros acc; simpl; [reflexivity |].
  unfold target_step at 2. destruct (negb (is_turn_tag t)); simpl.
  - rewrite IH. destruct acc as [g |]; simpl; [| reflexivity].
    destruct (Qltb (cy t) (cy g)); reflexivity.
  - apply IH.
Qed.

Lemma find_turn_tag_Some (l : list tag) (t : tag) :
  find_turn_tag l = Some t ->
  exists pre post, l = pre ++ t :: post /\ is_turn_tag t = true /\
    Forall (fun u => is_turn_tag u = false) pre.
Proof.
  unfold find_turn_tag. induction l as [| u l IH]; simpl; [discriminate |].
  destruct (is_turn_tag u) eqn:E.
  - intros [= <-]. exists [], l. auto.
  - intros H. destruct (IH H) as (pre & post & -> & Ht & Hpre).
    exists (u :: pre), post. auto.
Qed.

Lemma find_turn_tag_None (l : list tag) :
  find_turn_tag l = None <-> Forall (fun u => is_turn_tag u = false) l.
Proof.
  unfold find_turn_tag. induction l as [| u l IH]; simpl; [split; auto |].
  destruct (is_turn_tag u) eqn:E; split.
  - discriminate.
  - intros H. inversion H. congruence.
  - intros H. constructor; [exact E | apply IH, H].
  - intros H. inversion H. apply IH. assumption.
Qed.

Lemma find_turn_tag_exists (l : list tag) :
  (exists t, In t l /\ tag_id t = TAG_TURN_LEFT) <-> exists t', find_turn_tag l = Some t'.
Proof.
  split.
  - intros (t & Ht & Hid). destruct (find_turn_tag l) as [t' |] eqn:E; [eauto |].
    apply find_turn_tag_None in E. rewrite Forall_forall in E.
    specialize (E t Ht). unfold is_turn_tag in E. apply Z.eqb_neq in E. contradiction.
  - intros [t' E]. apply find_turn_tag_Some in E as (pre & post & -> & Ht & _).
    exists t'. split; [apply in_or_app; simpl; auto | now apply Z.eqb_eq].
Qed.

Lemma find_farthest_Some (l : list tag) (x : tag) :
  find_farthest l = Some x -> first_min x l.
Proof.
  unfold find_farthest. destruct l as [| t l]; simpl; [discriminate |].
  apply fold_farthest_Some.
Qed.

Lemma find_farthest_None (l : list tag) : find_farthest l = None <-> l = [].
Proof.
  unfold find_farthest. destruct l as [| t l]; simpl; [tauto |].
  destruct (fold_farthest_is_Some l t) as [x ->]. split; discriminate.
Qed.

#[export] Hint Resolve first_min_In first_min_le : nav.

(** ** Properties of the selection loops *)

(** C21: the farthest scan of lines 96-99 returns nothing exactly on an
    empty frame, and otherwise the first tag of least vertical coordinate:
    every other tag is at least as low in the image, and every tag before
    it strictly lower. *)
Theorem find_farthest_correct (tags : list tag) :
  (find_farthest tags = None <-> tags = []) /\
  (forall x, find_farthest tags = Some x -> first_min x tags).
Proof. split; [apply find_farthest_None | apply find_farthest_Some]. Qed.

(** A frame with a tie for the least vertical coordinate: a turn marker
    first, then a forward tag. *)
Definition sample_frame : list tag :=
  [mk_tag TAG_FORWARD (352, 50)%Q (0, 0, 2)%Q;
   mk_tag TAG_TURN_LEFT (300, 40)%Q (1, 0, 1)%Q;
   mk_tag TAG_FORWARD (100, 40)%Q (2, 0, 0)%Q].

Lemma find_farthest_correct_witness :
  find_farthest sample_frame = Some (mk_tag TAG_TURN_LEFT (300, 40)%Q (1, 0, 1)%Q) /\
  first_min (mk_tag TAG_TURN_LEFT (300, 40)%Q (1, 0, 1)%Q) sample_frame.
Proof.
  split; [reflexivity |]. apply (proj2 (find_farthest_correct sample_frame)). reflexivity.
Defined.

(** C22: the target scan of [STATE_TURN_LEFT] (lines 138-141), which tests
    the id and the position in one condition, is the farthest scan of
    lines 96-99 run on the frame with the turn markers removed. *)
Theorem find_target_farthest_non_turn (tags : list tag) :
  find_target tags = find_farthest (filter (fun t => negb (is_turn_tag t)) tags).
Proof. apply fold_target_filter. Qed.
