(* ===== verification/Power.v ===== *)
(** * The power model: [get_left_right_power_for_tag] (src/main.py 27-34)

    The forward power is [int(rescale(sqrt(x^2+y^2+z^2), 0, 3, 0,
    max_power))]: the distance of the tag, mapped linearly from [0, 3]
    metres to [0, max_power] and truncated.  The turning power is [int()]
    of the horizontal offset [int(frame_width/2) - center[0]] mapped from
    [-frame_width/2, frame_width/2] to [-max_power, max_power].  The left
    wheel gets [forward - turning], the right one [forward + turning].

    The square root is computed exactly by [py_int_sqrt_mul] (PyNum.v);
    PowerReal.v proves it equal to the truncation of the real-valued
    formula.  The [rescale] of the turning power divides by [frame_width],
    so the function raises [ZeroDivisionError] on a zero frame width; this
    is its only error.  The theorems give the closed forms of both powers,
    the boundary values the specification names, the bounds of the powers
    for a tag in view, and the inputs where they leave [-max_power,
    max_power]. *)

From Stdlib Require Import QArith Qabs ZArith Lia Lqa Morphisms.
From S2P Require Import Prelude PyNum Tags.

Open Scope Q_scope.

(** [pow(pose_t[0][0],2) + pow(pose_t[1][0],2) + pow(pose_t[2][0],2)] *)
Definition distance_total (t : tag) : Q :=
  let '(x, y, z) := pose_t t in x * x + y * y + z * z.

(** Line 30: [int(rescale(distance_sqrt, 0, 3, 0, max_power))]; the
    rescale is [0 + (distance_sqrt - 0) * ((max_power - 0) / (3 - 0))],
    that is [distance_sqrt * k] with the factor [k] below. *)
Definition forward_factor (max_power : Z) : Q :=
  (inject_Z max_power - 0) / (3 - 0).

Definition forward_speed (t : tag) (max_power : Z) : Z :=
  py_int_sqrt_mul (distance_total t) (forward_factor max_power).

(** Line 31: [int(rescale(int(frame_width/2) - tag.center[0],
    -1 * (frame_width/2), (frame_width/2),
    -1 * (max_power / 1), (max_power / 1)))] *)
Definition turning_speed (t : tag) (frame_width max_power : Z) : result Z :=
  let half := inject_Z frame_width / 2 in
  let mp := inject_Z max_power / 1 in
  r <- rescale (inject_Z (py_int half) - cx t) (-1 * half) half (-1 * mp) mp ;;
  Ok (py_int r).

(** Lines 27-34. *)
Definition get_left_right_power_for_tag (t : tag) (frame_width max_power : Z)
  : result (Z * Z) :=
  let fwd := forward_speed t max_power in
  turn <- turning_speed t frame_width max_power ;;
  Ok (py_int (inject_Z (fwd - turn)), py_int (inject_Z (fwd + turn))).

(** ** Closed forms *)

Lemma distance_total_nonneg (t : tag) : 0 <= distance_total t.
Proof.
  unfold distance_total. destruct (pose_t t) as [[x y] z].
  nra.
Qed.

Lemma py_int_half (w : Z) : py_int (inject_Z w / 2) = Z.quot w 2.
Proof. unfold py_int. simpl. now rewrite Z.mul_1_r. Qed.

(** The turning power is [int(2 * max_power * (w div 2 - cx) / w)]. *)
Lemma turning_speed_closed (t : tag) (w m : Z) :
  w <> 0%Z ->
  turning_speed t w m =
  Ok (py_int (2 * inject_Z m * (inject_Z (Z.quot w 2) - cx t) / inject_Z w)).
Proof.
  intros Hw. unfold turning_speed. rewrite py_int_half.
  assert (Hw' : ~ inject_Z w == 0).
  { change 0 with (inject_Z 0). rewrite inject_Z_injective. exact Hw. }
  rewrite rescale_Ok
    by (assert (E : inject_Z w / 2 - -1 * (inject_Z w / 2) == inject_Z w) by field;
        rewrite E; exact Hw').
  cbn [bind]. f_equal. apply py_int_Proper. field.
  split; [exact Hw' | intros H; apply Hw'; lra].
Qed.

Lemma turning_speed_zero_width (t : tag) (m : Z) :
  turning_speed t 0 m = Raise ZeroDivisionError.
Proof. reflexivity. Qed.

Lemma forward_factor_eq (m : Z) : forward_factor m == inject_Z m * (1 # 3).
Proof. unfold forward_factor. field. Qed.

Lemma forward_factor_nonneg (m : Z) : (0 <= m)%Z -> 0 <= forward_factor m.
Proof.
  intros Hm. rewrite forward_factor_eq. pose proof (inject_Z_nonneg m Hm). lra.
Qed.

Lemma forward_factor_sign (m : Z) : Qle_bool 0 (forward_factor m) = (0 <=? m)%Z.
Proof.
  destruct (Qleb_spec 0 (forward_factor m)) as [H | H]; case_q; try reflexivity.
  - exfalso. rewrite forward_factor_eq in H.
    assert (A : inject_Z 0 <= inject_Z m) by (change (inject_Z 0) with 0; lra).
    rewrite <- Zle_Qle in A. lia.
  - exfalso. apply H, forward_factor_nonneg. lia.
Qed.

Lemma turning_speed_Ok (t : tag) (w m : Z) :
  w <> 0%Z -> exists turn, turning_speed t w m = Ok turn.
Proof. intros Hw. rewrite turning_speed_closed by exact Hw. eauto. Qed.

(** Bounds of the turning power for a tag inside a frame wider than
    [max_power] (the program's 127 against a camera width of hundreds of
    pixels). *)
Lemma turning_speed_bounds (t : tag) (w m turn : Z) :
  (0 <= m < w)%Z -> 0 <= cx t <= inject_Z w ->
  turning_speed t w m = Ok turn -> (- m <= turn <= m)%Z.
Proof.
  intros Hmw [H0 Hw] E. rewrite turning_speed_closed in E by lia. inv_ok. subst turn.
  pose proof (Z.mul_quot_le w 2 ltac:(lia) ltac:(lia)) as [_ Q1].
  assert (Q2 : (w - 1 <= 2 * Z.quot w 2)%Z)
    by (pose proof (Z.quot_rem w 2 ltac:(lia));
        pose proof (Z.rem_bound_pos w 2 ltac:(lia) ltac:(lia)); lia).
  apply py_int_range; [lia |].
  assert (Wp : 0 < inject_Z w) by (apply inject_Z_pos; lia).
  assert (Mw : inject_Z m + 1 <= inject_Z w)
    by (change 1 with (inject_Z 1); rewrite <- inject_Z_plus, <- Zle_Qle; lia).
  assert (M0 : 0 <= inject_Z m) by (apply inject_Z_nonneg; lia).
  rewrite Zle_Qle in Q1, Q2. push_inject_Z. change (inject_Z 2) with 2 in *. split.
  - apply Qlt_shift_div_l; [exact Wp | nra].
  - apply Qle_shift_div_r; [exact Wp | nra].
Qed.

Lemma forward_at_nine (m : Z) : py_int_sqrt_mul 9 (forward_factor m) = m.
Proof.
  rewrite (py_int_sqrt_mul_exact _ _ (Z.abs m)), forward_factor_sign.
  - destruct (Z.leb_spec 0 m); lia.
  - lia.
  - replace (Z.abs m * Z.abs m)%Z with (m * m)%Z by nia.
    rewrite forward_factor_eq, inject_Z_mult. ring.
Qed.

Lemma forward_speed_bounds (t : tag) (m : Z) :
  (0 <= m)%Z -> distance_total t <= 9 -> (0 <= forward_speed t m <= m)%Z.
Proof.
  intros Hm HD. unfold forward_speed.
  pose proof (distance_total_nonneg t). pose proof (forward_factor_nonneg m Hm).
  split; [now apply py_int_sqrt_mul_nonneg |].
  transitivity (py_int_sqrt_mul 9 (forward_factor m)).
  - now apply py_int_sqrt_mul_mono.
  - rewrite forward_at_nine. lia.
Qed.

Lemma quot_even (w : Z) : Z.even w = true -> inject_Z (Z.quot w 2) == inject_Z w / 2.
Proof.
  intros H. apply Z.even_spec in H as [k ->].
  rewrite Z.mul_comm, Z.quot_mul by lia. rewrite inject_Z_mult. field.
Qed.

Lemma quot_odd (w : Z) :
  (0 < w)%Z -> Z.odd w = true -> inject_Z (Z.quot w 2) == inject_Z w / 2 - (1 # 2).
Proof.
  intros Hw H. apply Z.odd_spec in H as [k ->].
  assert (E : Z.quot (2 * k + 1) 2 = k).
  { rewrite Z.quot_div_nonneg by lia.
    pose proof (Z.div_mod (2 * k + 1) 2 ltac:(lia)).
    pose proof (Z.mod_pos_bound (2 * k + 1) 2 ltac:(lia)). lia. }
  rewrite E. push_inject_Z. change (inject_Z 2) with 2. field.
Qed.

Lemma power_for_tag_Ok (t : tag) (w m : Z) :
  w <> 0%Z -> exists l r, get_left_right_power_for_tag t w m = Ok (l, r).
Proof.
  intros Hw. unfold get_left_right_power_for_tag.
  destruct (turning_speed_Ok t w m Hw) as [turn ->]. simpl. eauto.
Qed.

(** The powers of a tag in view lie in [-max_power, 2 * max_power]. *)
Lemma power_for_tag_range (t : tag) (w m l r : Z) :
  (0 <= m < w)%Z -> 0 <= cx t <= inject_Z w -> distance_total t <= 9 ->
  get_left_right_power_for_tag t w m = Ok (l, r) ->
  (- m <= l <= 2 * m)%Z /\ (- m <= r <= 2 * m)%Z.
Proof.
  intros Hmw Hc HD. unfold get_left_right_power_for_tag.
  destruct (turning_speed_Ok t w m ltac:(lia)) as [turn E].
  pose proof (turning_speed_bounds t w m turn Hmw Hc E).
  pose proof (forward_speed_bounds t m ltac:(lia) HD).
  rewrite E. cbn [bind]. rewrite !py_int_inject_Z. intros [= <- <-]. lia.
Qed.

Lemma power_for_tag_Raise_inv (t : tag) (w m : Z) (e : py_exn) :
  get_left_right_power_for_tag t w m = Raise e -> w = 0%Z /\ e = ZeroDivisionError.
Proof.
  intros E. destruct (Z.eq_dec w 0) as [-> | Hw].
  - unfold get_left_right_power_for_tag in E. rewrite turning_speed_zero_width in E.
    cbn [bind] in E.
    inv_ok. auto.
  - destruct (power_for_tag_Ok t w m Hw) as (l & r & E'). congruence.
Qed.

(** Sample detections used by the witnesses below. *)
Definition centre_tag : tag := mk_tag TAG_FORWARD (320, 100) (0, 0, 2).
Definition near_tag : tag := mk_tag TAG_FORWARD (320, 100) (1, 0, 0).
Definition touching_tag : tag := mk_tag TAG_FORWARD (320, 100) (0, 0, 0).
Definition three_metre_tag : tag := mk_tag TAG_FORWARD (320, 100) (0, 3, 0).
Definition odd_centre_tag : tag := mk_tag TAG_FORWARD (3 # 2, 1) (0, 0, 2).
(** A tag at 3 metres on the left edge of a 640-pixel frame. *)
Definition edge_tag : tag := mk_tag TAG_FORWARD (0, 240) (3, 0, 0).

(** ** Properties of the power model *)

(** C14: [get_left_right_power_for_tag] raises exactly when the frame width
    is zero, and then [ZeroDivisionError] (the division inside [rescale]). *)
Theorem power_for_tag_Raise (t : tag) (w m : Z) (e : py_exn) :
  get_left_right_power_for_tag t w m = Raise e <-> w = 0%Z /\ e = ZeroDivisionError.
Proof.
  split; [apply power_for_tag_Raise_inv |]. intros [-> ->].
  unfold get_left_right_power_for_tag. now rewrite turning_speed_zero_width.
Qed.

Lemma power_for_tag_Raise_witness :
  get_left_right_power_for_tag (edge_tag) 0 127 =
  Raise ZeroDivisionError.
Proof. apply (proj2 (power_for_tag_Raise _ 0 127 ZeroDivisionError)). split; reflexivity. Defined.

(** C19: a tag seen at distance 0 gets forward power 0 and one seen at 3
    metres ([distance_total = 9]) gets exactly [max_power]. *)
Theorem forward_speed_boundaries (t : tag) (m : Z) :
  (distance_total t == 0 -> forward_speed t m = 0%Z) /\
  (distance_total t == 9 -> forward_speed t m = m).
Proof.
  unfold forward_speed. split; intros H; rewrite H; [| apply forward_at_nine].
  rewrite (py_int_sqrt_mul_exact _ _ 0); [| lia | change (inject_Z (0 * 0)) with 0; ring].
  now destruct (Qle_bool 0 (forward_factor m)).
Qed.

Lemma forward_speed_boundaries_witness :
  distance_total (touching_tag) == 0 /\
  forward_speed (touching_tag) 127 = 0%Z /\
  distance_total (three_metre_tag) == 9 /\
  forward_speed (three_metre_tag) 127 = 127%Z.
Proof.
  split; [reflexivity |]. split; [apply (proj1 (forward_speed_boundaries _ 127)); reflexivity |].
  split; [reflexivity |]. apply (proj2 (forward_speed_boundaries _ 127)). reflexivity.
Defined.

(** C20: with a non-negative [max_power], the forward power never decreases
    when the tag is farther away. *)
Theorem forward_speed_mono (t1 t2 : tag) (m : Z) :
  (0 <= m)%Z -> distance_total t1 <= distance_total t2 ->
  (forward_speed t1 m <= forward_speed t2 m)%Z.
Proof.
  intros Hm H. apply py_int_sqrt_mul_mono; auto using distance_total_nonneg.
  now apply forward_factor_nonneg.
Qed.

Lemma forward_speed_mono_witness :
  (0 <= 127)%Z /\
  distance_total (near_tag) <=
  distance_total (centre_tag) /\
  (forward_speed (near_tag) 127 <=
   forward_speed (centre_tag) 127)%Z.
Proof.
  split; [lia |]. split; [apply Qle_bool_imp_le; reflexivity |].
  apply forward_speed_mono; [lia | apply Qle_bool_imp_le; reflexivity].
Defined.

(** C17: a tag centred exactly at [frame_width/2] in a frame of even width
    gets no turning power: both wheels get the forward power. *)
Theorem power_for_tag_centered_even (t : tag) (w m : Z) :
  w <> 0%Z -> Z.even w = true -> cx t == inject_Z w / 2 ->
  get_left_right_power_for_tag t w m = Ok (forward_speed t m, forward_speed t m).
Proof.
  intros Hw He Hc. unfold get_left_right_power_for_tag.
  rewrite turning_speed_closed by exact Hw. cbn [bind].
  assert (T : py_int (2 * inject_Z m * (inject_Z (Z.quot w 2) - cx t) / inject_Z w) = 0%Z).
  { apply (py_int_Proper _ 0). rewrite quot_even, Hc by exact He. field.
    intros E. apply Hw, inject_Z_injective, E. }
  rewrite T, !py_int_inject_Z, Z.sub_0_r, Z.add_0_r.
  reflexivity.
Qed.

Lemma power_for_tag_centered_even_witness :
  640%Z <> 0%Z /\ Z.even 640 = true /\
  cx (centre_tag) == inject_Z 640 / 2 /\
  get_left_right_power_for_tag (centre_tag) 640 127 =
  Ok (forward_speed (centre_tag) 127,
      forward_speed (centre_tag) 127).
Proof.
  split; [discriminate |]. split; [reflexivity |]. split; [reflexivity |].
  apply power_for_tag_centered_even; [discriminate | reflexivity | reflexivity].
Defined.

(** C18: in a frame of odd width, [int(frame_width/2)] drops the half pixel
    and a tag centred exactly at [frame_width/2] gets the turning power
    [-(max_power // frame_width)] (truncated), not 0. *)
Theorem turning_centered_odd (t : tag) (w m : Z) :
  (0 < w)%Z -> Z.odd w = true -> cx t == inject_Z w / 2 ->
  turning_speed t w m = Ok (- Z.quot m w)%Z.
Proof.
  intros Hw Ho Hc. rewrite turning_speed_closed by lia. f_equal.
  assert (Wp := inject_Z_pos w Hw).
  rewrite (py_int_Proper _ (- (inject_Z m / inject_Z w))).
  - now rewrite py_int_opp, py_int_div_pos.
  - rewrite quot_odd, Hc by assumption. field. intros E. rewrite E in Wp. discriminate.
Qed.

Lemma turning_centered_odd_witness :
  (0 < 3)%Z /\ Z.odd 3 = true /\ cx (odd_centre_tag) == inject_Z 3 / 2 /\
  turning_speed (odd_centre_tag) 3 127 = Ok (-42)%Z.
Proof.
  split; [lia |]. split; [reflexivity |]. split; [reflexivity |].
  apply (turning_centered_odd _ 3 127); [lia | reflexivity | reflexivity].
Defined.

(** C15: for a tag in view (centre inside the frame, at most 3 metres away)
    and a frame wider than [max_power >= 0], both wheel powers lie in
    [-max_power, 2 * max_power]. *)
Theorem power_for_tag_bounds (t : tag) (w m : Z) :
  (0 <= m < w)%Z -> 0 <= cx t <= inject_Z w -> distance_total t <= 9 ->
  exists l r, get_left_right_power_for_tag t w m = Ok (l, r) /\
    (- m <= l <= 2 * m)%Z /\ (- m <= r <= 2 * m)%Z.
Proof.
  intros Hmw Hc HD. destruct (power_for_tag_Ok t w m ltac:(lia)) as (l & r & E).
  exists l, r. split; [exact E |]. exact (power_for_tag_range t w m l r Hmw Hc HD E).
Qed.

Lemma power_for_tag_bounds_witness :
  (0 <= 127 < 640)%Z /\ 0 <= cx (edge_tag) <= inject_Z 640 /\
  distance_total (edge_tag) <= 9 /\
  exists l r, get_left_right_power_for_tag (edge_tag) 640 127 = Ok (l, r) /\
    (- 127 <= l <= 2 * 127)%Z /\ (- 127 <= r <= 2 * 127)%Z.
Proof.
  split; [lia |]. split; [split; apply Qle_bool_imp_le; reflexivity |].
  split; [apply Qle_bool_imp_le; reflexivity |].
  apply power_for_tag_bounds; [lia | split; apply Qle_bool_imp_le; reflexivity |
                               apply Qle_bool_imp_le; reflexivity].
Defined.

(** C16: the powers are not clamped to [-max_power, max_power], and the
    bound [2 * max_power] of C15 is reached: for every even frame width and
    every [max_power >= 0], a tag on the left edge of the frame at 3 metres
    gets the powers [(0, 2 * max_power)]. *)
Theorem power_exceeds_max_speed (t : tag) (w m : Z) :
  (0 < w)%Z -> Z.even w = true -> (0 <= m)%Z -> cx t == 0 -> distance_total t == 9 ->
  get_left_right_power_for_tag t w m = Ok (0%Z, (2 * m)%Z).
Proof.
  intros Hw He Hm Hc HD. unfold get_left_right_power_for_tag.
  rewrite turning_speed_closed by lia. cbn [bind].
  assert (F : forward_speed t m = m) by (unfold forward_speed; rewrite HD; apply forward_at_nine).
  assert (T : py_int (2 * inject_Z m * (inject_Z (Z.quot w 2) - cx t) / inject_Z w) = m).
  { rewrite <- (py_int_inject_Z m) at 2. apply py_int_Proper. rewrite quot_even, Hc by exact He.
    field. intros E. apply (inject_Z_injective w 0) in E. lia. }
  rewrite F, T, !py_int_inject_Z, Z.sub_diag. now replace (m + m)%Z with (2 * m)%Z by lia.
Qed.

Lemma power_exceeds_max_speed_witness :
  (0 < 640)%Z /\ Z.even 640 = true /\ (0 <= 127)%Z /\ cx edge_tag == 0 /\
  distance_total edge_tag == 9 /\
  get_left_right_power_for_tag edge_tag 640 127 = Ok (0%Z, 254%Z).
Proof.
  split; [lia |]. split; [reflexivity |]. split; [lia |]. split; [reflexivity |].
  split; [reflexivity |].
  exact (power_exceeds_max_speed edge_tag 640 127 ltac:(lia) eq_refl ltac:(lia) eq_refl eq_refl).
Defined.
