(* ===== verification/PowerReal.v ===== *)
(** * The forward power against the real-valued formula (src/main.py 23-30)

    Power.v computes [int(rescale(math.sqrt(d), 0, 3, 0, max_power))]
    exactly on rationals with an integer square root.  This file states the
    formula of the source over the reals of the Standard Library, with the
    real square root, the real [rescale] of lines 23-24 and Python's
    truncation toward zero, and proves that the executable [forward_speed]
    computes it for every tag and every [max_power]. *)

From Stdlib Require Import Reals Lra QArith Qreals ZArith Lia.
From S2P Require Import Prelude PyNum Tags Power.

Open Scope R_scope.

(** Lines 23-24 over the reals. *)
Definition rescale_R (val in_min in_max out_min out_max : R) : R :=
  out_min + (val - in_min) * ((out_max - out_min) / (in_max - in_min)).

(** Python's [int()] on a float: truncation toward zero. *)
Definition trunc_R (r : R) : Z :=
  if Rle_dec 0 r then Int_part r else (- Int_part (- r))%Z.

(** Lines 28-30 over the reals. *)
Definition forward_speed_R (t : tag) (max_power : Z) : Z :=
  trunc_R (rescale_R (sqrt (Q2R (distance_total t))) 0 3 0 (IZR max_power)).

Lemma Q2R_inject_Z (z : Z) : Q2R (inject_Z z) = IZR z.
Proof. unfold Q2R. simpl. rewrite Rinv_1. ring. Qed.

(** [isqrt_Q] is the integer part of the real square root. *)
Lemma isqrt_Q_Int_part (q : Q) : (0 <= q)%Q -> Int_part (sqrt (Q2R q)) = isqrt_Q q.
Proof.
  intros Hq. destruct (isqrt_Q_spec q Hq) as (Hn & H1 & H2).
  set (n := isqrt_Q q) in *.
  apply Qle_Rle in H1. apply Qlt_Rlt in H2. apply Qle_Rle in Hq.
  rewrite Q2R_inject_Z, mult_IZR in H1. rewrite Q2R_inject_Z, mult_IZR, plus_IZR in H2.
  rewrite RMicromega.Q2R_0 in Hq.
  assert (N0 : 0 <= IZR n) by (apply IZR_le; exact Hn).
  symmetry. apply Int_part_spec. split.
  - assert (sqrt (Q2R q) < IZR n + 1); [| lra].
    rewrite <- (sqrt_square (IZR n + 1)) by lra. apply sqrt_lt_1_alt. lra.
  - rewrite <- (sqrt_square (IZR n)) by exact N0. now apply sqrt_le_1_alt.
Qed.

Lemma Q2R_forward_factor (m : Z) : Q2R (forward_factor m) = IZR m / 3.
Proof.
  rewrite (Qeq_eqR _ _ (forward_factor_eq m)), Q2R_mult, Q2R_inject_Z.
  unfold Q2R. simpl. field.
Qed.

(** [sqrt (d * k * k) = sqrt d * |k|]. *)
Lemma sqrt_scaled (d k : Q) :
  (0 <= d)%Q -> sqrt (Q2R (d * k * k)) = sqrt (Q2R d) * Rabs (Q2R k).
Proof.
  intros Hd. apply Qle_Rle in Hd. rewrite RMicromega.Q2R_0 in Hd.
  rewrite !Q2R_mult, Rmult_assoc, sqrt_mult by (try nra).
  now rewrite <- sqrt_Rsqr_abs.
Qed.

(** The exact integer computation of the forward power equals Python's
    [int()] of the real formula [0 + (sqrt(d) - 0) * ((max_power - 0) /
    (3 - 0))] of lines 28-30, for every tag and every [max_power]. *)
Lemma forward_speed_exact (t : tag) (m : Z) : forward_speed t m = forward_speed_R t m.
Proof.
  unfold forward_speed, py_int_sqrt_mul, forward_speed_R, trunc_R, rescale_R.
  rewrite forward_factor_sign. pose proof (distance_total_nonneg t) as Hd.
  set (D := distance_total t) in *. set (k := forward_factor m).
  pose proof (isqrt_Q_Int_part (D * k * k)) as HI.
  rewrite sqrt_scaled in HI by exact Hd.
  assert (HD : 0 <= sqrt (Q2R D)) by apply sqrt_pos.
  assert (Hk : Q2R k = IZR m / 3) by apply Q2R_forward_factor.
  assert (E : 0 + (sqrt (Q2R D) - 0) * ((IZR m - 0) / (3 - 0)) = sqrt (Q2R D) * Q2R k)
    by (rewrite Hk; field).
  rewrite E. clear E.
  assert (Hnn : (0 <= D * k * k)%Q) by (apply Qle_Rle in Hd; apply Rle_Qle;
    rewrite !Q2R_mult, RMicromega.Q2R_0 in *; nra).
  specialize (HI Hnn). destruct (Z.leb_spec 0 m) as [Hm | Hm].
  - assert (K0 : 0 <= Q2R k) by (rewrite Hk; apply IZR_le in Hm; lra).
    rewrite Rabs_pos_eq in HI by exact K0.
    destruct (Rle_dec 0 (sqrt (Q2R D) * Q2R k)) as [_ | C]; [now rewrite <- HI | nra].
  - assert (K0 : Q2R k < 0) by (rewrite Hk; apply IZR_lt in Hm; lra).
    rewrite Rabs_left in HI by exact K0.
    destruct (Rle_dec 0 (sqrt (Q2R D) * Q2R k)) as [C | C].
    + assert (Z0 : sqrt (Q2R D) * Q2R k = 0) by nra.
      assert (Z1 : sqrt (Q2R D) * - Q2R k = 0) by lra.
      assert (I0 : Int_part 0 = 0%Z) by (symmetry; apply Int_part_spec; simpl; lra).
      rewrite Z0. rewrite Z1, I0 in HI. now rewrite I0, <- HI.
    + rewrite <- HI. f_equal. f_equal. ring.
Qed.
