(* ===== verification/Controller.v ===== *)
(** * The behaviour state machine: one iteration of [main]'s loop

    The variables [main] keeps across iterations (src/main.py 49-54) are the
    record [memory]; the camera's frame width (line 46) and [max_speed]
    (line 51) are the [config].  One iteration, from [now = millis()]
    (line 70) to the snap to zero (lines 160-163), is [tick]:
    - [state_machine] (lines 105-150) dispatches on the state to
      [go_farthest], [go_turn] or [turn_left];
    - [bookkeeping] (lines 152-156) counts the frames without tags and
      records the time a tag was last seen;
    - [snap] (lines 160-163) sets a speed of absolute value below 0.1 to 0.
    Speeds are exact rationals: they are integers from the power model or
    their halvings, which doubles represent exactly.  The literal [0.1] is
    the rational [1/10]; the speeds compared with it are dyadic rationals
    of small denominator, none of which lies between [1/10] and the double
    nearest to it.

    The theorems: the scenarios of the specification (entering
    [STATE_GO_TURN], the 3000 ms timeout, centring in [STATE_TURN_LEFT]),
    the decay of the speeds to exactly zero when no tag is seen, the
    invariants of the reachable memories (rule induction on [reachable]),
    the refinement of the abstract behaviour machine, the trace on which
    the robot never leaves [STATE_GO_TURN], and the equivalence of
    memories whose speeds are the same numbers ([mem_equiv], with a
    [Proper] instance for each operation). *)

From Stdlib Require Import QArith Qabs ZArith List Lia Lqa Bool Morphisms.
From Stdlib Require Classes.EquivDec.
From S2P Require Import Prelude PyNum Tags Power.
Import ListNotations.

Open Scope Q_scope.

(** Lines 11-13. *)
Inductive nav_state : Type :=
| STATE_GO_FARTHEST
| STATE_GO_TURN
| STATE_TURN_LEFT.

Scheme Equality for nav_state.

#[export] Instance nav_state_EqDec : EquivDec.EqDec nav_state eq := nav_state_eq_dec.

Record memory : Type := mk_memory {
  state : nav_state;
  left_speed : Q;
  right_speed : Q;
  tag_missing_frames : Z;
  tag_last_seen : Z
}.

Record config : Type := mk_config {
  width : Z;
  max_speed : Z
}.

(** Lines 49-54. *)
Definition init_memory : memory :=
  {| state := STATE_GO_FARTHEST; left_speed := 0; right_speed := 0;
     tag_missing_frames := 0; tag_last_seen := 0 |}.

(** The program's configuration for a camera of width [w]: [max_speed = 127]. *)
Definition program_config (w : Z) : config := {| width := w; max_speed := 127 |}.

Definition set_state (mem : memory) (s : nav_state) : memory :=
  {| state := s; left_speed := left_speed mem; right_speed := right_speed mem;
     tag_missing_frames := tag_missing_frames mem; tag_last_seen := tag_last_seen mem |}.

Definition set_speeds (mem : memory) (l r : Q) : memory :=
  {| state := state mem; left_speed := l; right_speed := r;
     tag_missing_frames := tag_missing_frames mem; tag_last_seen := tag_last_seen mem |}.

(** [left_speed = left_speed / 2; right_speed = right_speed / 2] *)
Definition halve_speeds (mem : memory) : memory :=
  set_speeds mem (left_speed mem / 2) (right_speed mem / 2).

(** [left_speed, right_speed = get_left_right_power_for_tag(tag, width, max_speed)] *)
Definition drive_to (cfg : config) (t : tag) (mem : memory) : result memory :=
  '(l, r) <- get_left_right_power_for_tag t (width cfg) (max_speed cfg) ;;
  Ok (set_speeds mem (inject_Z l) (inject_Z r)).

(** ** Lines 105-117: [STATE_GO_FARTHEST] *)
Definition go_farthest (cfg : config) (tags : list tag) (mem : memory) : result memory :=
  mem1 <- match find_farthest tags with
          | Some t => drive_to cfg t mem
          | None => Ok (halve_speeds mem)
          end ;;
  Ok (match find_turn_tag tags with
      | Some _ => set_state mem1 STATE_GO_TURN
      | None => mem1
      end).

(** ** Lines 118-131: [STATE_GO_TURN] *)
Definition go_turn (cfg : config) (tags : list tag) (now : Z) (mem : memory)
  : result memory :=
  let turn_tag := find_turn_tag tags in
  if (now - tag_last_seen mem >? 3000)%Z then Ok (set_state mem STATE_TURN_LEFT)
  else match turn_tag with
       | Some t => drive_to cfg t mem
       | None => Ok (halve_speeds mem)
       end.

(** ** Lines 132-150: [STATE_TURN_LEFT] *)
Definition turn_left (cfg : config) (tags : list tag) (mem : memory) : result memory :=
  let turning_speed := 30 in
  let mem1 := set_speeds mem (-1 * turning_speed) turning_speed in
  match find_target tags with
  | Some target_tag =>
      let center_error_percentage := 15 in
      let half := inject_Z (width cfg) / 2 in
      let distance_from_center := cx target_tag - half in
      distance_percentage <- rescale distance_from_center (-1 * half) half (-100) 100 ;;
      if Qltb (Qabs distance_percentage) center_error_percentage
      then Ok (set_state (set_speeds mem1 0 0) STATE_GO_FARTHEST)
      else Ok mem1
  | None => Ok mem1
  end.

(** ** Lines 105-150: the dispatch on the state *)
Definition state_machine (cfg : config) (tags : list tag) (now : Z) (mem : memory)
  : result memory :=
  match state mem with
  | STATE_GO_FARTHEST => go_farthest cfg tags mem
  | STATE_GO_TURN => go_turn cfg tags now mem
  | STATE_TURN_LEFT => turn_left cfg tags mem
  end.

(** ** Lines 152-156 *)
Definition bookkeeping (tags : list tag) (now : Z) (mem : memory) : memory :=
  match tags with
  | [] => {| state := state mem; left_speed := left_speed mem;
             right_speed := right_speed mem;
             tag_missing_frames := tag_missing_frames mem + 1;
             tag_last_seen := tag_last_seen mem |}
  | _ :: _ => {| state := state mem; left_speed := left_speed mem;
                 right_speed := right_speed mem;
                 tag_missing_frames := 0; tag_last_seen := now |}
  end.

(** ** Lines 160-163: [if abs(speed) < 0.1: speed = 0] *)
Definition snap_speed (v : Q) : Q := if Qltb (Qabs v) (1 # 10) then 0 else v.

Definition snap (mem : memory) : memory :=
  set_speeds mem (snap_speed (left_speed mem)) (snap_speed (right_speed mem)).

(** ** One iteration of the loop (lines 70-163) *)
Definition tick (cfg : config) (tags : list tag) (now : Z) (mem : memory)
  : result memory :=
  mem1 <- state_machine cfg tags now mem ;;
  Ok (snap (bookkeeping tags now mem1)).

(** A sequence of iterations, one per frame [(tags, now)]. *)
Fixpoint run_ticks (cfg : config) (frames : list (list tag * Z)) (mem : memory)
  : result memory :=
  match frames with
  | [] => Ok mem
  | (tags, now) :: rest => mem1 <- tick cfg tags now mem ;; run_ticks cfg rest mem1
  end.

(** ** Lemmas on the snap and the updates *)

#[export] Instance snap_speed_Proper : Proper (Qeq ==> Qeq) snap_speed.
Proof.
  intros v v' E. unfold snap_speed, Qltb.
  rewrite (Qleb_comp (1 # 10) (1 # 10) (Qeq_refl _) _ _ (Qabs_wd _ _ E)).
  destruct (Qle_bool (1 # 10) (Qabs v')); [exact E | reflexivity].
Qed.

Lemma snap_speed_cases (v : Q) :
  (snap_speed v = 0 /\ Qabs v < 1 # 10) \/ (snap_speed v = v /\ 1 # 10 <= Qabs v).
Proof.
  unfold snap_speed. case_q; [left | right]; split; auto. now apply Qnot_lt_le.
Qed.

Lemma snap_speed_abs_le (v : Q) : Qabs (snap_speed v) <= Qabs v.
Proof.
  destruct (snap_speed_cases v) as [[-> _] | [-> _]]; [apply Qabs_nonneg | apply Qle_refl].
Qed.

Lemma snap_speed_zero : snap_speed 0 = 0.
Proof. reflexivity. Qed.

(** Integers are never snapped: [abs(n) < 0.1] only for [n = 0]. *)
Lemma snap_speed_inject_Z (z : Z) : snap_speed (inject_Z z) == inject_Z z.
Proof.
  destruct (snap_speed_cases (inject_Z z)) as [[-> H] | [-> _]]; [| reflexivity].
  rewrite Q_inject_Z_abs in H.
  assert (A : inject_Z (Z.abs z) < inject_Z 1) by (eapply Qlt_trans; [exact H | reflexivity]).
  rewrite <- Zlt_Qlt in A. assert (z = 0%Z) as -> by lia. reflexivity.
Qed.

(** One iteration in [STATE_GO_FARTHEST] on a frame without tags. *)
Lemma tick_no_tags_go_farthest (cfg : config) (now : Z) (mem : memory) :
  state mem = STATE_GO_FARTHEST ->
  tick cfg [] now mem =
  Ok {| state := STATE_GO_FARTHEST;
        left_speed := snap_speed (left_speed mem / 2);
        right_speed := snap_speed (right_speed mem / 2);
        tag_missing_frames := tag_missing_frames mem + 1;
        tag_last_seen := tag_last_seen mem |}.
Proof. destruct mem as [s l r k ls]. simpl. intros ->. reflexivity. Qed.

(** The speed after [n] iterations without tags: halve, then snap. *)
Definition decay (n : nat) (v : Q) : Q := Nat.iter n (fun x => snap_speed (x / 2)) v.

Lemma decay_S (n : nat) (v : Q) : decay (S n) v = snap_speed (decay n v / 2).
Proof. reflexivity. Qed.

Lemma decay_succ_r (n : nat) (v : Q) : decay n (snap_speed (v / 2)) = decay (S n) v.
Proof. unfold decay. now rewrite Nat.iter_succ_r. Qed.

Lemma run_no_tags_go_farthest (cfg : config) (nows : list Z) (mem : memory) :
  state mem = STATE_GO_FARTHEST ->
  run_ticks cfg (map (fun now => ([], now)) nows) mem =
  Ok {| state := STATE_GO_FARTHEST;
        left_speed := decay (length nows) (left_speed mem);
        right_speed := decay (length nows) (right_speed mem);
        tag_missing_frames := tag_missing_frames mem + Z.of_nat (length nows);
        tag_last_seen := tag_last_seen mem |}.
Proof.
  revert mem. induction nows as [| now nows IH]; intros mem H; simpl.
  - destruct mem; simpl in *; subst. now rewrite Z.add_0_r.
  - rewrite tick_no_tags_go_farthest by exact H. cbn [bind].
    rewrite IH by reflexivity. simpl. rewrite !decay_succ_r.
    do 2 f_equal. lia.
Qed.

(** After [n] halvings the speed is 0, or it is the start value divided by
    [2^n] and, after at least one iteration, still at least 0.1 in
    absolute value. *)
Lemma decay_spec (n : nat) (v : Q) :
  decay n v == 0 \/
  (decay n v * inject_Z (2 ^ Z.of_nat n) == v /\ ((n > 0)%nat -> 1 # 10 <= Qabs (decay n v))).
Proof.
  induction n as [| n [IH | [IH1 IH2]]].
  - right. split; [simpl; ring | lia].
  - left. rewrite decay_S, IH. reflexivity.
  - rewrite decay_S. destruct (snap_speed_cases (decay n v / 2)) as [[-> _] | [-> Hge]].
    + left. reflexivity.
    + right. split; [| intros _; exact Hge].
      rewrite Nat2Z.inj_succ, Z.pow_succ_r, inject_Z_mult by lia.
      transitivity (decay n v * inject_Z (2 ^ Z.of_nat n)); [| exact IH1].
      change (inject_Z 2) with 2. field.
Qed.

Lemma decay_stops (n : nat) (v : Q) :
  (n > 0)%nat -> Qabs v < (1 # 10) * inject_Z (2 ^ Z.of_nat n) -> decay n v == 0.
Proof.
  intros Hn Hv. destruct (decay_spec n v) as [H | [H1 H2]]; [exact H |].
  exfalso. specialize (H2 Hn).
  assert (P : 0 < inject_Z (2 ^ Z.of_nat n)) by (apply inject_Z_pos, Z.pow_pos_nonneg; lia).
  rewrite <- H1, Qabs_Qmult, (Qabs_pos (inject_Z _)) in Hv by (apply Qlt_le_weak, P).
  nra.
Qed.

(** Halving then snapping never moves a speed away from zero or across it. *)
Lemma snap_half_decays (v : Q) :
  Qabs (snap_speed (v / 2)) <= Qabs v / 2 /\ 0 <= snap_speed (v / 2) * v.
Proof.
  pose proof (Qabs_nonneg v).
  destruct (snap_speed_cases (v / 2)) as [[-> _] | [-> _]].
  - change (Qabs 0) with 0. split; [apply Qle_shift_div_l; [reflexivity | lra] | rewrite Qmult_0_l; apply Qle_refl].
  - split; [rewrite Qabs_half; apply Qle_refl |].
    setoid_replace (v / 2 * v) with (v * v / 2) by field.
    apply Qle_shift_div_l; [reflexivity |]. pose proof (Qmult_self_nonneg v). lra.
Qed.

(** [abs(x - frame_width/2) < 15% of frame_width/2]: the target is centred. *)
Definition centered (w : Z) (t : tag) : bool :=
  Qltb (Qabs (cx t - inject_Z w / 2)) ((3 # 20) * (inject_Z w / 2)).

(** For a positive width, the percentage test of lines 145-147 is the
    centring test. *)
Lemma turn_left_percentage (w : Z) (t : tag) :
  (0 < w)%Z ->
  exists p, rescale (cx t - inject_Z w / 2) (-1 * (inject_Z w / 2)) (inject_Z w / 2)
                    (-100) 100 = Ok p /\ Qltb (Qabs p) 15 = centered w t.
Proof.
  intros Hw. set (h := inject_Z w / 2).
  assert (Hh : 0 < h) by (unfold h; pose proof (inject_Z_pos w Hw);
                          apply Qlt_shift_div_l; [reflexivity | lra]).
  rewrite rescale_Ok by (intros E; lra).
  eexists; split; [reflexivity |]. unfold centered; fold h.
  set (k := 100 / h). assert (Hk : k * h == 100) by (unfold k; field; intros E; lra).
  assert (Kp : 0 < k) by nra.
  assert (E : -100 + (cx t - h - -1 * h) * ((100 - -100) / (h - -1 * h)) == (cx t - h) * k)
    by (unfold k; field; split; intros E'; lra).
  rewrite E, Qabs_Qmult, (Qabs_pos k) by lra.
  pose proof (Qabs_nonneg (cx t - h)).
  destruct (Qltb_spec (Qabs (cx t - h) * k) 15), (Qltb_spec (Qabs (cx t - h)) ((3 # 20) * h));
    try reflexivity; exfalso; nra.
Qed.

(** ** Projections of the updates *)

Lemma state_snap (mem : memory) : state (snap mem) = state mem.
Proof. reflexivity. Qed.

Lemma state_bookkeeping (tags : list tag) (now : Z) (mem : memory) :
  state (bookkeeping tags now mem) = state mem.
Proof. now destruct tags. Qed.

Lemma speeds_bookkeeping (tags : list tag) (now : Z) (mem : memory) :
  left_speed (bookkeeping tags now mem) = left_speed mem /\
  right_speed (bookkeeping tags now mem) = right_speed mem.
Proof. now destruct tags. Qed.

Lemma tick_Ok (cfg : config) (tags : list tag) (now : Z) (mem mem1 : memory) :
  state_machine cfg tags now mem = Ok mem1 ->
  tick cfg tags now mem = Ok (snap (bookkeeping tags now mem1)).
Proof. unfold tick. intros ->. reflexivity. Qed.

Lemma drive_to_Ok (cfg : config) (t : tag) (mem : memory) :
  width cfg <> 0%Z ->
  exists l r, get_left_right_power_for_tag t (width cfg) (max_speed cfg) = Ok (l, r) /\
    drive_to cfg t mem = Ok (set_speeds mem (inject_Z l) (inject_Z r)).
Proof.
  intros Hw. unfold drive_to.
  destruct (power_for_tag_Ok t (width cfg) (max_speed cfg) Hw) as (l & r & ->). eauto.
Qed.

Lemma state_machine_go_farthest (cfg : config) (tags : list tag) (now : Z) (mem : memory) :
  state mem = STATE_GO_FARTHEST -> width cfg <> 0%Z ->
  exists mem1, state_machine cfg tags now mem = Ok mem1 /\
    state mem1 = match find_turn_tag tags with
                 | Some _ => STATE_GO_TURN
                 | None => STATE_GO_FARTHEST
                 end.
Proof.
  intros Hs Hw. unfold state_machine. rewrite Hs. unfold go_farthest.
  destruct (find_farthest tags) as [t |].
  - destruct (drive_to_Ok cfg t mem Hw) as (l & r & _ & ->). cbn [bind].
    destruct (find_turn_tag tags); eexists; split; [reflexivity | reflexivity | reflexivity | exact Hs].
  - cbn [bind]. destruct (find_turn_tag tags); eexists; split;
      [reflexivity | reflexivity | reflexivity | exact Hs].
Qed.

(** The result of [STATE_TURN_LEFT] for a positive frame width. *)
Lemma turn_left_result (cfg : config) (tags : list tag) (mem : memory) :
  (0 < width cfg)%Z ->
  turn_left cfg tags mem =
  Ok (match find_target tags with
      | Some t =>
          if centered (width cfg) t
          then set_state (set_speeds (set_speeds mem (-1 * 30) 30) 0 0) STATE_GO_FARTHEST
          else set_speeds mem (-1 * 30) 30
      | None => set_speeds mem (-1 * 30) 30
      end).
Proof.
  intros Hw. unfold turn_left. destruct (find_target tags) as [t |]; [| reflexivity].
  destruct (turn_left_percentage (width cfg) t Hw) as (p & -> & Hp).
  cbn [bind]. rewrite Hp. now destruct (centered (width cfg) t).
Qed.

(** ** Sample inputs for the witnesses *)

Definition cfg640 : config := program_config 640.
(** A forward tag two metres ahead, right of the centre; a turn marker. *)
Definition fwd_tag : tag := mk_tag TAG_FORWARD (352, 50) (0, 0, 2).
Definition turn_marker : tag := mk_tag TAG_TURN_LEFT (320, 100) (1, 1, 1).
Definition mem_go_turn : memory := mk_memory STATE_GO_TURN 12 7 0 1000.
Definition mem_turn_left : memory := mk_memory STATE_TURN_LEFT (-30) 30 0 1000.
Definition mem_moving : memory := mk_memory STATE_GO_FARTHEST 127 (-50) 0 0.
(** The memory a successful iteration produces ([d] if it raises). *)
Definition ok_or (d : memory) (r : result memory) : memory :=
  match r with Ok m => m | Raise _ => d end.
(** The memory after the first iteration on [fwd_tag] at time 1000:
    [STATE_GO_FARTHEST], speeds (96, 72), last seen at 1000. *)
Definition mem_after_fwd : memory := ok_or init_memory (tick cfg640 [fwd_tag] 1000 init_memory).
(** A forward tag seen every 3 seconds, the turn marker never. *)
Definition frames_fwd_only : list (list tag * Z) :=
  [([fwd_tag], 3000%Z); ([fwd_tag], 6000%Z); ([fwd_tag], 9000%Z)].

Lemma tick_init_fwd : tick cfg640 [fwd_tag] 1000 init_memory = Ok mem_after_fwd.
Proof. vm_compute. reflexivity. Qed.

(** ** Scenarios of the behaviour machine *)

(** C6: in [STATE_GO_FARTHEST] (and a non-zero frame width) the iteration
    succeeds and moves to [STATE_GO_TURN] exactly when a turn marker
    (id 2) is in the frame; otherwise the state stays. *)
Theorem tick_go_farthest_turn_marker (cfg : config) (tags : list tag) (now : Z) (mem : memory) :
  state mem = STATE_GO_FARTHEST -> width cfg <> 0%Z ->
  exists mem', tick cfg tags now mem = Ok mem' /\
    (state mem' = STATE_GO_TURN <-> exists t, In t tags /\ tag_id t = TAG_TURN_LEFT) /\
    (state mem' = STATE_GO_TURN \/ state mem' = STATE_GO_FARTHEST).
Proof.
  intros Hs Hw. destruct (state_machine_go_farthest cfg tags now mem Hs Hw) as (m1 & E & Hs1).
  exists (snap (bookkeeping tags now m1)). rewrite (tick_Ok _ _ _ _ _ E).
  split; [reflexivity |].
  rewrite state_snap, state_bookkeeping, Hs1, find_turn_tag_exists.
  destruct (find_turn_tag tags).
  - split; [split; eauto | now left].
  - split; [split; [discriminate | intros [? ?]; discriminate] | now right].
Qed.

Lemma tick_go_farthest_turn_marker_witness :
  state init_memory = STATE_GO_FARTHEST /\ width cfg640 <> 0%Z /\
  exists mem', tick cfg640 [fwd_tag; turn_marker] 1000 init_memory = Ok mem' /\
    (state mem' = STATE_GO_TURN <->
     exists t, In t [fwd_tag; turn_marker] /\ tag_id t = TAG_TURN_LEFT) /\
    (state mem' = STATE_GO_TURN \/ state mem' = STATE_GO_FARTHEST).
Proof.
  split; [reflexivity |]. split; [discriminate |].
  apply tick_go_farthest_turn_marker; [reflexivity | discriminate].
Defined.

(** C7: in [STATE_GO_TURN], once more than 3000 ms have passed since a tag
    was last seen, the iteration moves to [STATE_TURN_LEFT] and leaves the
    speeds as they were (up to the snap to zero), whatever the frame. *)
Theorem tick_go_turn_timeout (cfg : config) (tags : list tag) (now : Z) (mem : memory) :
  state mem = STATE_GO_TURN -> (now - tag_last_seen mem > 3000)%Z ->
  exists mem', tick cfg tags now mem = Ok mem' /\ state mem' = STATE_TURN_LEFT /\
    left_speed mem' = snap_speed (left_speed mem) /\
    right_speed mem' = snap_speed (right_speed mem).
Proof.
  intros Hs Ht.
  assert (E : state_machine cfg tags now mem = Ok (set_state mem STATE_TURN_LEFT)).
  { unfold state_machine, go_turn. rewrite Hs.
    destruct (Z.gtb_spec (now - tag_last_seen mem) 3000); [reflexivity | lia]. }
  rewrite (tick_Ok _ _ _ _ _ E). eexists; split; [reflexivity |].
  destruct tags; repeat split.
Qed.

Lemma tick_go_turn_timeout_witness :
  state mem_go_turn = STATE_GO_TURN /\ (5000 - tag_last_seen mem_go_turn > 3000)%Z /\
  exists mem', tick cfg640 [] 5000 mem_go_turn = Ok mem' /\ state mem' = STATE_TURN_LEFT /\
    left_speed mem' = snap_speed (left_speed mem_go_turn) /\
    right_speed mem' = snap_speed (right_speed mem_go_turn).
Proof.
  split; [reflexivity |]. split; [vm_compute; reflexivity |].
  apply tick_go_turn_timeout; [reflexivity | vm_compute; reflexivity].
Defined.

(** A frame with tags refreshes the bookkeeping and keeps the speeds
    the state machine set, up to the snap. *)
Lemma tick_Ok_tags (cfg : config) (tags : list tag) (now : Z) (mem mem1 : memory) :
  tags <> [] -> state_machine cfg tags now mem = Ok mem1 ->
  exists mem', tick cfg tags now mem = Ok mem' /\ state mem' = state mem1 /\
    left_speed mem' = snap_speed (left_speed mem1) /\
    right_speed mem' = snap_speed (right_speed mem1) /\
    tag_last_seen mem' = now /\ tag_missing_frames mem' = 0%Z.
Proof.
  intros Hne E. rewrite (tick_Ok _ _ _ _ _ E). eexists. split; [reflexivity |].
  destruct tags; [contradiction | repeat split].
Qed.

(** C8: in [STATE_GO_FARTHEST] (non-zero frame width) a frame with tags
    drives toward its farthest tag: the first tag of least vertical
    coordinate gets the powers [(l, r)] of [get_left_right_power_for_tag],
    the wheels keep them up to the snap to zero, and the tag is recorded
    as seen now. *)
Theorem tick_go_farthest_tracks (cfg : config) (tags : list tag) (now : Z) (mem : memory) :
  state mem = STATE_GO_FARTHEST -> width cfg <> 0%Z -> tags <> [] ->
  exists t l r mem', first_min t tags /\
    get_left_right_power_for_tag t (width cfg) (max_speed cfg) = Ok (l, r) /\
    tick cfg tags now mem = Ok mem' /\
    left_speed mem' = snap_speed (inject_Z l) /\ right_speed mem' = snap_speed (inject_Z r) /\
    tag_last_seen mem' = now /\ tag_missing_frames mem' = 0%Z.
Proof.
  intros Hs Hw Hne.
  destruct (find_farthest tags) as [t |] eqn:F; [| apply find_farthest_None in F; contradiction].
  destruct (drive_to_Ok cfg t mem Hw) as (l & r & P & D).
  assert (E : state_machine cfg tags now mem =
              Ok (match find_turn_tag tags with
                  | Some _ => set_state (set_speeds mem (inject_Z l) (inject_Z r)) STATE_GO_TURN
                  | None => set_speeds mem (inject_Z l) (inject_Z r)
                  end))
    by (unfold state_machine, go_farthest; rewrite Hs, F, D; reflexivity).
  destruct (tick_Ok_tags cfg tags now mem _ Hne E) as (mem' & T & _ & L & R & Ls & Mf).
  exists t, l, r, mem'. split; [now apply find_farthest_Some |].
  split; [exact P | split; [exact T |]].
  destruct (find_turn_tag tags); repeat split; assumption.
Qed.

Lemma tick_go_farthest_tracks_witness :
  state init_memory = STATE_GO_FARTHEST /\ width cfg640 <> 0%Z /\ [fwd_tag; turn_marker] <> [] /\
  exists t l r mem', first_min t [fwd_tag; turn_marker] /\
    get_left_right_power_for_tag t (width cfg640) (max_speed cfg640) = Ok (l, r) /\
    tick cfg640 [fwd_tag; turn_marker] 1000 init_memory = Ok mem' /\
    left_speed mem' = snap_speed (inject_Z l) /\ right_speed mem' = snap_speed (inject_Z r) /\
    tag_last_seen mem' = 1000%Z /\ tag_missing_frames mem' = 0%Z.
Proof.
  split; [reflexivity |]. split; [discriminate |]. split; [discriminate |].
  apply tick_go_farthest_tracks; [reflexivity | discriminate | discriminate].
Defined.

(** C9: in [STATE_GO_TURN] (non-zero frame width), within 3000 ms of the
    last sighting and with a turn marker in the frame, the robot follows
    the first turn marker of the frame (the loop of lines 119-123 breaks
    on it): the wheels get its powers up to the snap, and the state
    stays [STATE_GO_TURN]. *)
Theorem tick_go_turn_follows_marker (cfg : config) (tags : list tag) (now : Z) (mem : memory) :
  state mem = STATE_GO_TURN -> width cfg <> 0%Z -> (now - tag_last_seen mem <= 3000)%Z ->
  (exists u, In u tags /\ tag_id u = TAG_TURN_LEFT) ->
  exists pre t post l r mem', tags = pre ++ t :: post /\ tag_id t = TAG_TURN_LEFT /\
    Forall (fun u => tag_id u <> TAG_TURN_LEFT) pre /\
    get_left_right_power_for_tag t (width cfg) (max_speed cfg) = Ok (l, r) /\
    tick cfg tags now mem = Ok mem' /\ state mem' = STATE_GO_TURN /\
    left_speed mem' = snap_speed (inject_Z l) /\ right_speed mem' = snap_speed (inject_Z r).
Proof.
  intros Hs Hw Ht Hu. apply find_turn_tag_exists in Hu as [t F].
  destruct (find_turn_tag_Some tags t F) as (pre & post & -> & It & Hpre).
  destruct (drive_to_Ok cfg t mem Hw) as (l & r & P & D).
  assert (E : state_machine cfg (pre ++ t :: post) now mem =
              Ok (set_speeds mem (inject_Z l) (inject_Z r))).
  { unfold state_machine, go_turn. rewrite Hs, F, D.
    destruct (Z.gtb_spec (now - tag_last_seen mem) 3000); [lia | reflexivity]. }
  destruct (tick_Ok_tags cfg (pre ++ t :: post) now mem _ ltac:(destruct pre; discriminate) E)
    as (mem' & T & S & L & R & _).
  exists pre, t, post, l, r, mem'. split; [reflexivity |].
  split; [now apply Z.eqb_eq |].
  split; [eapply Forall_impl; [| exact Hpre]; intros u Hu' Hid; unfold is_turn_tag in Hu';
          rewrite Hid in Hu'; discriminate |].
  split; [exact P |]. split; [exact T |]. split; [rewrite S; exact Hs | split; assumption].
Qed.

Lemma tick_go_turn_follows_marker_witness :
  state mem_go_turn = STATE_GO_TURN /\ width cfg640 <> 0%Z /\
  (2000 - tag_last_seen mem_go_turn <= 3000)%Z /\
  (exists u, In u [fwd_tag; turn_marker] /\ tag_id u = TAG_TURN_LEFT) /\
  exists pre t post l r mem', [fwd_tag; turn_marker] = pre ++ t :: post /\
    tag_id t = TAG_TURN_LEFT /\ Forall (fun u => tag_id u <> TAG_TURN_LEFT) pre /\
    get_left_right_power_for_tag t (width cfg640) (max_speed cfg640) = Ok (l, r) /\
    tick cfg640 [fwd_tag; turn_marker] 2000 mem_go_turn = Ok mem' /\
    state mem' = STATE_GO_TURN /\
    left_speed mem' = snap_speed (inject_Z l) /\ right_speed mem' = snap_speed (inject_Z r).
Proof.
  assert (U : exists u, In u [fwd_tag; turn_marker] /\ tag_id u = TAG_TURN_LEFT)
    by (exists turn_marker; split; [right; left; reflexivity | reflexivity]).
  split; [reflexivity |]. split; [discriminate |]. split; [vm_compute; discriminate |].
  split; [exact U |].
  apply tick_go_turn_follows_marker; [reflexivity | discriminate | vm_compute; discriminate | exact U].
Defined.

(** C10: in [STATE_TURN_LEFT] (positive frame width) the robot pivots left
    with speeds (-30, 30) until the farthest non-turn tag is centred within
    15% of half the frame width; then both speeds are 0 and the state is
    [STATE_GO_FARTHEST]. *)
Theorem tick_turn_left_centering (cfg : config) (tags : list tag) (now : Z) (mem : memory) :
  state mem = STATE_TURN_LEFT -> (0 < width cfg)%Z ->
  exists mem', tick cfg tags now mem = Ok mem' /\
    match find_target tags with
    | Some t =>
        if centered (width cfg) t
        then state mem' = STATE_GO_FARTHEST /\ left_speed mem' == 0 /\ right_speed mem' == 0
        else state mem' = STATE_TURN_LEFT /\ left_speed mem' == -30 /\ right_speed mem' == 30
    | None => state mem' = STATE_TURN_LEFT /\ left_speed mem' == -30 /\ right_speed mem' == 30
    end.
Proof.
  intros Hs Hw. unfold tick, state_machine. rewrite Hs, turn_left_result by exact Hw.
  cbn [bind]. eexists; (split; [reflexivity |]).
  destruct (find_target tags) as [t |]; [destruct (centered (width cfg) t) |];
    destruct tags; simpl; repeat split; try reflexivity; exact Hs.
Qed.

Lemma tick_turn_left_centering_witness :
  state mem_turn_left = STATE_TURN_LEFT /\ (0 < width cfg640)%Z /\
  exists mem', tick cfg640 [fwd_tag] 2000 mem_turn_left = Ok mem' /\
    match find_target [fwd_tag] with
    | Some t =>
        if centered (width cfg640) t
        then state mem' = STATE_GO_FARTHEST /\ left_speed mem' == 0 /\ right_speed mem' == 0
        else state mem' = STATE_TURN_LEFT /\ left_speed mem' == -30 /\ right_speed mem' == 30
    | None => state mem' = STATE_TURN_LEFT /\ left_speed mem' == -30 /\ right_speed mem' == 30
    end.
Proof.
  split; [reflexivity |]. split; [vm_compute; reflexivity |].
  apply tick_turn_left_centering; [reflexivity | vm_compute; reflexivity].
Defined.

(** C11: in [STATE_GO_FARTHEST], frames without any tag halve both speeds
    each iteration and the snap makes them exactly 0: once [2^n / 10]
    exceeds both speeds, [n] such iterations stop the robot, and the state
    stays [STATE_GO_FARTHEST]. *)
Theorem no_tags_stops_go_farthest (cfg : config) (nows : list Z) (mem : memory) :
  state mem = STATE_GO_FARTHEST -> (length nows > 0)%nat ->
  Qabs (left_speed mem) < (1 # 10) * inject_Z (2 ^ Z.of_nat (length nows)) ->
  Qabs (right_speed mem) < (1 # 10) * inject_Z (2 ^ Z.of_nat (length nows)) ->
  exists mem', run_ticks cfg (map (fun now => ([], now)) nows) mem = Ok mem' /\
    state mem' = STATE_GO_FARTHEST /\ left_speed mem' == 0 /\ right_speed mem' == 0.
Proof.
  intros Hs Hn Hl Hr. rewrite run_no_tags_go_farthest by exact Hs.
  eexists; split; [reflexivity |]. simpl. auto using decay_stops.
Qed.

(** C28: a frame without tags in [STATE_GO_FARTHEST], or in
    [STATE_GO_TURN] before the 3000 ms timeout, keeps the state and at
    least halves each speed in absolute value without moving it across
    zero: the decay goes toward zero and never below it. *)
Theorem tick_no_tags_decays (cfg : config) (now : Z) (mem : memory) :
  state mem = STATE_GO_FARTHEST \/
  (state mem = STATE_GO_TURN /\ (now - tag_last_seen mem <= 3000)%Z) ->
  exists mem', tick cfg [] now mem = Ok mem' /\ state mem' = state mem /\
    Qabs (left_speed mem') <= Qabs (left_speed mem) / 2 /\
    0 <= left_speed mem' * left_speed mem /\
    Qabs (right_speed mem') <= Qabs (right_speed mem) / 2 /\
    0 <= right_speed mem' * right_speed mem.
Proof.
  intros H. destruct (snap_half_decays (left_speed mem)) as [L1 L2].
  destruct (snap_half_decays (right_speed mem)) as [R1 R2].
  destruct mem as [s l r k ls]; simpl in *.
  destruct H as [-> | [-> T]]; unfold tick, state_machine; cbn [state].
  - eexists; (split; [reflexivity |]); simpl; auto.
  - assert (G : (now - ls >? 3000)%Z = false) by (rewrite Z.gtb_ltb; apply Z.ltb_ge; lia).
    unfold go_turn. cbn [tag_last_seen]. rewrite G. eexists; (split; [reflexivity |]); simpl; auto.
Qed.

Lemma tick_no_tags_decays_witness :
  (state mem_go_turn = STATE_GO_FARTHEST \/
   (state mem_go_turn = STATE_GO_TURN /\ (2000 - tag_last_seen mem_go_turn <= 3000)%Z)) /\
  exists mem', tick cfg640 [] 2000 mem_go_turn = Ok mem' /\ state mem' = state mem_go_turn /\
    Qabs (left_speed mem') <= Qabs (left_speed mem_go_turn) / 2 /\
    0 <= left_speed mem' * left_speed mem_go_turn /\
    Qabs (right_speed mem') <= Qabs (right_speed mem_go_turn) / 2 /\
    0 <= right_speed mem' * right_speed mem_go_turn.
Proof.
  assert (H : state mem_go_turn = STATE_GO_FARTHEST \/
              (state mem_go_turn = STATE_GO_TURN /\ (2000 - tag_last_seen mem_go_turn <= 3000)%Z))
    by (right; split; [reflexivity | simpl; lia]).
  split; [exact H | exact (tick_no_tags_decays cfg640 2000 mem_go_turn H)].
Defined.

Lemma no_tags_stops_go_farthest_witness :
  state mem_moving = STATE_GO_FARTHEST /\
  Qabs (left_speed mem_moving) < (1 # 10) * inject_Z (2 ^ 11) /\
  Qabs (right_speed mem_moving) < (1 # 10) * inject_Z (2 ^ 11) /\
  exists mem', run_ticks cfg640 (map (fun now => ([], now)) (map Z.of_nat (seq 1 11))) mem_moving
                 = Ok mem' /\
    state mem' = STATE_GO_FARTHEST /\ left_speed mem' == 0 /\ right_speed mem' == 0.
Proof.
  split; [reflexivity |]. split; [apply Qltb_true; reflexivity |].
  split; [apply Qltb_true; reflexivity |].
  apply no_tags_stops_go_farthest;
    [reflexivity | simpl; lia | apply Qltb_true; reflexivity | apply Qltb_true; reflexivity].
Defined.

(** ** Errors: the iteration fails only on a zero frame width *)

Lemma state_machine_Ok (cfg : config) (tags : list tag) (now : Z) (mem : memory) :
  width cfg <> 0%Z -> exists mem1, state_machine cfg tags now mem = Ok mem1.
Proof.
  intros Hw. unfold state_machine, go_farthest, go_turn, turn_left.
  destruct (state mem).
  - destruct (find_farthest tags) as [t |]; [destruct (drive_to_Ok cfg t mem Hw) as (? & ? & _ & ->) |];
      cbn [bind]; eauto.
  - destruct (_ >? _)%Z; [eauto |].
    destruct (find_turn_tag tags) as [t |]; [destruct (drive_to_Ok cfg t mem Hw) as (? & ? & _ & ->) |];
      eauto.
  - destruct (find_target tags) as [t |]; [| eauto].
    rewrite rescale_Ok.
    + cbn [bind]. case_if; eauto.
    + assert (E : inject_Z (width cfg) / 2 - -1 * (inject_Z (width cfg) / 2) == inject_Z (width cfg))
        by field.
      rewrite E. intros E0. apply Hw, inject_Z_injective, E0.
Qed.

Lemma state_machine_Raise (cfg : config) (tags : list tag) (now : Z) (mem : memory) (e : py_exn) :
  state_machine cfg tags now mem = Raise e -> width cfg = 0%Z /\ e = ZeroDivisionError.
Proof.
  intros E. destruct (Z.eq_dec (width cfg) 0) as [Hw | Hw].
  - split; [exact Hw |]. revert E. unfold state_machine, go_farthest, go_turn, turn_left, drive_to.
    destruct (state mem).
    + destruct (find_farthest tags) as [t |]; [| discriminate].
      destruct (get_left_right_power_for_tag _ _ _) as [[? ?] | e'] eqn:P; [discriminate |].
      apply power_for_tag_Raise_inv in P as [_ ->]. now intros [= <-].
    + destruct (_ >? _)%Z; [discriminate |]. destruct (find_turn_tag tags) as [t |]; [| discriminate].
      destruct (get_left_right_power_for_tag _ _ _) as [[? ?] | e'] eqn:P; [discriminate |].
      apply power_for_tag_Raise_inv in P as [_ ->]. now intros [= <-].
    + destruct (find_target tags) as [t |]; [| discriminate].
      destruct (rescale _ _ _ _ _) as [p | e'] eqn:P; cbn [bind].
      * case_if; discriminate.
      * apply rescale_Raise in P as [_ ->]. now intros [= <-].
  - destruct (state_machine_Ok cfg tags now mem Hw) as [m1 E1]. congruence.
Qed.

Lemma tick_Raise (cfg : config) (tags : list tag) (now : Z) (mem : memory) (e : py_exn) :
  tick cfg tags now mem = Raise e -> width cfg = 0%Z /\ e = ZeroDivisionError.
Proof.
  unfold tick. destruct (state_machine cfg tags now mem) eqn:E; [discriminate |].
  intros [= <-]. now apply state_machine_Raise with tags now mem.
Qed.

(** The iterations that steer by a tag, as the specification describes
    the states: [GoFarthest] with a tag in view, [GoTurn] within 3000 ms
    of the last sighting with a turn marker in view, [TurnLeft] with a
    tag other than a turn marker in view. *)
Definition steers_by_tag (tags : list tag) (now : Z) (mem : memory) : bool :=
  match state mem with
  | STATE_GO_FARTHEST => match tags with [] => false | _ :: _ => true end
  | STATE_GO_TURN => negb (now - tag_last_seen mem >? 3000)%Z && existsb is_turn_tag tags
  | STATE_TURN_LEFT => existsb (fun t => negb (is_turn_tag t)) tags
  end.

Lemma find_target_None (tags : list tag) :
  find_target tags = None <-> existsb (fun t => negb (is_turn_tag t)) tags = false.
Proof.
  unfold find_target. rewrite fold_target_filter.
  change (fold_left farthest_step ?l None) with (find_farthest l).
  rewrite find_farthest_None. apply filter_nil_existsb.
Qed.

(** An iteration that does not steer by a tag computes no power. *)
Lemma state_machine_no_steer (cfg : config) (tags : list tag) (now : Z) (mem : memory) :
  steers_by_tag tags now mem = false -> exists mem1, state_machine cfg tags now mem = Ok mem1.
Proof.
  unfold steers_by_tag, state_machine, go_farthest, go_turn, turn_left.
  destruct (state mem).
  - destruct tags; [| discriminate]. intros _. simpl. eauto.
  - destruct (_ >? _)%Z; simpl; [eauto |].
    intros N. apply find_None_existsb in N. unfold find_turn_tag. rewrite N. eauto.
  - intros N. apply find_target_None in N. rewrite N. eauto.
Qed.

(** With width 0, an iteration that steers by a tag divides by the width. *)
Lemma state_machine_steer_zero (cfg : config) (tags : list tag) (now : Z) (mem : memory) :
  width cfg = 0%Z -> steers_by_tag tags now mem = true ->
  state_machine cfg tags now mem = Raise ZeroDivisionError.
Proof.
  intros W.
  assert (D : forall t mem1, drive_to cfg t mem1 = Raise ZeroDivisionError)
    by (intros; unfold drive_to, get_left_right_power_for_tag;
        rewrite W, turning_speed_zero_width; reflexivity).
  unfold steers_by_tag, state_machine, go_farthest, go_turn, turn_left.
  destruct (state mem).
  - intros N. destruct (find_farthest tags) eqn:F; [now rewrite D |].
    apply find_farthest_None in F. subst. discriminate.
  - destruct (_ >? _)%Z; simpl; [discriminate |]. intros N.
    destruct (find_turn_tag tags) eqn:F; [now rewrite D |].
    apply find_None_existsb in F. congruence.
  - intros N. destruct (find_target tags) eqn:F.
    + rewrite (proj2 (rescale_Raise _ _ _ _ _ ZeroDivisionError)); [reflexivity |].
      split; [rewrite W; reflexivity | reflexivity].
    + apply find_target_None in F. congruence.
Qed.

(** C5: an iteration raises exactly when the frame width is zero and the
    iteration steers by a tag (a tag in view in [STATE_GO_FARTHEST], a
    turn marker in view before the timeout in [STATE_GO_TURN], a non-turn
    tag in view in [STATE_TURN_LEFT]), and the exception is then
    [ZeroDivisionError]; with width 0 a frame without such a tag goes
    through. *)
Theorem tick_error (cfg : config) (tags : list tag) (now : Z) (mem : memory) (e : py_exn) :
  tick cfg tags now mem = Raise e <->
  width cfg = 0%Z /\ steers_by_tag tags now mem = true /\ e = ZeroDivisionError.
Proof.
  split.
  - intros E. destruct (tick_Raise _ _ _ _ _ E) as [W ->].
    split; [exact W | split; [| reflexivity]].
    destruct (steers_by_tag tags now mem) eqn:S; [reflexivity |].
    destruct (state_machine_no_steer cfg tags now mem S) as [m1 E1].
    rewrite (tick_Ok _ _ _ _ _ E1) in E. discriminate.
  - intros (W & S & ->). unfold tick. rewrite (state_machine_steer_zero cfg tags now mem W S).
    reflexivity.
Qed.

Lemma tick_error_witness :
  tick (program_config 0) [fwd_tag] 1000 init_memory = Raise ZeroDivisionError /\
  ~ (tick (program_config 0) [] 1000 init_memory = Raise ZeroDivisionError).
Proof.
  split.
  - apply (proj2 (tick_error (program_config 0) [fwd_tag] 1000 init_memory ZeroDivisionError)).
    repeat split.
  - intros E. apply (tick_error (program_config 0) [] 1000 init_memory ZeroDivisionError) in E.
    destruct E as (_ & S & _). discriminate.
Defined.

(** ** What an iteration does to the speeds and the timestamps *)

Lemma state_machine_bookkeeping_fields (cfg : config) (tags : list tag) (now : Z)
      (mem mem1 : memory) :
  state_machine cfg tags now mem = Ok mem1 ->
  tag_last_seen mem1 = tag_last_seen mem /\ tag_missing_frames mem1 = tag_missing_frames mem.
Proof.
  unfold state_machine, go_farthest, go_turn, turn_left, drive_to.
  destruct (state mem).
  - destruct (find_farthest tags); [destruct (get_left_right_power_for_tag _ _ _) as [[? ?] |] |];
      cbn [bind]; try discriminate; destruct (find_turn_tag tags); intros [= <-]; auto.
  - destruct (_ >? _)%Z; [intros [= <-]; auto |].
    destruct (find_turn_tag tags); [destruct (get_left_right_power_for_tag _ _ _) as [[? ?] |] |];
      cbn [bind]; try discriminate; intros [= <-]; auto.
  - destruct (find_target tags); [| intros [= <-]; auto].
    destruct (rescale _ _ _ _ _); cbn [bind]; [| discriminate].
    case_if; intros [= <-]; auto.
Qed.

(** The speeds after the state machine: the power of a tag of the frame,
    the halved speeds, the unchanged speeds, the pivot, or a stop. *)
Lemma state_machine_speeds (cfg : config) (tags : list tag) (now : Z) (mem mem1 : memory) :
  state_machine cfg tags now mem = Ok mem1 ->
  (exists t l r, In t tags /\
     get_left_right_power_for_tag t (width cfg) (max_speed cfg) = Ok (l, r) /\
     left_speed mem1 = inject_Z l /\ right_speed mem1 = inject_Z r) \/
  (left_speed mem1 = left_speed mem / 2 /\ right_speed mem1 = right_speed mem / 2) \/
  (left_speed mem1 = left_speed mem /\ right_speed mem1 = right_speed mem) \/
  (left_speed mem1 = -1 * 30 /\ right_speed mem1 = 30) \/
  (left_speed mem1 = 0 /\ right_speed mem1 = 0).
Proof.
  unfold state_machine, go_farthest, go_turn, turn_left, drive_to.
  destruct (state mem).
  - destruct (find_farthest tags) as [t |] eqn:F.
    + destruct (get_left_right_power_for_tag _ _ _) as [[l r] |] eqn:P; cbn [bind]; [| discriminate].
      assert (In t tags) by (apply find_farthest_Some in F; eauto with nav).
      destruct (find_turn_tag tags); intros [= <-]; left; exists t, l, r; auto.
    + cbn [bind]. destruct (find_turn_tag tags); intros [= <-]; right; left; auto.
  - destruct (_ >? _)%Z; [intros [= <-]; do 2 right; left; auto |].
    destruct (find_turn_tag tags) as [t |] eqn:F.
    + destruct (get_left_right_power_for_tag _ _ _) as [[l r] |] eqn:P; cbn [bind]; [| discriminate].
      apply find_turn_tag_Some in F as (pre & post & -> & _).
      intros [= <-]. left. exists t, l, r. rewrite in_app_iff. simpl. auto.
    + intros [= <-]. right; left; auto.
  - destruct (find_target tags); [| intros [= <-]; do 3 right; left; auto].
    destruct (rescale _ _ _ _ _); cbn [bind]; [| discriminate].
    case_if; intros [= <-]; do 3 right; [right | left]; auto.
Qed.

Lemma tick_inv (cfg : config) (tags : list tag) (now : Z) (mem mem' : memory) :
  tick cfg tags now mem = Ok mem' ->
  exists mem1, state_machine cfg tags now mem = Ok mem1 /\ mem' = snap (bookkeeping tags now mem1).
Proof. unfold tick. intros E. apply bind_eq_Ok in E as (m1 & E1 & [= <-]). eauto. Qed.

(** The state the state machine moves to, for a positive frame width. *)
Lemma state_machine_state (cfg : config) (tags : list tag) (now : Z) (mem mem1 : memory) :
  (0 < width cfg)%Z -> state_machine cfg tags now mem = Ok mem1 ->
  state mem1 =
  match state mem with
  | STATE_GO_FARTHEST =>
      match find_turn_tag tags with Some _ => STATE_GO_TURN | None => STATE_GO_FARTHEST end
  | STATE_GO_TURN =>
      if (now - tag_last_seen mem >? 3000)%Z then STATE_TURN_LEFT else STATE_GO_TURN
  | STATE_TURN_LEFT =>
      match find_target tags with
      | Some t => if centered (width cfg) t then STATE_GO_FARTHEST else STATE_TURN_LEFT
      | None => STATE_TURN_LEFT
      end
  end.
Proof.
  intros Hw E. destruct (state mem) eqn:Hs.
  - destruct (state_machine_go_farthest cfg tags now mem Hs ltac:(lia)) as (m1 & E1 & S1).
    congruence.
  - revert E. unfold state_machine, go_turn, drive_to. rewrite Hs.
    destruct (_ >? _)%Z; [now intros [= <-] |].
    destruct (find_turn_tag tags); [destruct (get_left_right_power_for_tag _ _ _) as [[? ?] |] |];
      cbn [bind]; try discriminate; now intros [= <-].
  - unfold state_machine in E. rewrite Hs, turn_left_result in E by exact Hw.
    injection E as <-.
    destruct (find_target tags) as [t |]; [destruct (centered (width cfg) t) |];
      simpl; auto.
Qed.

(** ** Reachable memories *)

(** The memories the loop reaches from [init_memory] through iterations
    on frames satisfying [in_view], with a clock that never goes back;
    the index is the time of the last iteration. *)
Inductive reachable (cfg : config) (in_view : list tag -> Prop) : Z -> memory -> Prop :=
| reach_init : reachable cfg in_view 0 init_memory
| reach_tick (clock : Z) (mem : memory) (tags : list tag) (now : Z) (mem' : memory) :
    reachable cfg in_view clock mem -> (clock <= now)%Z -> in_view tags ->
    tick cfg tags now mem = Ok mem' -> reachable cfg in_view now mem'.

(** A stored speed is 0 or at least 0.1 in absolute value. *)
Definition snapped (v : Q) : Prop := v == 0 \/ 1 # 10 <= Qabs v.

Lemma snap_speed_snapped (v : Q) : snapped (snap_speed v).
Proof.
  unfold snapped. destruct (snap_speed_cases v) as [[-> _] | [-> H]]; [left | right]; auto.
  reflexivity.
Qed.

(** C12: in every reachable memory, with a clock that never goes back, the
    time a tag was last seen is not in the future, the count of frames
    without tags is non-negative, and both stored speeds are 0 or at least
    0.1 in absolute value (the snap is an invariant). *)
Theorem reachable_invariant (cfg : config) (in_view : list tag -> Prop) (clock : Z) (mem : memory) :
  reachable cfg in_view clock mem ->
  (tag_last_seen mem <= clock)%Z /\ (0 <= tag_missing_frames mem)%Z /\
  snapped (left_speed mem) /\ snapped (right_speed mem).
Proof.
  induction 1 as [| clock mem tags now mem' _ IH Hc _ E].
  - repeat split; simpl; try lia; left; reflexivity.
  - apply tick_inv in E as (m1 & E1 & ->).
    destruct (state_machine_bookkeeping_fields cfg tags now mem m1 E1) as [L M].
    destruct IH as (IH1 & IH2 & _).
    repeat split; try apply snap_speed_snapped; destruct tags; simpl; lia.
Qed.

Lemma reachable_invariant_witness :
  reachable cfg640 (fun _ => True) 1000 mem_after_fwd /\
  (tag_last_seen mem_after_fwd <= 1000)%Z /\ (0 <= tag_missing_frames mem_after_fwd)%Z /\
  snapped (left_speed mem_after_fwd) /\ snapped (right_speed mem_after_fwd).
Proof.
  assert (R : reachable cfg640 (fun _ => True) 1000 mem_after_fwd)
    by (apply reach_tick with 0%Z init_memory [fwd_tag];
        [apply reach_init | lia | exact I | apply tick_init_fwd]).
  split; [exact R |]. exact (reachable_invariant _ _ _ _ R).
Defined.

Section SpeedBound.

(** The configuration of the program: [max_speed] at least 15 (so the
    pivot speed 30 is within [2 * max_speed]) and below the frame width. *)
Variable cfg : config.
Hypothesis max_speed_ge : (15 <= max_speed cfg)%Z.
Hypothesis max_speed_lt_width : (max_speed cfg < width cfg)%Z.

(** Every tag of the frame is inside the frame and at most 3 metres away. *)
Definition tags_in_view (tags : list tag) : Prop :=
  Forall (fun t => 0 <= cx t <= inject_Z (width cfg) /\ distance_total t <= 9) tags.

(** Rule induction on the speeds of the reachable memories: a property
    of a speed that holds of 0, of the pivot speeds, of every power the
    power model can give a tag in view, and that survives the snap and
    the halving followed by the snap, holds of both speeds of every
    reachable memory. *)
Lemma reachable_speeds (P : Q -> Prop) (clock : Z) (mem : memory) :
  P 0 -> P (-1 * 30) -> P 30 ->
  (forall z : Z, (- max_speed cfg <= z <= 2 * max_speed cfg)%Z -> P (inject_Z z)) ->
  (forall v, P v -> P (snap_speed v)) ->
  (forall v, P v -> P (snap_speed (v / 2))) ->
  reachable cfg tags_in_view clock mem -> P (left_speed mem) /\ P (right_speed mem).
Proof.
  intros P0 Pl Pr PZ Ps Ph.
  induction 1 as [| clock mem tags now mem' _ [IHl IHr] _ Hv E]; [split; exact P0 |].
  apply tick_inv in E as (m1 & E1 & ->).
  destruct (speeds_bookkeeping tags now m1) as [L R]. simpl. rewrite L, R.
  destruct (state_machine_speeds cfg tags now mem m1 E1)
    as [(t & l & r & Ht & P' & -> & ->) | [[-> ->] | [[-> ->] | [[-> ->] | [-> ->]]]]];
    [| split; apply Ph; assumption | split; apply Ps; assumption ..].
  unfold tags_in_view in Hv. rewrite Forall_forall in Hv. destruct (Hv t Ht) as [Hc HD].
  destruct (power_for_tag_range t (width cfg) (max_speed cfg) l r ltac:(lia) Hc HD P')
    as [Bl Br].
  split; apply Ps, PZ; lia.
Qed.

(** For a camera wider than [max_speed >= 15] and frames whose tags are
    all in view, every reachable memory has both speeds within
    [2 * max_speed] in absolute value. *)
Theorem reachable_speed_bound (clock : Z) (mem : memory) :
  reachable cfg tags_in_view clock mem ->
  Qabs (left_speed mem) <= inject_Z (2 * max_speed cfg) /\
  Qabs (right_speed mem) <= inject_Z (2 * max_speed cfg).
Proof.
  assert (B0 : 0 <= inject_Z (2 * max_speed cfg)) by (apply inject_Z_nonneg; lia).
  assert (B30 : 30 <= inject_Z (2 * max_speed cfg))
    by (change 30 with (inject_Z 30); rewrite <- Zle_Qle; lia).
  intros R. apply (reachable_speeds (fun v => Qabs v <= inject_Z (2 * max_speed cfg)) clock mem);
    [exact B0 | exact B30 | exact B30 | | | | exact R].
  - intros z Hz. rewrite Q_inject_Z_abs, <- Zle_Qle. lia.
  - intros v Hv. eapply Qle_trans; [apply snap_speed_abs_le | exact Hv].
  - intros v Hv. eapply Qle_trans; [apply snap_speed_abs_le |].
    eapply Qle_trans; [apply Qabs_half_le | exact Hv].
Qed.
End SpeedBound.

(** ** The behaviour machine of the specification and its refinement

    [nav_step w tags now last_seen s s']: the transition table of the
    specification, with its guards stated on the frame: a turn marker is
    in view; more than 3000 ms since [last_seen]; the farthest non-turn
    tag is centred within 15% of half the frame width. *)
Definition non_turn_tags (tags : list tag) : list tag :=
  filter (fun t => negb (is_turn_tag t)) tags.

Inductive nav_step (w : Z) (tags : list tag) (now last_seen : Z)
  : nav_state -> nav_state -> Prop :=
| NS_farthest_sees_turn :
    (exists t, In t tags /\ tag_id t = TAG_TURN_LEFT) ->
    nav_step w tags now last_seen STATE_GO_FARTHEST STATE_GO_TURN
| NS_farthest_stays :
    (forall t, In t tags -> tag_id t <> TAG_TURN_LEFT) ->
    nav_step w tags now last_seen STATE_GO_FARTHEST STATE_GO_FARTHEST
| NS_turn_timeout :
    (now - last_seen > 3000)%Z ->
    nav_step w tags now last_seen STATE_GO_TURN STATE_TURN_LEFT
| NS_turn_stays :
    (now - last_seen <= 3000)%Z ->
    nav_step w tags now last_seen STATE_GO_TURN STATE_GO_TURN
| NS_left_centred (t : tag) :
    first_min t (non_turn_tags tags) ->
    Qabs (cx t - inject_Z w / 2) < (3 # 20) * (inject_Z w / 2) ->
    nav_step w tags now last_seen STATE_TURN_LEFT STATE_GO_FARTHEST
| NS_left_searching :
    (forall t, first_min t (non_turn_tags tags) ->
               (3 # 20) * (inject_Z w / 2) <= Qabs (cx t - inject_Z w / 2)) ->
    nav_step w tags now last_seen STATE_TURN_LEFT STATE_TURN_LEFT.

(** The state machine moves the state along a transition of [nav_step]. *)
Lemma state_machine_nav_step (cfg : config) (tags : list tag) (now : Z) (mem m1 : memory) :
  (0 < width cfg)%Z -> state_machine cfg tags now mem = Ok m1 ->
  nav_step (width cfg) tags now (tag_last_seen mem) (state mem) (state m1).
Proof.
  intros Hw E1. rewrite (state_machine_state cfg tags now mem m1 Hw E1).
  destruct (state mem).
  - destruct (find_turn_tag tags) eqn:F.
    + constructor. apply find_turn_tag_exists. eauto.
    + constructor. intros t Ht Hid.
      destruct (proj1 (find_turn_tag_exists tags) (ex_intro _ t (conj Ht Hid))). congruence.
  - destruct (Z.gtb_spec (now - tag_last_seen mem) 3000); constructor; lia.
  - unfold find_target. rewrite fold_target_filter.
    change (fold_left farthest_step (filter (fun t => negb (is_turn_tag t)) tags) None)
      with (find_farthest (non_turn_tags tags)).
    destruct (find_farthest (non_turn_tags tags)) as [t |] eqn:F.
    + pose proof (find_farthest_Some _ t F) as Ht.
      unfold centered. destruct (Qltb_spec (Qabs (cx t - inject_Z (width cfg) / 2))
                                           ((3 # 20) * (inject_Z (width cfg) / 2))) as [C | C].
      * now apply NS_left_centred with t.
      * apply NS_left_searching. intros t' Ht'.
        assert (t' = t) as -> by (eapply first_min_unique; eauto). now apply Qnot_lt_le.
    + apply NS_left_searching. intros t' Ht'.
      apply first_min_In in Ht'. apply find_farthest_None in F.
      rewrite F in Ht'. destruct Ht'.
Qed.

(** C3: every successful iteration of the loop, with a positive frame
    width, moves the state along a transition of the specification's
    behaviour machine, whose guards are read on the frame. *)
Theorem tick_refines_nav_step (cfg : config) (tags : list tag) (now : Z) (mem mem' : memory) :
  (0 < width cfg)%Z -> tick cfg tags now mem = Ok mem' ->
  nav_step (width cfg) tags now (tag_last_seen mem) (state mem) (state mem').
Proof.
  intros Hw E. apply tick_inv in E as (m1 & E1 & ->).
  rewrite state_snap, state_bookkeeping. exact (state_machine_nav_step cfg tags now mem m1 Hw E1).
Qed.

Lemma tick_refines_nav_step_witness :
  (0 < width cfg640)%Z /\
  tick cfg640 [fwd_tag; turn_marker] 1000 init_memory =
    Ok (ok_or init_memory (tick cfg640 [fwd_tag; turn_marker] 1000 init_memory)) /\
  nav_step 640 [fwd_tag; turn_marker] 1000 0 STATE_GO_FARTHEST
    (state (ok_or init_memory (tick cfg640 [fwd_tag; turn_marker] 1000 init_memory))).
Proof.
  assert (T : tick cfg640 [fwd_tag; turn_marker] 1000 init_memory =
              Ok (ok_or init_memory (tick cfg640 [fwd_tag; turn_marker] 1000 init_memory)))
    by (vm_compute; reflexivity).
  split; [vm_compute; reflexivity |]. split; [exact T |].
  exact (tick_refines_nav_step cfg640 _ _ _ _ ltac:(vm_compute; reflexivity) T).
Defined.

(** What an iteration does to the two bookkeeping fields. *)
Lemma tick_fields (cfg : config) (tags : list tag) (now : Z) (mem mem' : memory) :
  tick cfg tags now mem = Ok mem' ->
  tag_last_seen mem' = match tags with [] => tag_last_seen mem | _ :: _ => now end /\
  tag_missing_frames mem' =
    match tags with [] => (tag_missing_frames mem + 1)%Z | _ :: _ => 0%Z end.
Proof.
  intros E. apply tick_inv in E as (m1 & E1 & ->).
  destruct (state_machine_bookkeeping_fields cfg tags now mem m1 E1) as [L M].
  destruct tags; simpl; rewrite ?L, ?M; auto.
Qed.

(** The paths of the behaviour machine along a sequence of frames: each
    frame moves the state by [nav_step], whose guards read the last
    sighting, and a frame with tags then makes its time the last
    sighting. *)
Inductive nav_path (w : Z) : Z -> nav_state -> list (list tag * Z) -> Z -> nav_state -> Prop :=
| path_nil (last : Z) (s : nav_state) : nav_path w last s [] last s
| path_cons (last : Z) (s s1 : nav_state) (tags : list tag) (now : Z)
    (rest : list (list tag * Z)) (last' : Z) (s' : nav_state) :
    nav_step w tags now last s s1 ->
    nav_path w (match tags with [] => last | _ :: _ => now end) s1 rest last' s' ->
    nav_path w last s ((tags, now) :: rest) last' s'.

(** C32: every run of iterations that does not raise, with a positive
    frame width, follows a path of the specification's behaviour machine
    from the state and last sighting it starts with to the ones it ends
    with. *)
Theorem run_refines_nav_path (cfg : config) (frames : list (list tag * Z)) (mem mem' : memory) :
  (0 < width cfg)%Z -> run_ticks cfg frames mem = Ok mem' ->
  nav_path (width cfg) (tag_last_seen mem) (state mem) frames (tag_last_seen mem') (state mem').
Proof.
  intros Hw. revert mem. induction frames as [| [tags now] rest IH]; intros mem E; simpl in E.
  - injection E as <-. constructor.
  - apply bind_eq_Ok in E as (m1 & T & R).
    destruct (tick_fields cfg tags now mem m1 T) as [L _].
    apply tick_inv in T as (m0 & E0 & ->).
    apply path_cons with (state m0);
      [exact (state_machine_nav_step cfg tags now mem m0 Hw E0) |].
    rewrite <- L, <- (state_bookkeeping tags now m0), <- state_snap. exact (IH _ R).
Qed.

Lemma run_refines_nav_path_witness :
  (0 < width cfg640)%Z /\ run_ticks cfg640 [([fwd_tag], 1000%Z)] init_memory = Ok mem_after_fwd /\
  nav_path (width cfg640) (tag_last_seen init_memory) (state init_memory) [([fwd_tag], 1000%Z)]
    (tag_last_seen mem_after_fwd) (state mem_after_fwd).
Proof.
  assert (R : run_ticks cfg640 [([fwd_tag], 1000%Z)] init_memory = Ok mem_after_fwd)
    by (vm_compute; reflexivity).
  split; [reflexivity |]. split; [exact R |].
  exact (run_refines_nav_path cfg640 _ _ _ eq_refl R).
Defined.

(** C33: after a run of iterations, [tag_missing_frames] counts the
    frames without tags since the last frame with tags, and
    [tag_last_seen] is the time of that frame; when no frame of the run
    had tags, both continue from their values at the start. *)
Theorem run_bookkeeping (cfg : config) (frames : list (list tag * Z)) (mem mem' : memory) :
  run_ticks cfg frames mem = Ok mem' ->
  (Forall (fun f => fst f = []) frames /\
   tag_missing_frames mem' = (tag_missing_frames mem + Z.of_nat (length frames))%Z /\
   tag_last_seen mem' = tag_last_seen mem) \/
  (exists pre tags now post, frames = pre ++ (tags, now) :: post /\ tags <> [] /\
     Forall (fun f => fst f = []) post /\
     tag_missing_frames mem' = Z.of_nat (length post) /\ tag_last_seen mem' = now).
Proof.
  revert mem. induction frames as [| [tags now] rest IH]; intros mem E; simpl in E.
  - injection E as <-. left. simpl. repeat split; [constructor | lia].
  - apply bind_eq_Ok in E as (m1 & T & R).
    destruct (tick_fields cfg tags now mem m1 T) as [L M].
    destruct (IH m1 R) as [(A & M' & L') | (pre & tg & nw & post & -> & Ht & A & M' & L')].
    + destruct tags as [| t tags].
      * left. split; [constructor; auto |]. simpl length. split; lia.
      * right. exists [], (t :: tags), now, rest. repeat split; auto; try discriminate; lia.
    + right. exists ((tags, now) :: pre), tg, nw, post. repeat split; auto.
Qed.

Lemma run_bookkeeping_witness :
  run_ticks cfg640 [([fwd_tag], 1000%Z)] init_memory = Ok mem_after_fwd /\
  ((Forall (fun f => fst f = []) [([fwd_tag], 1000%Z)] /\
    tag_missing_frames mem_after_fwd =
      (tag_missing_frames init_memory + Z.of_nat (length [([fwd_tag], 1000%Z)]))%Z /\
    tag_last_seen mem_after_fwd = tag_last_seen init_memory) \/
   (exists pre tags now post, [([fwd_tag], 1000%Z)] = pre ++ (tags, now) :: post /\ tags <> [] /\
      Forall (fun f => fst f = []) post /\
      tag_missing_frames mem_after_fwd = Z.of_nat (length post) /\ tag_last_seen mem_after_fwd = now)).
Proof.
  assert (R : run_ticks cfg640 [([fwd_tag], 1000%Z)] init_memory = Ok mem_after_fwd)
    by (vm_compute; reflexivity).
  split; [exact R | exact (run_bookkeeping cfg640 _ _ _ R)].
Defined.

(** ** The marker lost while another tag stays in view

    [frames_keep_turn last frames]: every frame has a tag, none of them
    the turn marker, and each frame comes at most 3000 ms after the
    previous one (the first after [last]). *)
Fixpoint frames_keep_turn (last : Z) (frames : list (list tag * Z)) : Prop :=
  match frames with
  | [] => True
  | (tags, now) :: rest =>
      tags <> [] /\ Forall (fun t => tag_id t <> TAG_TURN_LEFT) tags /\
      (now - last <= 3000)%Z /\ frames_keep_turn now rest
  end.

(** C4: [tag_last_seen] is refreshed by a tag of any id, so in
    [STATE_GO_TURN] the 3000 ms timeout never fires while some other tag
    stays in view, even though the turn marker is gone: on every such
    sequence of frames the robot stays in [STATE_GO_TURN] and never turns. *)
Theorem go_turn_stuck_while_tags_seen (cfg : config) (frames : list (list tag * Z)) (mem : memory) :
  state mem = STATE_GO_TURN -> frames_keep_turn (tag_last_seen mem) frames ->
  exists mem', run_ticks cfg frames mem = Ok mem' /\ state mem' = STATE_GO_TURN.
Proof.
  revert mem. induction frames as [| f frames IH]; intros mem Hs Hf; [simpl; eauto |].
  destruct f as [tags now]. simpl in Hf. destruct Hf as (Hne & Hid & Ht & Hf). simpl.
  assert (Hn : find_turn_tag tags = None).
  { apply find_turn_tag_None. eapply Forall_impl; [| exact Hid].
    intros t Htid. unfold is_turn_tag. now apply Z.eqb_neq. }
  assert (E : state_machine cfg tags now mem = Ok (halve_speeds mem)).
  { unfold state_machine, go_turn. rewrite Hs, Hn.
    destruct (Z.gtb_spec (now - tag_last_seen mem) 3000); [lia | reflexivity]. }
  rewrite (tick_Ok _ _ _ _ _ E). cbn [bind]. apply IH.
  - destruct tags; [contradiction | exact Hs].
  - destruct tags; [contradiction | exact Hf].
Qed.

Lemma go_turn_stuck_while_tags_seen_witness :
  state mem_go_turn = STATE_GO_TURN /\
  frames_keep_turn (tag_last_seen mem_go_turn) frames_fwd_only /\
  exists mem', run_ticks cfg640 frames_fwd_only mem_go_turn
                 = Ok mem' /\ state mem' = STATE_GO_TURN.
Proof.
  assert (F : frames_keep_turn (tag_last_seen mem_go_turn)
                frames_fwd_only).
  { unfold frames_fwd_only. simpl. repeat split; try discriminate; try lia;
      repeat constructor; simpl; discriminate. }
  split; [reflexivity |]. split; [exact F |].
  apply go_turn_stuck_while_tags_seen; [reflexivity | exact F].
Defined.

(** ** The timeout of [STATE_GO_TURN] on frames without tags *)

(** A frame without tags in [STATE_GO_TURN] keeps [tag_last_seen], and
    moves to [STATE_TURN_LEFT] exactly when the 3000 ms have passed. *)
Lemma tick_no_tags_go_turn (cfg : config) (now : Z) (mem : memory) :
  state mem = STATE_GO_TURN ->
  exists m', tick cfg [] now mem = Ok m' /\ tag_last_seen m' = tag_last_seen mem /\
    state m' = if (now - tag_last_seen mem >? 3000)%Z then STATE_TURN_LEFT else STATE_GO_TURN.
Proof.
  destruct mem as [s l r k ls]. simpl. intros ->. unfold tick, state_machine, go_turn. simpl.
  destruct (now - ls >? 3000)%Z; eexists; split; reflexivity || (split; reflexivity).
Qed.

(** Frames without tags keep [STATE_TURN_LEFT] and [tag_last_seen]. *)
Lemma run_no_tags_turn_left (cfg : config) (nows : list Z) (mem : memory) :
  state mem = STATE_TURN_LEFT ->
  exists m', run_ticks cfg (map (fun now => ([], now)) nows) mem = Ok m' /\
    state m' = STATE_TURN_LEFT /\ tag_last_seen m' = tag_last_seen mem.
Proof.
  revert mem. induction nows as [| now nows IH]; intros [s l r k ls] H; simpl in *;
    [eexists; split; [reflexivity | auto] | subst s].
  unfold tick, state_machine, turn_left. simpl. apply IH. reflexivity.
Qed.

(** C31: in [STATE_GO_TURN], if no tag is seen any more, the robot
    starts turning: on any sequence of frames without tags, one of which
    comes more than 3000 ms after the last sighting, the iterations end in
    [STATE_TURN_LEFT] (whatever the order of the timestamps). *)
Theorem go_turn_times_out (cfg : config) (nows : list Z) (mem : memory) :
  state mem = STATE_GO_TURN -> Exists (fun now => (tag_last_seen mem + 3000 < now)%Z) nows ->
  exists m', run_ticks cfg (map (fun now => ([], now)) nows) mem = Ok m' /\
    state m' = STATE_TURN_LEFT.
Proof.
  revert mem. induction nows as [| now nows IH]; intros mem Hs Hx; [inversion Hx |].
  destruct (tick_no_tags_go_turn cfg now mem Hs) as (m1 & E & L & S1).
  simpl. rewrite E. cbn [bind].
  destruct (Z.gtb_spec (now - tag_last_seen mem) 3000) as [G | G].
  - destruct (run_no_tags_turn_left cfg nows m1 S1) as (m' & R & S' & _). eauto.
  - inversion Hx as [? ? T | ? ? T]; subst; [lia |]. rewrite <- L in T. apply IH; assumption.
Qed.

Lemma go_turn_times_out_witness :
  state mem_go_turn = STATE_GO_TURN /\
  Exists (fun now => (tag_last_seen mem_go_turn + 3000 < now)%Z) [2000%Z; 4500%Z; 4600%Z] /\
  exists m', run_ticks cfg640 (map (fun now => ([], now)) [2000%Z; 4500%Z; 4600%Z]) mem_go_turn
               = Ok m' /\ state m' = STATE_TURN_LEFT.
Proof.
  assert (X : Exists (fun now => (tag_last_seen mem_go_turn + 3000 < now)%Z)
                [2000%Z; 4500%Z; 4600%Z]) by (apply Exists_cons_tl, Exists_cons_hd; simpl; lia).
  split; [reflexivity |]. split; [exact X |].
  exact (go_turn_times_out cfg640 _ mem_go_turn eq_refl X).
Defined.

(** ** Equivalent memories

    Two memories are equivalent when their speeds are the same numbers
    ([Qeq]: [1/2] and [2/4] are one float) and their other fields are
    equal.  Every operation of the iteration maps equivalent memories to
    equivalent results: the model does not depend on how a rational is
    written, as the program does not on how a float was computed. *)
Record mem_equiv (m1 m2 : memory) : Prop := {
  equiv_state : state m1 = state m2;
  equiv_left : left_speed m1 == left_speed m2;
  equiv_right : right_speed m1 == right_speed m2;
  equiv_missing : tag_missing_frames m1 = tag_missing_frames m2;
  equiv_last_seen : tag_last_seen m1 = tag_last_seen m2
}.

#[export] Instance mem_equiv_Equivalence : Equivalence mem_equiv.
Proof.
  split.
  - intros m. split; reflexivity.
  - intros m1 m2 []. split; symmetry; assumption.
  - intros m1 m2 m3 [] []. split; etransitivity; eassumption.
Qed.

#[export] Instance set_state_Proper : Proper (mem_equiv ==> eq ==> mem_equiv) set_state.
Proof. intros m1 m2 [] s s' <-. split; simpl; auto. Qed.

#[export] Instance set_speeds_Proper : Proper (mem_equiv ==> Qeq ==> Qeq ==> mem_equiv) set_speeds.
Proof. intros m1 m2 [] l l' El r r' Er. split; simpl; assumption. Qed.

#[export] Instance halve_speeds_Proper : Proper (mem_equiv ==> mem_equiv) halve_speeds.
Proof.
  intros m1 m2 E. unfold halve_speeds. rewrite (equiv_left _ _ E), (equiv_right _ _ E).
  now rewrite E.
Qed.

#[export] Instance snap_Proper : Proper (mem_equiv ==> mem_equiv) snap.
Proof.
  intros m1 m2 E. unfold snap. rewrite (equiv_left _ _ E), (equiv_right _ _ E).
  now rewrite E.
Qed.

#[export] Instance bookkeeping_Proper : Proper (eq ==> eq ==> mem_equiv ==> mem_equiv) bookkeeping.
Proof.
  intros tags ? <- now ? <- m1 m2 []. destruct tags; split; simpl; congruence.
Qed.

#[export] Instance drive_to_Proper :
  Proper (eq ==> eq ==> mem_equiv ==> result_equiv mem_equiv) drive_to.
Proof.
  intros cfg ? <- t ? <- m1 m2 E. unfold drive_to.
  destruct (get_left_right_power_for_tag t (width cfg) (max_speed cfg)) as [[l r] |];
    simpl; [now rewrite E | reflexivity].
Qed.

#[export] Instance go_farthest_Proper :
  Proper (eq ==> eq ==> mem_equiv ==> result_equiv mem_equiv) go_farthest.
Proof.
  intros cfg ? <- tags ? <- m1 m2 E. unfold go_farthest.
  apply bind_equiv with mem_equiv.
  - destruct (find_farthest tags); [now apply drive_to_Proper | simpl; now rewrite E].
  - intros a b Eab. destruct (find_turn_tag tags); simpl; [now rewrite Eab | exact Eab].
Qed.

#[export] Instance go_turn_Proper :
  Proper (eq ==> eq ==> eq ==> mem_equiv ==> result_equiv mem_equiv) go_turn.
Proof.
  intros cfg ? <- tags ? <- now ? <- m1 m2 E. unfold go_turn.
  rewrite (equiv_last_seen _ _ E). case_if; [simpl; now rewrite E |].
  destruct (find_turn_tag tags); [now apply drive_to_Proper | simpl; now rewrite E].
Qed.

#[export] Instance turn_left_Proper :
  Proper (eq ==> eq ==> mem_equiv ==> result_equiv mem_equiv) turn_left.
Proof.
  intros cfg ? <- tags ? <- m1 m2 E. unfold turn_left.
  destruct (find_target tags); [| simpl; now rewrite E].
  apply bind_equiv with Qeq; [destruct rescale; simpl; reflexivity |].
  intros a b Eab. rewrite Eab. case_if; simpl; now rewrite E.
Qed.

#[export] Instance tick_Proper :
  Proper (eq ==> eq ==> eq ==> mem_equiv ==> result_equiv mem_equiv) tick.
Proof.
  intros cfg ? <- tags ? <- now ? <- m1 m2 E. unfold tick.
  apply bind_equiv with mem_equiv; [| intros a b Eab; simpl; now rewrite Eab].
  unfold state_machine. rewrite (equiv_state _ _ E).
  destruct (state m2); [apply go_farthest_Proper | apply go_turn_Proper | apply turn_left_Proper];
    auto.
Qed.

(** From equivalent memories, any sequence of iterations gives
    equivalent memories, or raises the same exception: the stored speeds
    matter only as numbers. *)
Lemma run_ticks_equiv (cfg : config) (frames : list (list tag * Z)) (m1 m2 : memory) :
  mem_equiv m1 m2 -> result_equiv mem_equiv (run_ticks cfg frames m1) (run_ticks cfg frames m2).
Proof.
  revert m1 m2. induction frames as [| [tags now] rest IH]; intros m1 m2 E; simpl; [exact E |].
  apply bind_equiv with mem_equiv; [now apply tick_Proper | exact IH].
Qed.

