(* ===== verification/FloatExact.v ===== *)
(** * The stored speeds are exact doubles (src/main.py 108-111, 128-136, 160-163)

    The model computes with exact rationals where the program computes
    with binary64 floats.  On the speeds the loop stores from one
    iteration to the next the two agree: a stored speed is an integer
    power, the pivot speed, 0, or a halving of a stored speed that the
    snap kept, so it is [m / 2^e] with [|m| <= 254] and [e <= 11]
    ([reachable_speeds_dyadic]).  Such a number is a double (its
    significand has far fewer than 53 bits), so the program's [/ 2] is
    exact on it.  The literal [0.1] of lines 160-162 is the double
    [3602879701896397 / 2^55], slightly above [1/10]; no number [m / 2^e]
    with [e <= 54] lies between the two (no power of two is a multiple of
    5), so the snap decides the same way with either
    ([snap_double_agrees]). *)

From Stdlib Require Import QArith Qabs ZArith Lia Lqa List.
From S2P Require Import Prelude PyNum Tags Power Controller.
Import ListNotations.

Open Scope Q_scope.

(** [v = m / 2^e] with [0 <= e <= emax] and [|m| <= mmax]. *)
Definition dyadic (emax mmax : Z) (v : Q) : Prop :=
  exists m e, (0 <= e <= emax)%Z /\ (Z.abs m <= mmax)%Z /\ v == m # Z.to_pos (2 ^ e).

(** The binary64 value of the literal [0.1]. *)
Definition double_one_tenth : Q := 3602879701896397 # Z.to_pos (2 ^ 55).

(** Lines 160-161 as the float program evaluates them: [abs(v) < 0.1]
    with [0.1] rounded to its double. *)
Definition snap_speed_double (v : Q) : Q :=
  if Qltb (Qabs v) double_one_tenth then 0 else v.

(** ** Lemmas on dyadic numbers *)

Lemma Zpos_pow2 (e : Z) : (0 <= e)%Z -> Zpos (Z.to_pos (2 ^ e)) = (2 ^ e)%Z.
Proof. intros H. apply Z2Pos.id, Z.pow_pos_nonneg; lia. Qed.

Lemma dyadic_nonneg (emax mmax : Z) (v : Q) :
  dyadic emax mmax v -> (0 <= emax)%Z /\ (0 <= mmax)%Z.
Proof. intros (m & e & He & Hm & _). lia. Qed.

Lemma dyadic_inject_Z (emax mmax z : Z) :
  (0 <= emax)%Z -> (Z.abs z <= mmax)%Z -> dyadic emax mmax (inject_Z z).
Proof. intros He Hz. exists z, 0%Z. repeat split; lia || reflexivity. Qed.

Lemma dyadic_zero (emax mmax : Z) : (0 <= emax)%Z -> (0 <= mmax)%Z -> dyadic emax mmax 0.
Proof. intros He Hm. apply (dyadic_inject_Z _ _ 0); simpl; lia. Qed.

(** Halving adds one to the exponent. *)
Lemma dyadic_half (emax mmax : Z) (v : Q) :
  dyadic emax mmax v -> dyadic (emax + 1) mmax (v / 2).
Proof.
  intros (m & e & He & Hm & Hv). exists m, (e + 1)%Z. repeat split; try lia.
  rewrite Hv. unfold Qeq, Qdiv. simpl.
  rewrite Pos2Z.inj_mul, !Zpos_pow2 by lia. rewrite Z.pow_add_r by lia. ring.
Qed.

(** A dyadic number of absolute value at least [1/10] has [2^e <= 10 |m|]. *)
Lemma dyadic_ge_tenth (m e : Z) :
  (0 <= e)%Z -> 1 # 10 <= Qabs (m # Z.to_pos (2 ^ e)) -> (2 ^ e <= 10 * Z.abs m)%Z.
Proof. intros He H. unfold Qle in H. simpl in H. rewrite Zpos_pow2 in H by lia. lia. Qed.

Lemma snap_dyadic (emax mmax : Z) (v : Q) :
  dyadic emax mmax v -> dyadic emax mmax (snap_speed v).
Proof.
  intros D. destruct (dyadic_nonneg _ _ _ D).
  destruct (snap_speed_cases v) as [[-> _] | [-> _]]; [apply dyadic_zero; lia | exact D].
Qed.

(** The snap bounds the exponent of a halved speed: a kept speed
    [m / 2^e] with [|m| <= 254] has [2^e <= 2540 < 2^12]. *)
Lemma snap_half_dyadic (v : Q) : dyadic 11 254 v -> dyadic 11 254 (snap_speed (v / 2)).
Proof.
  intros D. apply dyadic_half in D as D'.
  destruct (snap_speed_cases (v / 2)) as [[-> _] | [-> G]]; [apply dyadic_zero; lia |].
  destruct D' as (m & e & He & Hm & Hv). exists m, e. repeat split; try lia.
  - rewrite Hv in G. apply dyadic_ge_tenth in G; [| lia].
    destruct (Z.le_gt_cases e 11) as [| E]; [assumption |].
    assert (P : (2 ^ 12 <= 2 ^ e)%Z) by (apply Z.pow_le_mono_r; lia). simpl in P. lia.
  - exact Hv.
Qed.

(** No power of two is a multiple of 5, so none is [10 * a]. *)
Lemma pow2_mod5 (e : Z) : (0 <= e)%Z -> (2 ^ e mod 5 <> 0)%Z.
Proof.
  intros He. pattern e; apply natlike_ind; [discriminate | | exact He].
  intros x Hx IH. rewrite Z.pow_succ_r, Z.mul_mod by lia.
  assert (B : (0 <= 2 ^ x mod 5 < 5)%Z) by (apply Z.mod_pos_bound; lia).
  assert (R : (2 ^ x mod 5 = 1 \/ 2 ^ x mod 5 = 2 \/ 2 ^ x mod 5 = 3 \/ 2 ^ x mod 5 = 4)%Z)
    by lia.
  destruct R as [-> | [-> | [-> | ->]]]; discriminate.
Qed.

Lemma ten_times_not_pow2 (a e : Z) : (0 <= e)%Z -> (10 * a <> 2 ^ e)%Z.
Proof.
  intros He E. apply (pow2_mod5 e He). rewrite <- E.
  replace (10 * a)%Z with (a * 2 * 5)%Z by ring. apply Z_mod_mult.
Qed.

(** ** The invariant of the reachable speeds *)

Section Exact.

(** The camera of the program is wider than [max_speed = 127] pixels. *)
Variable w : Z.
Hypothesis width_gt : (127 < w)%Z.

(** C29: for a camera wider than 127 pixels and frames whose tags are in
    view, every speed a reachable memory stores is [m / 2^e] with
    [|m| <= 254] and [0 <= e <= 11]: a double, on which the halving of
    lines 110-111 and 130-131 is exact. *)
Theorem reachable_speeds_dyadic (clock : Z) (mem : memory) :
  reachable (program_config w) (tags_in_view (program_config w)) clock mem ->
  dyadic 11 254 (left_speed mem) /\ dyadic 11 254 (right_speed mem).
Proof.
  intros R.
  apply (reachable_speeds (program_config w) ltac:(simpl; lia) ltac:(simpl; lia)
           (dyadic 11 254) clock mem); try exact R.
  - apply dyadic_zero; lia.
  - apply (dyadic_inject_Z _ _ (-30)); simpl; lia.
  - apply (dyadic_inject_Z _ _ 30); simpl; lia.
  - intros z Hz. simpl in Hz. apply dyadic_inject_Z; lia.
  - apply snap_dyadic.
  - apply snap_half_dyadic.
Qed.
End Exact.

Lemma reachable_speeds_dyadic_witness :
  (127 < 640)%Z /\
  reachable cfg640 (tags_in_view cfg640) 1000 mem_after_fwd /\
  dyadic 11 254 (left_speed mem_after_fwd) /\ dyadic 11 254 (right_speed mem_after_fwd).
Proof.
  assert (V : tags_in_view cfg640 [fwd_tag]).
  { constructor; [| constructor]. split; [split |]; apply Qle_bool_imp_le; reflexivity. }
  assert (R : reachable cfg640 (tags_in_view cfg640) 1000 mem_after_fwd)
    by (apply reach_tick with 0%Z init_memory [fwd_tag];
        [apply reach_init | lia | exact V | apply tick_init_fwd]).
  split; [lia |]. split; [exact R |].
  exact (reachable_speeds_dyadic 640 ltac:(lia) 1000 mem_after_fwd R).
Defined.

(** On every number [m / 2^e] with [e <= 54] (among them the
    stored speeds and their halvings, [e <= 12] by C29), the snap of
    lines 160-163 decides the same with the double [0.1] as with the
    exact [1/10]: no such number lies in [[1/10, 0.1)], so modelling the
    literal as [1/10] is exact. *)
Lemma snap_double_agrees (mmax : Z) (v : Q) :
  dyadic 54 mmax v -> snap_speed_double v = snap_speed v.
Proof.
  intros (m & e & He & _ & Hv). unfold snap_speed_double, snap_speed. rewrite Hv.
  change (Qabs (m # Z.to_pos (2 ^ e))) with (Z.abs m # Z.to_pos (2 ^ e)).
  pose proof (ten_times_not_pow2 (Z.abs m) e ltac:(lia)) as N.
  assert (P : (1 <= 2 ^ e <= 2 ^ 54)%Z)
    by (split; [apply (Z.pow_le_mono_r 2 0) | apply Z.pow_le_mono_r]; lia).
  do 2 case_q; try reflexivity; exfalso; unfold double_one_tenth, Qlt, Qle in *;
    cbn [Qnum Qden] in *; rewrite ?Zpos_pow2 in * by lia;
    change (2 ^ 55)%Z with 36028797018963968%Z in *;
    change (2 ^ 54)%Z with 18014398509481984%Z in *; lia.
Qed.

