(* ===== verification/Display.v ===== *)
(** * The drawing overlay and the console output (src/main.py 72-93, 102-103, 158-159)

    Each iteration writes to two outputs besides the motors.  The frame
    shown by [cv2.imshow] gets an overlay (lines 74-93): for every
    detection, the four sides of its bounding box through its corners
    truncated by [int()], a dot at its truncated centre, and its id
    written there with [str()].  The console gets a clear-screen escape
    and the state (lines 102-103) before the state machine runs, then the
    two speeds (lines 158-159) after the bookkeeping and before the snap.

    A [detection] is the detector's record with the corners the drawing
    reads; its [det_tag] is what the controller reads.  The OpenCV calls
    are values of [draw_cmd] (the call and its arguments), the prints are
    values of [console_line]: a string, or the value of a speed.  The text
    of a printed speed is [repr] of a Python int or float, and the model
    does not track which of the two a speed is, so it keeps the value.
    [tick_io] is one iteration with its output; if the state machine
    raises, the output written before it stays written.  The unused
    [tagFamily] of line 91 is not modelled.

    The theorems: [tick_io] computes the memory [tick] computes; the
    labels of the overlay read back as the ids of the tags, in order; the
    console shows the state at the start of the iteration and the speeds
    before the snap; and an iteration that raises has written the overlay
    and the state but no speed. *)

From Stdlib Require Import QArith ZArith List Lia String Ascii.
From Stdlib Require Import DecimalString DecimalPos DecimalZ.
From S2P Require Import Prelude PyNum Tags Power Controller.
Import ListNotations.

Open Scope Q_scope.

Record detection : Type := mk_detection {
  det_tag : tag;
  corners : (Q * Q) * (Q * Q) * (Q * Q) * (Q * Q)
}.

Definition point : Type := (Z * Z)%type.
Definition color : Type := (Z * Z * Z)%type.

(** OpenCV's [cv2.FONT_HERSHEY_SIMPLEX]. *)
Definition FONT_HERSHEY_SIMPLEX : Z := 0.

(** The calls of lines 83-93, with their arguments. *)
Inductive draw_cmd : Type :=
| cv2_line (pt1 pt2 : point) (c : color) (thickness : Z)
| cv2_circle (ctr : point) (radius : Z) (c : color) (thickness : Z)
| cv2_putText (text : string) (org : point) (font : Z) (scale : Q) (c : color)
    (thickness : Z).

(** [(int(p[0]), int(p[1]))] *)
Definition int_point (p : Q * Q) : point := (py_int (fst p), py_int (snd p)).

(** Python's [str()] of an int: its decimal digits, with a [-] when it
    is negative. *)
Definition py_str_int (z : Z) : string := NilZero.string_of_int (Z.to_int z).

(** Lines 77-93 for one detection [r]. *)
Definition draw_detection (r : detection) : list draw_cmd :=
  let '(ptA, ptB, ptC, ptD) := corners r in
  let ptB := int_point ptB in
  let ptC := int_point ptC in
  let ptD := int_point ptD in
  let ptA := int_point ptA in
  let c := int_point (center (det_tag r)) in
  [cv2_line ptA ptB (0, 255, 0) 2; cv2_line ptB ptC (0, 255, 0) 2;
   cv2_line ptC ptD (0, 255, 0) 2; cv2_line ptD ptA (0, 255, 0) 2;
   cv2_circle c 5 (0, 0, 255) (-1);
   cv2_putText (py_str_int (tag_id (det_tag r))) c FONT_HERSHEY_SIMPLEX (1 # 2)
     (0, 255, 0) 2]%Z.

(** Lines 74-93: [for r in tags: ...] *)
Definition overlay (rs : list detection) : list draw_cmd := flat_map draw_detection rs.

(** The values of [STATE_GO_FARTHEST], [STATE_GO_TURN] and
    [STATE_TURN_LEFT] (lines 11-13), the strings the program's [state]
    holds. *)
Definition state_name (s : nav_state) : string :=
  match s with
  | STATE_GO_FARTHEST => "state_go_farthest"
  | STATE_GO_TURN => "state_go_turn"
  | STATE_TURN_LEFT => "state_turn_left"
  end.

(** What one [print] writes. *)
Inductive console_line : Type :=
| PrintText (s : string)
| PrintNumber (v : Q).

(** [chr(27) + "[2J"] *)
Definition clear_screen : string := String (ascii_of_nat 27) "[2J".

Inductive output : Type :=
| Draw (c : draw_cmd)
| Print (l : console_line).

(** Lines 70-163 with their output: the overlay (72-93), the status lines
    (102-103), the state machine, the bookkeeping, the speeds (158-159)
    and the snap. *)
Definition tick_io (cfg : config) (rs : list detection) (now : Z) (mem : memory)
  : list output * result memory :=
  let tags := map det_tag rs in
  let out := map Draw (overlay rs) ++
             [Print (PrintText clear_screen);
              Print (PrintText ("State: " ++ state_name (state mem))%string)] in
  match state_machine cfg tags now mem with
  | Raise e => (out, Raise e)
  | Ok mem1 =>
      let mem2 := bookkeeping tags now mem1 in
      (out ++ [Print (PrintNumber (left_speed mem2)); Print (PrintNumber (right_speed mem2))],
       Ok (snap mem2))
  end.

(** ** Lemmas *)

(** The texts written by [cv2.putText], in order. *)
Definition labels (cs : list draw_cmd) : list string :=
  flat_map (fun c => match c with cv2_putText s _ _ _ _ _ => [s] | _ => [] end) cs.

(** Reading a decimal int back. *)
Definition parse_int (s : string) : option Z := option_map Z.of_int (NilZero.int_of_string s).

Lemma py_str_int_parse (z : Z) : parse_int (py_str_int z) = Some z.
Proof.
  unfold parse_int, py_str_int. rewrite NilZero.isi.
  - simpl. now rewrite DecimalZ.of_to.
  - destruct z; simpl; [discriminate | | discriminate].
    intros [= E]. exact (Unsigned.to_uint_nonnil _ E).
  - destruct z; simpl; [discriminate | discriminate |].
    intros [= E]. exact (Unsigned.to_uint_nonnil _ E).
Qed.

Lemma labels_draw_detection (r : detection) :
  labels (draw_detection r) = [py_str_int (tag_id (det_tag r))].
Proof. unfold draw_detection. destruct (corners r) as [[[a b] c] d]. reflexivity. Qed.

Lemma labels_app (l1 l2 : list draw_cmd) : labels (l1 ++ l2) = labels l1 ++ labels l2.
Proof. apply flat_map_app. Qed.

(** [tick_io] computes the memory [tick] computes. *)
Lemma tick_io_tick (cfg : config) (rs : list detection) (now : Z) (mem : memory) :
  snd (tick_io cfg rs now mem) = tick cfg (map det_tag rs) now mem.
Proof. unfold tick_io, tick. now destruct (state_machine _ _ _ _). Qed.

Lemma state_name_inj (s1 s2 : nav_state) : state_name s1 = state_name s2 -> s1 = s2.
Proof. destruct s1, s2; simpl; congruence. Qed.

(** ** Sample detections *)

Definition det_fwd : detection :=
  mk_detection fwd_tag ((340, 40), (364, 40), (364, 60), (340, 60)).

Definition det_marker : detection :=
  mk_detection turn_marker ((300, 80), (340, 80), (340, 120), (300, 120)).

(** ** Properties of the output *)

(** The labels the overlay writes, read back as decimal ints, are
    the ids of the detections, one per detection and in the detector's
    order: [str()] of an id loses nothing. *)
Lemma overlay_labels_roundtrip (rs : list detection) :
  map parse_int (labels (overlay rs)) = map (fun r => Some (tag_id (det_tag r))) rs.
Proof.
  induction rs as [| r rs IH]; [reflexivity |].
  unfold overlay. simpl. rewrite labels_app, labels_draw_detection. simpl.
  rewrite py_str_int_parse. f_equal. exact IH.
Qed.

(** C30: an iteration that does not raise writes the overlay, the
    clear-screen escape, the state the iteration started in (not the one
    it moves to) and the two speeds the state machine computed, before
    the snap to zero: the memory it keeps is the one [tick] computes, and
    its speeds are the snaps of the printed ones. *)
Theorem tick_io_console (cfg : config) (rs : list detection) (now : Z) (mem mem' : memory)
        (out : list output) :
  tick_io cfg rs now mem = (out, Ok mem') ->
  tick cfg (map det_tag rs) now mem = Ok mem' /\
  exists m1, state_machine cfg (map det_tag rs) now mem = Ok m1 /\
    out = map Draw (overlay rs) ++
          [Print (PrintText clear_screen);
           Print (PrintText ("State: " ++ state_name (state mem))%string);
           Print (PrintNumber (left_speed m1)); Print (PrintNumber (right_speed m1))] /\
    left_speed mem' = snap_speed (left_speed m1) /\ right_speed mem' = snap_speed (right_speed m1).
Proof.
  intros E. pose proof (tick_io_tick cfg rs now mem) as T. rewrite E in T.
  split; [symmetry; exact T |].
  unfold tick_io in E. destruct (state_machine cfg (map det_tag rs) now mem) as [m1 |];
    [| discriminate]. injection E as <- <-.
  exists m1. split; [reflexivity |]. rewrite <- app_assoc.
  destruct (speeds_bookkeeping (map det_tag rs) now m1) as [L R].
  cbn [snap set_speeds left_speed right_speed]. rewrite L, R. repeat split.
Qed.

(** A memory in [STATE_GO_FARTHEST] with slow speeds: the frame without
    tags halves them below [0.1]. *)
Definition mem_slow : memory := mk_memory STATE_GO_FARTHEST (3 # 20) (-3 # 20) 0 0.

Lemma tick_io_console_witness :
  tick_io cfg640 [] 1000 mem_slow =
    (fst (tick_io cfg640 [] 1000 mem_slow), Ok (ok_or mem_slow (tick cfg640 [] 1000 mem_slow))) /\
  tick cfg640 (map det_tag []) 1000 mem_slow = Ok (ok_or mem_slow (tick cfg640 [] 1000 mem_slow)) /\
  exists m1, state_machine cfg640 (map det_tag []) 1000 mem_slow = Ok m1 /\
    fst (tick_io cfg640 [] 1000 mem_slow) =
      map Draw (overlay []) ++
      [Print (PrintText clear_screen);
       Print (PrintText ("State: " ++ state_name (state mem_slow))%string);
       Print (PrintNumber (left_speed m1)); Print (PrintNumber (right_speed m1))] /\
    left_speed (ok_or mem_slow (tick cfg640 [] 1000 mem_slow)) = snap_speed (left_speed m1) /\
    right_speed (ok_or mem_slow (tick cfg640 [] 1000 mem_slow)) = snap_speed (right_speed m1).
Proof.
  assert (E : tick_io cfg640 [] 1000 mem_slow =
    (fst (tick_io cfg640 [] 1000 mem_slow), Ok (ok_or mem_slow (tick cfg640 [] 1000 mem_slow))))
    by (vm_compute; reflexivity).
  split; [exact E |]. exact (tick_io_console _ _ _ _ _ _ E).
Defined.

(** An iteration whose state machine raises has already written
    the overlay, the clear-screen escape and the state, and writes no
    speed: the exception leaves the iteration between lines 103 and 158. *)
Lemma tick_io_raise (cfg : config) (rs : list detection) (now : Z) (mem : memory)
        (e : py_exn) :
  tick cfg (map det_tag rs) now mem = Raise e ->
  tick_io cfg rs now mem =
    (map Draw (overlay rs) ++
     [Print (PrintText clear_screen);
      Print (PrintText ("State: " ++ state_name (state mem))%string)], Raise e).
Proof.
  unfold tick, tick_io. destruct (state_machine cfg (map det_tag rs) now mem); simpl;
    [discriminate | now intros [= ->]].
Qed.

