(* ===== verification/Camera.v ===== *)
(** * The camera and the tag detector (src/main.py 38-47, 58-68)

    [main] opens the camera ([cv2.VideoCapture(0)]), builds the AprilTag
    detector with a fixed configuration (lines 39-45), reads the frame
    width once (line 46) and, on every iteration, reads a frame, converts
    it to grey and runs the detector with pose estimation, the camera
    parameters of lines 63-67 and the tag size of lines 61 and 68.  The
    camera and the detector are libraries (OpenCV, [pupil_apriltags]): here
    they are interfaces, the classes [Camera] and [Detector], with a
    replaying camera as an instance.  The configuration the program passes
    them is data of this file, as written in the source.

    [acquire] is lines 58-68: [vid.read()] returns no frame when the read
    fails, and [cv2.cvtColor] then raises on [None]; otherwise the
    detections of the frame.  [camera_config] is the configuration the
    controller runs with: [int()] of the width the camera reports.

    The theorem: a camera that reports a width below one pixel (OpenCV
    reports [0.0] for a property it cannot read) gives the controller a
    width of 0, and the first frame with a tag raises
    [ZeroDivisionError]. *)

From Stdlib Require Import QArith ZArith List Lia Lqa String.
From S2P Require Import Prelude PyNum Tags Power Controller Display.
Import ListNotations.

Open Scope Q_scope.

(** The keyword arguments of [Detector(...)] (lines 39-45). *)
Record detector_config : Type := mk_detector_config {
  families : string;
  nthreads : Z;
  quad_decimate : Q;
  quad_sigma : Q;
  refine_edges : Z;
  decode_sharpening : Q;
  debug : Z
}.

(** Lines 39-45. *)
Definition at_detector : detector_config :=
  mk_detector_config "tag36h11" 1 1 0 1 (1 # 4) 0.

(** Lines 61, 63 and 64. *)
Definition tag_size_cm : Q := 41 # 2.
Definition focal_length : Q * Q := (1, 1).
Definition camera_center : Q * Q := (1, 1).

(** [camera_params] and [tag_size] of lines 67-68. *)
Definition camera_params : list Q :=
  [fst focal_length; snd focal_length; fst camera_center; snd camera_center].
Definition tag_size : Q := tag_size_cm / 100.

(** The camera: [vid.get(cv2.CAP_PROP_FRAME_WIDTH)], the height, and
    [vid.read()], which gives no frame when [ret] is [False]; with
    [cv2.cvtColor] to grey. *)
Class Camera (C Img : Type) : Type := {
  get_frame_width : C -> Q;
  get_frame_height : C -> Q;
  read : C -> C * option Img;
  cvtColor_gray : Img -> Img
}.

(** [at_detector.detect(image, estimate_tag_pose, camera_params, tag_size)]. *)
Class Detector (Img : Type) : Type := {
  detect : detector_config -> Img -> bool -> list Q -> Q -> list detection
}.

Section Acquire.
Context {C Img : Type} `{Camera C Img} `{Detector Img}.

(** Lines 46 and 51: the controller's configuration for the camera. *)
Definition camera_config (vid : C) : config := program_config (py_int (get_frame_width vid)).

(** Lines 58-68: one frame's detections. *)
Definition acquire (vid : C) : C * result (list detection) :=
  let '(vid', frame) := read vid in
  match frame with
  | None => (vid', Raise CollaboratorFault)
  | Some img =>
      (vid', Ok (detect at_detector (cvtColor_gray img) true camera_params tag_size))
  end.
End Acquire.

(** ** A camera replaying recorded frames

    Its reported width and height and the frames it will deliver, [None]
    standing for a failed read; a recorded frame is its detections, which
    the detector returns. *)
Record replay : Type := mk_replay {
  replay_width : Q;
  replay_height : Q;
  replay_frames : list (option (list detection))
}.

#[export] Instance Camera_replay : Camera replay (list detection) := {
  get_frame_width c := replay_width c;
  get_frame_height c := replay_height c;
  read c := match replay_frames c with
            | [] => (c, None)
            | f :: fs => (mk_replay (replay_width c) (replay_height c) fs, f)
            end;
  cvtColor_gray img := img
}.

#[export] Instance Detector_replay : Detector (list detection) := {
  detect _ img _ _ _ := img
}.

(** ** Properties *)

(** A reported width in [[0, 1)] is the width 0 for the controller. *)
Lemma camera_config_width_zero {C Img : Type} `{Camera C Img} (vid : C) :
  0 <= get_frame_width vid < 1 -> width (camera_config vid) = 0%Z.
Proof.
  intros [L U]. simpl. apply py_int_unique; intros; unfold Qle, Qlt in *; simpl in *; lia.
Qed.

(** C34: with a camera that reports a width below one pixel, the
    controller starting from its initial memory raises
    [ZeroDivisionError] on the first frame that has a tag: [int()] of the
    reported width is 0 and [rescale] divides by it. *)
Theorem camera_width_below_one {C Img : Type} `{Camera C Img} (vid : C) (tags : list tag) (now : Z) :
  0 <= get_frame_width vid < 1 -> tags <> [] ->
  tick (camera_config vid) tags now init_memory = Raise ZeroDivisionError.
Proof.
  intros Hw Hne. pose proof (camera_config_width_zero vid Hw) as W.
  destruct (find_farthest tags) as [t |] eqn:F;
    [| apply find_farthest_None in F; contradiction].
  unfold tick, state_machine. simpl state. unfold go_farthest. rewrite F.
  unfold drive_to, get_left_right_power_for_tag. rewrite W, turning_speed_zero_width.
  reflexivity.
Qed.

Lemma camera_width_below_one_witness :
  0 <= get_frame_width (mk_replay 0 0 [Some [det_fwd]]) < 1 /\ [fwd_tag] <> [] /\
  tick (camera_config (mk_replay 0 0 [Some [det_fwd]])) [fwd_tag] 1000 init_memory =
    Raise ZeroDivisionError.
Proof.
  assert (W : 0 <= get_frame_width (mk_replay 0 0 [Some [det_fwd]]) < 1)
    by (simpl; split; [apply Qle_refl | reflexivity]).
  split; [exact W |]. split; [discriminate |].
  exact (camera_width_below_one _ [fwd_tag] 1000 W ltac:(discriminate)).
Defined.
