(* ===== verification/Motor.v ===== *)
(** * Motor commands and the Roboclaw drive (src/main.py 165-173)

    The program drives the motors through a [Roboclaw] object (the
    [roboclaw_3] library, not part of this repository) with four methods
    [ForwardM1], [BackwardM1], [ForwardM2], [BackwardM2], each taking the
    controller address [0x80] and a magnitude.  Here the drive is an
    interface: the class [Roboclaw D] gives the four methods as updates of
    a drive state [D], and the class [RoboclawSpeeds] states what the
    controller relies on: each method sets the signed speed of its motor
    (negative for [Backward]) and leaves the other motor alone.
    [drive_log], the list of commands sent, is an instance of both.

    [command_m1] and [command_m2] are lines 165-168 and 170-173:
    [Forward] with [int(speed)] when the speed is positive, otherwise
    [Backward] with [abs(int(speed))].  On the command log, [cmd_wf]
    (address [0x80], magnitude at least 0) and [cmd_within b] (magnitude
    at most [b]) are preserved by every command the program sends. *)

From Stdlib Require Import QArith Qabs ZArith List Lia Lqa.
From S2P Require Import Prelude PyNum.
Import ListNotations.

Class Roboclaw (D : Type) : Type := {
  ForwardM1 : Z -> Z -> D -> D;
  BackwardM1 : Z -> Z -> D -> D;
  ForwardM2 : Z -> Z -> D -> D;
  BackwardM2 : Z -> Z -> D -> D
}.

(** The speed each motor was last commanded, as a signed integer. *)
Class RoboclawSpeeds (D : Type) `{Roboclaw D} : Type := {
  speed_m1 : D -> Z;
  speed_m2 : D -> Z;
  speed_m1_ForwardM1 a v d : speed_m1 (ForwardM1 a v d) = v;
  speed_m1_BackwardM1 a v d : speed_m1 (BackwardM1 a v d) = (- v)%Z;
  speed_m1_ForwardM2 a v d : speed_m1 (ForwardM2 a v d) = speed_m1 d;
  speed_m1_BackwardM2 a v d : speed_m1 (BackwardM2 a v d) = speed_m1 d;
  speed_m2_ForwardM2 a v d : speed_m2 (ForwardM2 a v d) = v;
  speed_m2_BackwardM2 a v d : speed_m2 (BackwardM2 a v d) = (- v)%Z;
  speed_m2_ForwardM1 a v d : speed_m2 (ForwardM1 a v d) = speed_m2 d;
  speed_m2_BackwardM1 a v d : speed_m2 (BackwardM1 a v d) = speed_m2 d
}.

#[export] Hint Rewrite @speed_m1_ForwardM1 @speed_m1_BackwardM1 @speed_m1_ForwardM2
  @speed_m1_BackwardM2 @speed_m2_ForwardM2 @speed_m2_BackwardM2 @speed_m2_ForwardM1
  @speed_m2_BackwardM1 : nav_rw.

(** The controller's address on the serial bus. *)
Definition ROBOCLAW_ADDRESS : Z := 128.

Section Commands.
Context {D : Type} `{Roboclaw D}.

(** Lines 165-168. *)
Definition command_m1 (left_speed : Q) (d : D) : D :=
  if Qltb 0 left_speed then ForwardM1 ROBOCLAW_ADDRESS (py_int left_speed) d
  else BackwardM1 ROBOCLAW_ADDRESS (Z.abs (py_int left_speed)) d.

(** Lines 170-173. *)
Definition command_m2 (right_speed : Q) (d : D) : D :=
  if Qltb 0 right_speed then ForwardM2 ROBOCLAW_ADDRESS (py_int right_speed) d
  else BackwardM2 ROBOCLAW_ADDRESS (Z.abs (py_int right_speed)) d.

(** Lines 165-173: both motors, M1 first. *)
Definition command_motors (left_speed right_speed : Q) (d : D) : D :=
  command_m2 right_speed (command_m1 left_speed d).

(** Lines 194-195: the stop of the [except] handler. *)
Definition stop_motors (d : D) : D :=
  ForwardM2 ROBOCLAW_ADDRESS 0 (ForwardM1 ROBOCLAW_ADDRESS 0 d).
End Commands.

(** ** The command log: an instance of the interface *)

Inductive drive_cmd : Type :=
| CmdForwardM1 (address value : Z)
| CmdBackwardM1 (address value : Z)
| CmdForwardM2 (address value : Z)
| CmdBackwardM2 (address value : Z).

(** The commands sent so far, the latest first. *)
Definition drive_log : Type := list drive_cmd.

#[export] Instance Roboclaw_log : Roboclaw drive_log := {
  ForwardM1 a v d := CmdForwardM1 a v :: d;
  BackwardM1 a v d := CmdBackwardM1 a v :: d;
  ForwardM2 a v d := CmdForwardM2 a v :: d;
  BackwardM2 a v d := CmdBackwardM2 a v :: d
}.

(** The last speed sent to each motor; a motor never commanded is at rest. *)
Fixpoint log_speed_m1 (d : drive_log) : Z :=
  match d with
  | [] => 0
  | CmdForwardM1 _ v :: _ => v
  | CmdBackwardM1 _ v :: _ => - v
  | _ :: d' => log_speed_m1 d'
  end.

Fixpoint log_speed_m2 (d : drive_log) : Z :=
  match d with
  | [] => 0
  | CmdForwardM2 _ v :: _ => v
  | CmdBackwardM2 _ v :: _ => - v
  | _ :: d' => log_speed_m2 d'
  end.

(** The address and the magnitude of a command. *)
Definition cmd_address (c : drive_cmd) : Z :=
  match c with
  | CmdForwardM1 a _ | CmdBackwardM1 a _ | CmdForwardM2 a _ | CmdBackwardM2 a _ => a
  end.

Definition cmd_value (c : drive_cmd) : Z :=
  match c with
  | CmdForwardM1 _ v | CmdBackwardM1 _ v | CmdForwardM2 _ v | CmdBackwardM2 _ v => v
  end.

(** A well-formed command: sent to the controller at [0x80], with a
    non-negative magnitude (the direction is in the command). *)
Definition cmd_wf (c : drive_cmd) : Prop :=
  cmd_address c = ROBOCLAW_ADDRESS /\ 0 <= cmd_value c.

(** A command whose magnitude is at most [b]. *)
Definition cmd_within (b : Z) (c : drive_cmd) : Prop := cmd_value c <= b.

#[export] Instance RoboclawSpeeds_log : RoboclawSpeeds drive_log.
Proof.
  refine {| speed_m1 := log_speed_m1; speed_m2 := log_speed_m2 |}; reflexivity.
Defined.

(** ** Properties of the motor commands *)

Section CommandProperties.
Context {D : Type} `{RoboclawSpeeds D}.

Lemma speed_m1_command_m1 (l : Q) (d : D) : speed_m1 (command_m1 l d) = py_int l.
Proof.
  unfold command_m1. case_q; autorewrite with nav_rw; [reflexivity |].
  pose proof (py_int_nonpos l ltac:(now apply Qnot_lt_le)). lia.
Qed.

Lemma speed_m2_command_m2 (r : Q) (d : D) : speed_m2 (command_m2 r d) = py_int r.
Proof.
  unfold command_m2. case_q; autorewrite with nav_rw; [reflexivity |].
  pose proof (py_int_nonpos r ltac:(now apply Qnot_lt_le)). lia.
Qed.

Lemma speed_m2_command_m1 (l : Q) (d : D) : speed_m2 (command_m1 l d) = speed_m2 d.
Proof. unfold command_m1. case_q; now autorewrite with nav_rw. Qed.

Lemma speed_m1_command_m2 (r : Q) (d : D) : speed_m1 (command_m2 r d) = speed_m1 d.
Proof. unfold command_m2. case_q; now autorewrite with nav_rw. Qed.

(** C23: for any drive that keeps the interface's laws, after the commands
    of lines 165-173 each motor runs at [int(speed)] of its wheel: the
    [Forward]/[Backward] split with [abs] loses nothing but the
    fractional part. *)
Theorem command_motors_speeds (l r : Q) (d : D) :
  speed_m1 (command_motors l r d) = py_int l /\ speed_m2 (command_motors l r d) = py_int r.
Proof.
  unfold command_motors. rewrite speed_m1_command_m2, speed_m1_command_m1.
  now rewrite speed_m2_command_m2.
Qed.

Lemma stop_motors_speeds (d : D) : speed_m1 (stop_motors d) = 0 /\ speed_m2 (stop_motors d) = 0.
Proof. unfold stop_motors. now autorewrite with nav_rw. Qed.
End CommandProperties.

(** ** Well-formedness and bounds of the commands sent *)

Lemma command_m1_wf (l : Q) (d : drive_log) :
  Forall cmd_wf d -> Forall cmd_wf (command_m1 l d).
Proof.
  intros H. unfold command_m1. case_q; constructor; auto; split; simpl; try reflexivity;
    [apply py_int_nonneg | apply Z.abs_nonneg]; lra.
Qed.

Lemma command_m2_wf (r : Q) (d : drive_log) :
  Forall cmd_wf d -> Forall cmd_wf (command_m2 r d).
Proof.
  intros H. unfold command_m2. case_q; constructor; auto; split; simpl; try reflexivity;
    [apply py_int_nonneg | apply Z.abs_nonneg]; lra.
Qed.

Lemma command_motors_wf (l r : Q) (d : drive_log) :
  Forall cmd_wf d -> Forall cmd_wf (command_motors l r d).
Proof. intros H. now apply command_m2_wf, command_m1_wf. Qed.

Lemma stop_motors_wf (d : drive_log) : Forall cmd_wf d -> Forall cmd_wf (stop_motors d).
Proof. intros H. repeat constructor; auto; discriminate. Qed.

(** A speed of at most [b] in absolute value is sent with a magnitude of
    at most [b], in either direction. *)
Lemma py_int_le_of_abs (q : Q) (b : Z) : (Qabs q <= inject_Z b)%Q -> py_int q <= b.
Proof. intros H. apply py_int_abs_le in H. lia. Qed.

Lemma command_m1_within (b : Z) (l : Q) (d : drive_log) :
  (Qabs l <= inject_Z b)%Q -> Forall (cmd_within b) d -> Forall (cmd_within b) (command_m1 l d).
Proof.
  intros B H. unfold command_m1, cmd_within.
  case_q; constructor; auto; simpl; [apply py_int_le_of_abs | apply py_int_abs_le]; auto.
Qed.

Lemma command_m2_within (b : Z) (r : Q) (d : drive_log) :
  (Qabs r <= inject_Z b)%Q -> Forall (cmd_within b) d -> Forall (cmd_within b) (command_m2 r d).
Proof.
  intros B H. unfold command_m2, cmd_within.
  case_q; constructor; auto; simpl; [apply py_int_le_of_abs | apply py_int_abs_le]; auto.
Qed.

Lemma command_motors_within (b : Z) (l r : Q) (d : drive_log) :
  (Qabs l <= inject_Z b)%Q -> (Qabs r <= inject_Z b)%Q ->
  Forall (cmd_within b) d -> Forall (cmd_within b) (command_motors l r d).
Proof. intros Bl Br H. now apply command_m2_within, command_m1_within. Qed.

Lemma stop_motors_within (b : Z) (d : drive_log) :
  0 <= b -> Forall (cmd_within b) d -> Forall (cmd_within b) (stop_motors d).
Proof. intros B H. repeat constructor; auto. Qed.

