(* ===== verification/MainLoop.v ===== *)
(** * The main loop and the shutdown path (src/main.py 37-199)

    [main] loops forever (line 56): it reads a frame, detects the tags,
    runs one iteration of the controller ([tick], Controller.v), commands
    both motors (lines 165-173), shows the frame and reads a key; the key
    [q] breaks the loop (lines 179-180).  The [__main__] block (185-199)
    calls [main] inside a [try] whose [except (Exception,
    KeyboardInterrupt, SystemExit)] handler stops both motors.

    The loop is modelled over a finite sequence of events, the prefix of
    an infinite run: [Frame tags clock key] is one iteration on a frame
    whose detections are [tags], where [time.time()] read [clock] seconds
    ([now = millis()], line 70, is [millis clock], Clock.v) and
    [cv2.waitKey(1)] returned [key]; [Fault e site tags clock] is an
    iteration during which a collaborator (camera, detector, display,
    serial link, or the user's interrupt) raises [e], before the motor
    commands, between them, or after them.  A [ZeroDivisionError] of the
    controller itself ends the loop at its iteration as well.  The drive
    is any instance of the [Roboclaw] interface (Motor.v).  The handler of
    [__main__] can itself be interrupted ([handler_fault]): a second
    exception raised while it prints the traceback or sends the stop
    leaves the [except] clause, and the interpreter exits on it.

    The theorems: every run ended by an exception, with a handler that
    runs to its end, stops both motors with exactly the handler's two
    commands; a second interrupt inside the handler leaves the motors
    running; the loop commands each motor to [int] of the controller's
    speed after every iteration; a run ended by the [q] key leaves the
    motors running; every command of every run goes to [0x80] with a
    non-negative magnitude, and, for a camera wider than [max_speed],
    frames in view and a clock that never goes back, a magnitude of at
    most [2 * max_speed = 254]. *)

From Stdlib Require Import QArith Qabs ZArith List Lia Sorted.
From S2P Require Import Prelude PyNum Clock Tags Power Controller Motor.
Import ListNotations.

(** [ord('q')] *)
Definition KEY_QUIT : Z := 113.

(** Where in an iteration a collaborator raises. *)
Inductive fault_site : Type :=
| BeforeDrive
| BetweenDrives
| AfterDrives.

Inductive event : Type :=
| Frame (tags : list tag) (clock : Q) (key : Z)
| Fault (e : py_exn) (site : fault_site) (tags : list tag) (clock : Q).

Definition event_tags (ev : event) : list tag :=
  match ev with Frame tags _ _ | Fault _ _ tags _ => tags end.

Definition event_clock (ev : event) : Q :=
  match ev with Frame _ clock _ | Fault _ _ _ clock => clock end.

(** A second exception raised inside the [except] handler: none, one
    while the traceback is printed (lines 191-193) or the first stop is
    sent (line 194), or one while the second stop is sent (line 195). *)
Inductive handler_fault : Type :=
| HandlerCompletes
| HandlerRaisesBeforeStop (e : py_exn)
| HandlerRaisesBetweenStops (e : py_exn).

(** How the loop stopped: still running after the events, broken by the
    [q] key, or left by an exception. *)
Inductive loop_exit : Type :=
| LoopRunning (mem : memory)
| LoopQuit
| LoopRaised (e : py_exn).

(** How the program ended. *)
Inductive program_exit : Type :=
| StillRunning
| ExitAfterQuit
| ExitAfterException (e : py_exn)
| ExitUncaught (e : py_exn).

Section Loop.
Context {D : Type} `{Roboclaw D}.

(** Lines 56-180. *)
Fixpoint main_loop (cfg : config) (events : list event) (mem : memory) (d : D)
  : loop_exit * D :=
  match events with
  | [] => (LoopRunning mem, d)
  | Frame tags clock key :: rest =>
      match tick cfg tags (millis clock) mem with
      | Raise e => (LoopRaised e, d)
      | Ok mem' =>
          let d' := command_motors (left_speed mem') (right_speed mem') d in
          if Z.eqb (Z.land key 255) KEY_QUIT then (LoopQuit, d')
          else main_loop cfg rest mem' d'
      end
  | Fault e site tags clock :: _ =>
      match site with
      | BeforeDrive => (LoopRaised e, d)
      | BetweenDrives =>
          match tick cfg tags (millis clock) mem with
          | Raise e' => (LoopRaised e', d)
          | Ok mem' => (LoopRaised e, command_m1 (left_speed mem') d)
          end
      | AfterDrives =>
          match tick cfg tags (millis clock) mem with
          | Raise e' => (LoopRaised e', d)
          | Ok mem' => (LoopRaised e, command_motors (left_speed mem') (right_speed mem') d)
          end
      end
  end.

(** Lines 188-199: how [main] left, and the [except] handler when it
    raised; [hf] says whether the handler itself is interrupted.  Lines
    196-199 end the process with status 0 once the handler has run. *)
Definition shutdown (ex : loop_exit) (hf : handler_fault) (d' : D) : program_exit * D :=
  match ex with
  | LoopRunning _ => (StillRunning, d')
  | LoopQuit => (ExitAfterQuit, d')
  | LoopRaised e =>
      match hf with
      | HandlerCompletes => (ExitAfterException e, stop_motors d')
      | HandlerRaisesBeforeStop e' => (ExitUncaught e', d')
      | HandlerRaisesBetweenStops e' => (ExitUncaught e', ForwardM1 ROBOCLAW_ADDRESS 0 d')
      end
  end.

(** Lines 185-199, [main] started with a camera of width [w] (line 46),
    [max_speed = 127] and the initial variables (lines 49-54). *)
Definition run_program (w : Z) (events : list event) (hf : handler_fault) (d : D)
  : program_exit * D :=
  let '(ex, d') := main_loop (program_config w) events init_memory d in shutdown ex hf d'.
End Loop.

(** ** Properties of the loop and of the shutdown path *)

(** A frame on which no key, or a key other than [q], was pressed. *)
Definition no_quit (f : list tag * Q * Z) : Prop :=
  let '(_, _, key) := f in Z.land key 255 <> KEY_QUIT.

Definition frame_event (f : list tag * Q * Z) : event :=
  let '(tags, clock, key) := f in Frame tags clock key.

(** Frames with the timestamps [millis] gives their clock readings. *)
Definition stamp (frames : list (list tag * Q)) : list (list tag * Z) :=
  map (fun f => (fst f, millis (snd f))) frames.

(** ** The commands of a run *)

(** C25: every command any run of the program sends, whatever the
    frames, the faults and the handler's interruptions, goes to the
    controller's address [0x80] with a non-negative magnitude: the
    [Backward] branch takes [abs], and [Forward] is only taken on a
    positive speed, whose [int] is non-negative. *)
Theorem program_commands_wf (w : Z) (events : list event) (hf : handler_fault) :
  Forall cmd_wf (snd (run_program (D := drive_log) w events hf [])).
Proof.
  assert (L : forall cfg evs mem (d : drive_log),
             Forall cmd_wf d -> Forall cmd_wf (snd (main_loop cfg evs mem d))).
  { intros cfg evs. induction evs as [| [tags clock key | e site tags clock] rest IH];
      intros mem d H; simpl; [exact H | |].
    - destruct (tick cfg tags (millis clock) mem) as [m |]; simpl; [| exact H].
      destruct (Z.land key 255 =? KEY_QUIT)%Z; simpl; [| apply IH];
        apply command_motors_wf, H.
    - destruct site; [exact H | |]; destruct (tick cfg tags (millis clock) mem); simpl;
        try exact H; [apply command_m1_wf, H | apply command_motors_wf, H]. }
  unfold run_program, shutdown.
  pose proof (L (program_config w) events init_memory [] (Forall_nil _)) as H.
  destruct (main_loop (D := drive_log) (program_config w) events init_memory [])
    as [[m | | e] d']; simpl in *; [exact H | exact H |].
  destruct hf; simpl; [apply stop_motors_wf; exact H | exact H |].
  constructor; [split; [reflexivity | simpl; lia] | exact H].
Qed.

(** The speeds the two motor commands of lines 165-173 leave. *)
Ltac command_speeds :=
  unfold command_motors; rewrite ?speed_m1_command_m2, ?speed_m1_command_m1, ?speed_m2_command_m2.

(** Iterations split at any frame. *)
Lemma run_ticks_app (cfg : config) (f1 f2 : list (list tag * Z)) (mem : memory) :
  run_ticks cfg (f1 ++ f2) mem = (m <- run_ticks cfg f1 mem ;; run_ticks cfg f2 m).
Proof.
  revert mem. induction f1 as [| [tags now] f1 IH]; intros mem; [reflexivity |]. simpl.
  destruct (tick cfg tags now mem); [apply IH | reflexivity].
Qed.

Section LoopProperties.
Context {D : Type} `{RoboclawSpeeds D}.

(** Over frames without the [q] key on which the controller does not
    raise, the loop runs the iterations of [run_ticks] on the timestamps
    [millis] gives, and leaves each motor at [int] of the last speeds. *)
Lemma main_loop_frames (cfg : config) (pre : list (list tag * Q * Z)) (rest : list event)
      (mem mem1 : memory) (d : D) :
  Forall no_quit pre -> run_ticks cfg (stamp (map fst pre)) mem = Ok mem1 ->
  exists d1, main_loop cfg (map frame_event pre ++ rest) mem d = main_loop cfg rest mem1 d1 /\
    (pre <> [] -> speed_m1 d1 = py_int (left_speed mem1) /\
                  speed_m2 d1 = py_int (right_speed mem1)).
Proof.
  revert mem d. induction pre as [| [[tags c] key] pre IH]; intros mem d Hq E.
  - injection E as <-. exists d. split; [reflexivity | contradiction].
  - inversion Hq as [| ? ? Hk Hq']; subst. simpl in Hk, E |- *.
    destruct (tick cfg tags (millis c) mem) as [m |] eqn:T; [| discriminate]. cbn [bind] in E.
    destruct (Z.eqb_spec (Z.land key 255) KEY_QUIT); [contradiction |].
    destruct pre as [| f pre].
    + injection E as <-. eexists. split; [reflexivity |]. intros _.
      command_speeds. split; reflexivity.
    + destruct (IH m (command_motors (left_speed m) (right_speed m) d) Hq' E) as (d1 & -> & S).
      exists d1. split; [reflexivity |]. intros _. apply S. discriminate.
Qed.

Lemma main_loop_fault_raises (cfg : config) (pre : list (list tag * Q * Z))
      (e : py_exn) (site : fault_site) (tags : list tag) (clock : Q) (post : list event)
      (mem : memory) (d : D) :
  Forall no_quit pre ->
  exists e' d1, main_loop cfg (map frame_event pre ++ Fault e site tags clock :: post) mem d =
                (LoopRaised e', d1) /\ (e' = e \/ e' = ZeroDivisionError).
Proof.
  revert mem d. induction pre as [| [[tg c] key] pre IH]; intros mem d Hq; simpl.
  - destruct site; [now eauto | |];
      destruct (tick cfg tags (millis clock) mem) as [m | e'] eqn:E; [now eauto | | now eauto |];
      exists e', d; (split; [reflexivity |]); right;
      apply tick_Raise in E; tauto.
  - inversion Hq as [| ? ? Hk Hq']; subst. simpl in Hk.
    destruct (tick cfg tg (millis c) mem) as [m | e'] eqn:E.
    + destruct (Z.eqb_spec (Z.land key 255) KEY_QUIT); [contradiction | auto].
    + exists e', d. split; [reflexivity |]. right.
      apply tick_Raise in E. tauto.
Qed.

(** C1: whatever the state of the controller, an exception raised by a
    collaborator during an iteration (before, between or after the two
    motor commands), after any frames without the [q] key, ends the
    program through the [except] handler: when the handler runs to its
    end, the drive receives exactly [ForwardM1(0x80, 0)] then
    [ForwardM2(0x80, 0)] and both motors are stopped.  The exception is
    the one raised, or the controller's own [ZeroDivisionError] if an
    earlier iteration raised it. *)
Theorem interrupt_stops_motors (w : Z) (pre : list (list tag * Q * Z))
        (e : py_exn) (site : fault_site) (tags : list tag) (clock : Q) (post : list event)
        (d : D) :
  Forall no_quit pre ->
  exists e' d0,
    run_program w (map frame_event pre ++ Fault e site tags clock :: post) HandlerCompletes d =
      (ExitAfterException e', stop_motors d0) /\
    (e' = e \/ e' = ZeroDivisionError) /\
    speed_m1 (stop_motors d0) = 0%Z /\ speed_m2 (stop_motors d0) = 0%Z.
Proof.
  intros Hq. unfold run_program, shutdown.
  destruct (main_loop_fault_raises (program_config w) pre e site tags clock post init_memory d Hq)
    as (e' & d1 & -> & He).
  exists e', d1. repeat split; auto; apply stop_motors_speeds.
Qed.

(** C24: over frames without the [q] key (any other key, or none) on
    which the controller does not raise, the loop keeps running with the
    memory [run_ticks] computes on the timestamps [millis] gives the clock
    readings, and after the last iteration each motor runs at [int] of its
    wheel's speed in that memory. *)
Theorem loop_follows_controller (cfg : config) (frames : list (list tag * Q * Z))
        (mem mem' : memory) (d : D) :
  frames <> [] -> Forall no_quit frames -> run_ticks cfg (stamp (map fst frames)) mem = Ok mem' ->
  exists d', main_loop cfg (map frame_event frames) mem d = (LoopRunning mem', d') /\
             speed_m1 d' = py_int (left_speed mem') /\ speed_m2 d' = py_int (right_speed mem').
Proof.
  intros Hne Hq E. destruct (main_loop_frames cfg frames [] mem mem' d Hq E) as (d1 & L & S).
  rewrite app_nil_r in L. exists d1. rewrite L. split; [reflexivity | exact (S Hne)].
Qed.

(** C2: the [q] key leaves the loop without stopping the motors: after
    any frames without it, a frame on which [q] is pressed ends [main]
    normally whatever follows, the [except] handler does not run (however
    it would have ended), and each motor keeps running at [int] of its
    wheel's speed after that last iteration. *)
Theorem quit_leaves_motors_running (w : Z) (pre : list (list tag * Q * Z)) (tags : list tag)
        (clock : Q) (key : Z) (post : list event) (hf : handler_fault) (mem' : memory) (d : D) :
  Forall no_quit pre -> Z.land key 255 = KEY_QUIT ->
  run_ticks (program_config w) (stamp (map fst pre ++ [(tags, clock)])) init_memory = Ok mem' ->
  exists d', run_program w (map frame_event pre ++ Frame tags clock key :: post) hf d =
               (ExitAfterQuit, d') /\
             speed_m1 d' = py_int (left_speed mem') /\ speed_m2 d' = py_int (right_speed mem').
Proof.
  intros Hq Hk E. unfold stamp in E. rewrite map_app, run_ticks_app in E.
  apply bind_eq_Ok in E as (m1 & E1 & E2). simpl in E2.
  destruct (tick (program_config w) tags (millis clock) m1) as [m |] eqn:T; [| discriminate].
  injection E2 as <-.
  destruct (main_loop_frames (program_config w) pre (Frame tags clock key :: post)
              init_memory m1 d Hq E1) as (d1 & L & _).
  unfold run_program. rewrite L. simpl. rewrite T, Hk, Z.eqb_refl. simpl.
  eexists. split; [reflexivity |]. command_speeds. split; reflexivity.
Qed.

(** C26: the stop is not guaranteed: when a collaborator's exception
    reaches the handler (after any frames without [q]) and a second
    exception interrupts the handler, the program ends on the uncaught
    exception; interrupted before [ForwardM1(0x80, 0)] the drive is left
    exactly as the loop left it (the drive the completed handler stops),
    and interrupted between the two stops motor M1 is stopped while M2
    keeps the loop's speed. *)
Theorem handler_interrupt_leaves_motors_running (w : Z) (pre : list (list tag * Q * Z))
        (e : py_exn) (site : fault_site) (tags : list tag) (clock : Q) (post : list event)
        (e' : py_exn) (d : D) :
  Forall no_quit pre ->
  exists e0 d1,
    run_program w (map frame_event pre ++ Fault e site tags clock :: post) HandlerCompletes d =
      (ExitAfterException e0, stop_motors d1) /\
    run_program w (map frame_event pre ++ Fault e site tags clock :: post)
      (HandlerRaisesBeforeStop e') d = (ExitUncaught e', d1) /\
    run_program w (map frame_event pre ++ Fault e site tags clock :: post)
      (HandlerRaisesBetweenStops e') d = (ExitUncaught e', ForwardM1 ROBOCLAW_ADDRESS 0 d1) /\
    speed_m1 (ForwardM1 ROBOCLAW_ADDRESS 0 d1) = 0%Z /\
    speed_m2 (ForwardM1 ROBOCLAW_ADDRESS 0 d1) = speed_m2 d1.
Proof.
  intros Hq.
  destruct (main_loop_fault_raises (program_config w) pre e site tags clock post init_memory d Hq)
    as (e0 & d1 & L & _).
  exists e0, d1. unfold run_program, shutdown. rewrite L.
  repeat split; [apply speed_m1_ForwardM1 | apply speed_m2_ForwardM1].
Qed.
End LoopProperties.

Lemma interrupt_stops_motors_witness :
  Forall no_quit [([fwd_tag], 1%Q, (-1)%Z)] /\
  exists e' d0,
    run_program (D := drive_log) 640
      (map frame_event [([fwd_tag], 1%Q, (-1)%Z)] ++
       Fault KeyboardInterrupt BetweenDrives [] (11 # 10) :: []) HandlerCompletes [] =
      (ExitAfterException e', stop_motors d0) /\
    (e' = KeyboardInterrupt \/ e' = ZeroDivisionError) /\
    speed_m1 (stop_motors d0) = 0%Z /\ speed_m2 (stop_motors d0) = 0%Z.
Proof.
  assert (Q : Forall no_quit [([fwd_tag], 1%Q, (-1)%Z)])
    by (constructor; [vm_compute; discriminate | constructor]).
  split; [exact Q |]. apply interrupt_stops_motors. exact Q.
Defined.

Lemma loop_follows_controller_witness :
  [([fwd_tag], 1%Q, 0%Z); ([], 2%Q, 32%Z)] <> [] /\
  Forall no_quit [([fwd_tag], 1%Q, 0%Z); ([], 2%Q, 32%Z)] /\
  run_ticks cfg640 (stamp (map fst [([fwd_tag], 1%Q, 0%Z); ([], 2%Q, 32%Z)])) init_memory =
    Ok (ok_or init_memory (run_ticks cfg640 [([fwd_tag], 1000%Z); ([], 2000%Z)] init_memory)) /\
  exists d', main_loop (D := drive_log) cfg640
               (map frame_event [([fwd_tag], 1%Q, 0%Z); ([], 2%Q, 32%Z)]) init_memory [] =
             (LoopRunning (ok_or init_memory
                (run_ticks cfg640 [([fwd_tag], 1000%Z); ([], 2000%Z)] init_memory)), d') /\
             speed_m1 d' = py_int (left_speed (ok_or init_memory
                (run_ticks cfg640 [([fwd_tag], 1000%Z); ([], 2000%Z)] init_memory))) /\
             speed_m2 d' = py_int (right_speed (ok_or init_memory
                (run_ticks cfg640 [([fwd_tag], 1000%Z); ([], 2000%Z)] init_memory))).
Proof.
  assert (Q : Forall no_quit [([fwd_tag], 1%Q, 0%Z); ([], 2%Q, 32%Z)])
    by (repeat constructor; vm_compute; discriminate).
  assert (R : run_ticks cfg640 (stamp (map fst [([fwd_tag], 1%Q, 0%Z); ([], 2%Q, 32%Z)]))
                init_memory =
              Ok (ok_or init_memory (run_ticks cfg640 [([fwd_tag], 1000%Z); ([], 2000%Z)]
                init_memory))) by (vm_compute; reflexivity).
  split; [discriminate |]. split; [exact Q |]. split; [exact R |].
  exact (loop_follows_controller cfg640 [([fwd_tag], 1%Q, 0%Z); ([], 2%Q, 32%Z)] init_memory _ []
           ltac:(discriminate) Q R).
Defined.

Lemma quit_leaves_motors_running_witness :
  Forall no_quit (@nil (list tag * Q * Z)) /\ Z.land KEY_QUIT 255 = KEY_QUIT /\
  run_ticks (program_config 640) (stamp (map fst (@nil (list tag * Q * Z)) ++ [([fwd_tag], 1%Q)])) init_memory =
    Ok mem_after_fwd /\
  exists d', run_program (D := drive_log) 640 (map frame_event (@nil (list tag * Q * Z)) ++ [Frame [fwd_tag] 1 KEY_QUIT])
               HandlerCompletes [] = (ExitAfterQuit, d') /\
             speed_m1 d' = py_int (left_speed mem_after_fwd) /\
             speed_m2 d' = py_int (right_speed mem_after_fwd).
Proof.
  assert (R : run_ticks (program_config 640) (stamp (map fst (@nil (list tag * Q * Z)) ++ [([fwd_tag], 1%Q)]))
                init_memory = Ok mem_after_fwd) by (vm_compute; reflexivity).
  split; [constructor |]. split; [reflexivity |]. split; [exact R |].
  exact (quit_leaves_motors_running 640 [] [fwd_tag] 1 KEY_QUIT [] HandlerCompletes
           mem_after_fwd ([] : drive_log) (Forall_nil _) eq_refl R).
Defined.

Lemma handler_interrupt_leaves_motors_running_witness :
  Forall no_quit [([fwd_tag], 1%Q, (-1)%Z)] /\
  exists e0 d1,
    run_program (D := drive_log) 640
      (map frame_event [([fwd_tag], 1%Q, (-1)%Z)] ++
       Fault KeyboardInterrupt AfterDrives [fwd_tag] (11 # 10) :: []) HandlerCompletes [] =
      (ExitAfterException e0, stop_motors d1) /\
    run_program (D := drive_log) 640
      (map frame_event [([fwd_tag], 1%Q, (-1)%Z)] ++
       Fault KeyboardInterrupt AfterDrives [fwd_tag] (11 # 10) :: [])
      (HandlerRaisesBeforeStop KeyboardInterrupt) [] = (ExitUncaught KeyboardInterrupt, d1) /\
    run_program (D := drive_log) 640
      (map frame_event [([fwd_tag], 1%Q, (-1)%Z)] ++
       Fault KeyboardInterrupt AfterDrives [fwd_tag] (11 # 10) :: [])
      (HandlerRaisesBetweenStops KeyboardInterrupt) [] =
      (ExitUncaught KeyboardInterrupt, ForwardM1 ROBOCLAW_ADDRESS 0 d1) /\
    speed_m1 (ForwardM1 ROBOCLAW_ADDRESS 0 d1) = 0%Z /\
    speed_m2 (ForwardM1 ROBOCLAW_ADDRESS 0 d1) = speed_m2 d1.
Proof.
  assert (Q : Forall no_quit [([fwd_tag], 1%Q, (-1)%Z)])
    by (constructor; [vm_compute; discriminate | constructor]).
  split; [exact Q |]. apply handler_interrupt_leaves_motors_running. exact Q.
Defined.

Section CommandBound.

(** The camera of the program is wider than [max_speed = 127] pixels. *)
Variable w : Z.
Hypothesis width_gt : (127 < w)%Z.

Lemma tick_speed_bound (t0 clock : Q) (tags : list tag) (mem m : memory) :
  reachable (program_config w) (tags_in_view (program_config w)) (millis t0) mem ->
  t0 <= clock -> tags_in_view (program_config w) tags ->
  tick (program_config w) tags (millis clock) mem = Ok m ->
  reachable (program_config w) (tags_in_view (program_config w)) (millis clock) m /\
  Qabs (left_speed m) <= inject_Z 254 /\ Qabs (right_speed m) <= inject_Z 254.
Proof.
  intros R Hc Hv E.
  assert (R' : reachable (program_config w) (tags_in_view (program_config w)) (millis clock) m)
    by (eapply reach_tick; [exact R | apply millis_mono; exact Hc | exact Hv | exact E]).
  split; [exact R' |].
  exact (reachable_speed_bound (program_config w) ltac:(simpl; lia) ltac:(simpl; lia) _ _ R').
Qed.

Lemma main_loop_within (events : list event) (t0 : Q) (mem : memory) (d : drive_log) :
  reachable (program_config w) (tags_in_view (program_config w)) (millis t0) mem ->
  Sorted Qle (t0 :: map event_clock events) ->
  Forall (fun ev => tags_in_view (program_config w) (event_tags ev)) events ->
  Forall (cmd_within 254) d ->
  Forall (cmd_within 254) (snd (main_loop (program_config w) events mem d)).
Proof.
  revert t0 mem d.
  induction events as [| ev rest IH]; intros t0 mem d R S V H; [exact H |].
  apply Sorted_cons2 in S as [Hc S]. inversion V as [| ? ? Hv V']; subst.
  destruct ev as [tags clock key | e site tags clock]; simpl in *.
  - destruct (tick (program_config w) tags (millis clock) mem) as [m |] eqn:E; simpl; [| exact H].
    destruct (tick_speed_bound t0 clock tags mem m R Hc Hv E) as (R' & Bl & Br).
    destruct (Z.land key 255 =? KEY_QUIT)%Z; simpl;
      [| apply (IH clock); auto]; apply command_motors_within; assumption.
  - destruct site; [exact H | |];
      destruct (tick (program_config w) tags (millis clock) mem) as [m |] eqn:E; simpl;
      try exact H; destruct (tick_speed_bound t0 clock tags mem m R Hc Hv E) as (_ & Bl & Br);
      [apply command_m1_within | apply command_motors_within]; assumption.
Qed.

(** C13: for a camera wider than [max_speed = 127] pixels, frames whose
    tags are all in the frame and at most 3 metres away, and a clock that
    starts at or after the epoch and never goes back, every command the
    program sends, the handler's included, has a magnitude of at most
    [2 * max_speed = 254]: within a byte, but twice the [max_power] the
    specification gives the wheel commands. *)
Theorem program_commands_bounded (events : list event) (hf : handler_fault) :
  Sorted Qle (0 :: map event_clock events) ->
  Forall (fun ev => tags_in_view (program_config w) (event_tags ev)) events ->
  Forall (cmd_within 254) (snd (run_program (D := drive_log) w events hf [])).
Proof.
  intros S V. unfold run_program, shutdown.
  assert (R : reachable (program_config w) (tags_in_view (program_config w)) (millis 0)
                init_memory) by (rewrite millis_zero; apply reach_init).
  pose proof (main_loop_within events 0 init_memory [] R S V (Forall_nil _)) as H.
  destruct (main_loop (D := drive_log) (program_config w) events init_memory [])
    as [[m | | e] d']; simpl in *; [exact H | exact H |].
  destruct hf; simpl; [apply stop_motors_within; [lia | exact H] | exact H |].
  constructor; [unfold cmd_within; simpl; lia | exact H].
Qed.
End CommandBound.

Lemma program_commands_bounded_witness :
  (127 < 640)%Z /\
  Sorted Qle (0 :: map event_clock
    [Frame [fwd_tag] 1 (-1); Fault KeyboardInterrupt AfterDrives [fwd_tag] (11 # 10)]) /\
  Forall (fun ev => tags_in_view (program_config 640) (event_tags ev))
    [Frame [fwd_tag] 1 (-1); Fault KeyboardInterrupt AfterDrives [fwd_tag] (11 # 10)] /\
  Forall (cmd_within 254)
    (snd (run_program (D := drive_log) 640
       [Frame [fwd_tag] 1 (-1); Fault KeyboardInterrupt AfterDrives [fwd_tag] (11 # 10)]
       HandlerCompletes [])).
Proof.
  assert (W : (127 < 640)%Z) by lia.
  assert (S : Sorted Qle (0 :: map event_clock
    [Frame [fwd_tag] 1 (-1); Fault KeyboardInterrupt AfterDrives [fwd_tag] (11 # 10)]))
    by (simpl; repeat constructor; unfold Qle; simpl; lia).
  assert (V : Forall (fun ev => tags_in_view (program_config 640) (event_tags ev))
    [Frame [fwd_tag] 1 (-1); Fault KeyboardInterrupt AfterDrives [fwd_tag] (11 # 10)])
    by (repeat constructor; apply Qle_bool_imp_le; reflexivity).
  split; [exact W |]. split; [exact S |]. split; [exact V |].
  exact (program_commands_bounded 640 W _ HandlerCompletes S V).
Defined.
