(* ===== verification/CameraLoop.v ===== *)
(** * The main loop reading its frames from the camera (src/main.py 56-180, 185-199)

    MainLoop.v runs the loop over a list of events, each a frame's tags
    or an exception at a point of an iteration.  Here the loop is the
    source's, with its collaborators as the interfaces of Camera.v,
    Display.v and Motor.v: each iteration reads a frame from the camera
    and runs the detector ([acquire], lines 58-68), writes the overlay and
    the console lines and runs the controller ([tick_io], lines 70-163),
    drives the motors (165-173) and tests the key (179-180).  A failed
    read ([ret] false) is not tested by the program: [cv2.cvtColor]
    raises on the missing frame, before the motors are driven.  The
    inputs of an iteration besides the camera are the clock reading and
    the key.  [camera_program] is lines 185-199 around it, with the width
    the camera reports (line 46).

    The lemmas: the loop on the camera computes the exit and the drive
    that [main_loop] computes on the events the camera delivers
    ([camera_events]), so the theorems of MainLoop.v hold of it.  The
    theorem: a camera whose read fails during the run, before any [q]
    key, ends the program through the handler with both motors
    stopped. *)

From Stdlib Require Import QArith ZArith List Lia.
From S2P Require Import Prelude PyNum Clock Tags Power Controller Display Camera Motor MainLoop.
Import ListNotations.

Section CameraLoop.
Context {C Img D : Type} `{Camera C Img} `{Detector Img} `{Roboclaw D}.

(** Lines 56-180, for the clock reading and the key of each iteration:
    how the loop stopped, the drive, and the output written. *)
Fixpoint camera_loop (cfg : config) (inputs : list (Q * Z)) (vid : C) (mem : memory) (d : D)
  : loop_exit * D * list output :=
  match inputs with
  | [] => (LoopRunning mem, d, [])
  | (clock, key) :: rest =>
      let '(vid', frame) := acquire vid in
      match frame with
      | Raise e => (LoopRaised e, d, [])
      | Ok rs =>
          let '(out, r) := tick_io cfg rs (millis clock) mem in
          match r with
          | Raise e => (LoopRaised e, d, out)
          | Ok mem' =>
              let d' := command_motors (left_speed mem') (right_speed mem') d in
              if Z.eqb (Z.land key 255) KEY_QUIT then (LoopQuit, d', out)
              else
                let '(ex, d'', out') := camera_loop cfg rest vid' mem' d' in
                (ex, d'', out ++ out')
          end
      end
  end.

(** Lines 185-199 with [main] reading the camera [vid]. *)
Definition camera_program (vid : C) (inputs : list (Q * Z)) (hf : handler_fault) (d : D)
  : program_exit * D * list output :=
  let '(ex, d', out) := camera_loop (camera_config vid) inputs vid init_memory d in
  let '(pe, d'') := shutdown ex hf d' in (pe, d'', out).

(** The events the camera delivers to the loop: the tags of each frame it
    reads, and the exception of [cv2.cvtColor] when a read fails. *)
Fixpoint camera_events (inputs : list (Q * Z)) (vid : C) : list event :=
  match inputs with
  | [] => []
  | (clock, key) :: rest =>
      let '(vid', frame) := acquire vid in
      match frame with
      | Raise e => [Fault e BeforeDrive [] clock]
      | Ok rs => Frame (map det_tag rs) clock key :: camera_events rest vid'
      end
  end.

(** The frames [n] reads of the camera return, [None] for a failed read. *)
Fixpoint camera_frames (n : nat) (vid : C) : list (option Img) :=
  match n with
  | O => []
  | S n' => let '(vid', f) := read vid in f :: camera_frames n' vid'
  end.

(** An input on which the [q] key was not pressed. *)
Definition no_quit_key (i : Q * Z) : Prop := Z.land (snd i) 255 <> KEY_QUIT.

(** ** The loop on the camera is [main_loop] on its events *)

Lemma tick_io_result (cfg : config) (rs : list detection) (now : Z) (mem : memory)
      (out : list output) (r : result memory) :
  tick_io cfg rs now mem = (out, r) -> tick cfg (map det_tag rs) now mem = r.
Proof. intros E. rewrite <- tick_io_tick, E. reflexivity. Qed.

Lemma camera_loop_main_loop (cfg : config) (inputs : list (Q * Z)) (vid : C) (mem : memory)
      (d : D) :
  fst (camera_loop cfg inputs vid mem d) = main_loop cfg (camera_events inputs vid) mem d.
Proof.
  revert vid mem d. induction inputs as [| [clock key] rest IH]; intros vid mem d;
    [reflexivity |]. simpl. unfold acquire.
  destruct (read vid) as [vid' [img |]]; [| reflexivity]. simpl.
  destruct (tick_io cfg _ (millis clock) mem) as [out r] eqn:T.
  apply tick_io_result in T. rewrite T. destruct r as [mem' | e]; [| reflexivity].
  destruct (Z.land key 255 =? KEY_QUIT)%Z; [reflexivity |].
  rewrite <- IH. now destruct (camera_loop cfg rest vid' mem' _) as [[ex d''] out'].
Qed.

Lemma camera_program_run_program (vid : C) (inputs : list (Q * Z)) (hf : handler_fault) (d : D) :
  fst (camera_program vid inputs hf d) =
  run_program (py_int (get_frame_width vid)) (camera_events inputs vid) hf d.
Proof.
  unfold camera_program, run_program, camera_config.
  rewrite <- camera_loop_main_loop.
  destruct (camera_loop _ inputs vid init_memory d) as [[ex d'] out]. simpl.
  now destruct (shutdown ex hf d').
Qed.

(** A read that fails within the inputs, before any [q] key, ends the
    loop on an exception: the camera's, or [ZeroDivisionError] of the
    controller. *)
Lemma camera_loop_failure_raises (cfg : config) (inputs : list (Q * Z)) (vid : C)
      (mem : memory) (d : D) :
  Forall no_quit_key inputs -> In None (camera_frames (length inputs) vid) ->
  exists e d1 out, camera_loop cfg inputs vid mem d = (LoopRaised e, d1, out) /\
                   (e = CollaboratorFault \/ e = ZeroDivisionError).
Proof.
  revert vid mem d. induction inputs as [| [clock key] rest IH]; intros vid mem d Hq Hin;
    [contradiction |]. inversion Hq as [| ? ? Hk Hq']; subst. unfold no_quit_key in Hk.
  simpl in Hin |- *. unfold acquire.
  destruct (read vid) as [vid' [img |]]; [| exists CollaboratorFault, d, []; auto].
  destruct Hin as [Hin | Hin]; [discriminate |].
  destruct (tick_io cfg _ (millis clock) mem) as [out r] eqn:T.
  apply tick_io_result in T. destruct r as [mem' | e].
  - simpl in Hk. destruct (Z.eqb_spec (Z.land key 255) KEY_QUIT); [contradiction |].
    destruct (IH vid' mem' (command_motors (left_speed mem') (right_speed mem') d) Hq' Hin)
      as (e & d1 & out' & -> & He).
    eauto.
  - apply tick_Raise in T. exists e, d, out. tauto.
Qed.
End CameraLoop.

(** ** A failed read stops the motors *)

Section CameraShutdown.
Context {C Img D : Type} `{Camera C Img} `{Detector Img} `{RoboclawSpeeds D}.

(** C35: a camera whose read fails during the run ([ret] false, so
    [cv2.cvtColor] raises on the missing frame), with no [q] key pressed
    before, ends the program through the [except] handler: it exits after
    the exception (the camera's, or the controller's [ZeroDivisionError]
    of an earlier frame), the handler's two stop commands are the last
    the drive receives, and both motors are stopped.  This is the
    shutdown the specification asks of a collaborator's fatal
    condition. *)
Theorem camera_failure_stops_motors (vid : C) (inputs : list (Q * Z)) (d : D) :
  Forall no_quit_key inputs -> In None (camera_frames (length inputs) vid) ->
  exists e d0 out,
    camera_program vid inputs HandlerCompletes d = (ExitAfterException e, stop_motors d0, out) /\
    (e = CollaboratorFault \/ e = ZeroDivisionError) /\
    speed_m1 (stop_motors d0) = 0%Z /\ speed_m2 (stop_motors d0) = 0%Z.
Proof.
  intros Hq Hin. unfold camera_program.
  destruct (camera_loop_failure_raises (camera_config vid) inputs vid init_memory d Hq Hin)
    as (e & d1 & out & -> & He).
  exists e, d1, out. split; [reflexivity |]. split; [exact He | apply stop_motors_speeds].
Qed.
End CameraShutdown.

(** A camera that delivers one frame with the forward tag, then fails. *)
Definition cam_fails_second : replay := mk_replay 640 480 [Some [det_fwd]; None].

(** Two iterations, at 1 s and 2 s, without a key ([cv2.waitKey] gives -1). *)
Definition two_inputs : list (Q * Z) := [(1%Q, (-1)%Z); (2%Q, (-1)%Z)].

Lemma camera_failure_stops_motors_witness :
  Forall no_quit_key two_inputs /\
  In None (camera_frames 2 cam_fails_second) /\
  exists e d0 out,
    camera_program cam_fails_second two_inputs HandlerCompletes ([] : drive_log) =
      (ExitAfterException e, stop_motors d0, out) /\
    (e = CollaboratorFault \/ e = ZeroDivisionError) /\
    speed_m1 (stop_motors d0) = 0%Z /\ speed_m2 (stop_motors d0) = 0%Z.
Proof.
  assert (Hq : Forall no_quit_key two_inputs)
    by (repeat constructor; unfold no_quit_key; simpl; discriminate).
  assert (Hin : In None (camera_frames 2 cam_fails_second)) by (simpl; auto).
  split; [exact Hq |]. split; [exact Hin |].
  exact (camera_failure_stops_motors cam_fails_second _ ([] : drive_log) Hq Hin).
Defined.
